(** * HBC_Records viewer: hit-testing, highlight synchronisation and
      suggestion ranking

    A shallow embedding of the viewer component ([Home], the page
    component of the application) and of the ingestion script, together
    with the properties of their geometric hit-testing, highlight state
    machine and suggestion aggregation.

    Conventions of the embedding.
    - A JavaScript [number] holding page geometry is a binary64 value:
      Rocq's primitive [float], whose operations are specified by
      [FloatAxioms] against [SpecFloat].  Arithmetic, comparisons and
      literals therefore round exactly as they do in the program.
    - Counters, time stamps (milliseconds) and page numbers are integers
      that the program never takes out of the range in which binary64 is
      exact; they are [Z].
    - A JavaScript string is a [string]: one character per code unit,
      for strings whose code units are below 256.
    - An object used as a dictionary and only read by key is a [gmap];
      where the program enumerates the keys ([Object.keys],
      [Object.entries]) it is an association list in insertion order.
      The keys are line identifiers and user ids of the store, none of
      them the name of a property of [Object.prototype]; where the keys
      come from a column of free text ([Load]) such names are modelled.
    - React state is a record, an event handler a function from state to
      state. *)

From stdpp Require Import gmap strings list sorting.
From Stdlib Require Import Ascii ZArith Floats Lia DecimalString DecimalN DecimalPos.

Set Default Proof Using "Type".
Set Warnings "-inexact-float".
Local Open Scope Z_scope.

(** ** JavaScript built-ins used by the program *)

Module Js.

(** [Number.isFinite]. *)
Definition Number_isFinite (v : float) : bool := is_finite v.

(** The sign of a zero: [true] for [-0]. *)
Definition is_neg_zero (v : float) : bool := is_zero v && get_sign v.
Definition is_pos_zero (v : float) : bool := is_zero v && negb (get_sign v).

(** [Math.max(a, b)]: NaN if either is NaN, [+0] above [-0]. *)
Definition Math_max (a b : float) : float :=
  if is_nan a || is_nan b then nan
  else if (a <? b)%float then b
  else if is_pos_zero b && is_neg_zero a then b
  else a.

(** [Math.min(a, b)]: NaN if either is NaN, [-0] below [+0]. *)
Definition Math_min (a b : float) : float :=
  if is_nan a || is_nan b then nan
  else if (b <? a)%float then b
  else if is_neg_zero b && is_pos_zero a then b
  else a.

(** [Array.prototype.sort(cmp)] is stable; [cmp a b > 0] moves [b] in
    front of [a], a result that is zero or NaN keeps the input order.
    [gt a b] stands for [cmp a b > 0].  For a comparator that is a
    consistent ordering the sorted permutation that keeps equal elements
    in input order is unique; insertion from the right computes it.  A
    comparator that is NaN on some pairs only (a time stamp that is no
    date) is not consistent, and what the engine returns then is not
    described by [sort]. *)
Section Sort.
Context {A : Type} (gt : A → A → bool).

Fixpoint sort_insert (a : A) (l : list A) : list A :=
  match l with
  | [] => [a]
  | b :: l' => if gt a b then b :: sort_insert a l' else a :: b :: l'
  end.

Definition sort (l : list A) : list A := foldr sort_insert [] l.

End Sort.

(** [Array.prototype.slice(0, n)]. *)
Definition slice0 {A : Type} (n : nat) (l : list A) : list A := take n l.

(** A string is falsy exactly when it is empty. *)
Definition truthy (s : string) : bool := negb (String.eqb s "").

(** [a || b] on strings. *)
Definition or_else (a b : string) : string := if truthy a then a else b.

(** [String.prototype.slice(0, n)]. *)
Definition str_slice0 (n : nat) (s : string) : string := String.substring 0 n s.

(** White space and line terminators among the first 256 code units:
    tab, line feed, vertical tab, form feed, carriage return, space and
    the no-break space. *)
Definition is_space (c : ascii) : bool :=
  let n := nat_of_ascii c in
  ((9 <=? n)%nat && (n <=? 13)%nat) || (n =? 32)%nat || (n =? 160)%nat.

Fixpoint drop_space (l : list ascii) : list ascii :=
  match l with
  | c :: l' => if is_space c then drop_space l' else l
  | [] => []
  end.

(** [String.prototype.trim]. *)
Definition trim (s : string) : string :=
  String.string_of_list_ascii
    (rev (drop_space (rev (drop_space (String.list_ascii_of_string s))))).

(** The decimal digits of a non-negative integer, as a template literal
    prints it. *)
Definition string_of_N (n : N) : string := NilEmpty.string_of_uint (N.to_uint n).

Definition is_digit (c : ascii) : bool :=
  let n := nat_of_ascii c in (48 <=? n)%nat && (n <=? 57)%nat.

(** [parseInt(ds, 10)] on a string of decimal digits. *)
Definition parseInt10 (ds : string) : Z :=
  match NilEmpty.uint_of_string ds with
  | Some d => Z.of_N (N.of_uint d)
  | None => 0
  end.

(** An integer index ("array index") key: the canonical decimal string
    of an integer below [2^32 - 1].  [Object.keys] and [Object.entries]
    enumerate such keys first, in ascending numeric order, and the other
    keys after them in insertion order. *)
Definition array_index (k : string) : option N :=
  match NilEmpty.uint_of_string k with
  | Some d =>
      let n := N.of_uint d in
      if String.eqb (string_of_N n) k && (n <? 4294967295)%N then Some n else None
  | None => None
  end.

Definition is_index {V : Type} (kv : string * V) : bool :=
  match array_index kv.1 with Some _ => true | None => false end.

Definition index_gt {V : Type} (a b : string * V) : bool :=
  match array_index a.1, array_index b.1 with
  | Some i, Some j => (j <? i)%N
  | _, _ => false
  end.

(** [Object.entries(o)] for an object whose properties were created in
    the order of the list [o]. *)
Definition Object_entries {V : Type} (o : list (string * V)) : list (string * V) :=
  sort index_gt (filter (fun kv => is_index kv = true) o)
  ++ filter (fun kv => is_index kv = false) o.

End Js.

(** ** Data model (the type declarations of the page component) *)

Module Line.
Record t := mk {
  line_id : string;
  transcription : string;
  bbox : float * float * float * float
}.
End Line.

Module LineWithUid.
Record t := mk {
  line : Line.t;
  uid : string
}.
Definition bbox (l : t) := Line.bbox (line l).
Definition transcription (l : t) := Line.transcription (line l).
End LineWithUid.

Module Paragraph.
Record t := mk { lines : list Line.t }.
End Paragraph.

Module PageObj.
Record t := mk {
  width : float;
  height : float;
  paragraphs : list Paragraph.t
}.
End PageObj.

(** An entry of [hitBoxes]. *)
Module HitBox.
Record t := mk {
  uid : string;
  x : float;
  y : float;
  w : float;
  h : float;
  area : float
}.
End HitBox.

(** An entry of [boxByUidRef.current], also the type of [activeBox]. *)
Module Box.
Record t := mk { x : float; y : float; w : float; h : float }.
End Box.

(** [`${pIdx}-${lIdx}`] *)
Definition uid_of (pIdx lIdx : nat) : string :=
  Js.string_of_N (N.of_nat pIdx) +:+ "-" +:+ Js.string_of_N (N.of_nat lIdx).

(** [getAllLinesForPage]: the lines of every paragraph, in order, each
    with the identifier built from its paragraph and line index. *)
Definition getAllLinesForPage (p : PageObj.t) : list LineWithUid.t :=
  concat
    (imap (fun pIdx par =>
             imap (fun lIdx l => LineWithUid.mk l (uid_of pIdx lIdx))
                  (Paragraph.lines par))
          (PageObj.paragraphs p)).

(** [DocJson]: the pages of the document by page key, in the order in
    which [Object.keys] enumerates the keys; keys are distinct. *)
Definition DocJson : Type := list (string * PageObj.t).

Fixpoint doc_get (doc : DocJson) (pageKey : string) : option PageObj.t :=
  match doc with
  | (k, p) :: doc' => if String.eqb k pageKey then Some p else doc_get doc' pageKey
  | [] => None
  end.

Definition Object_keys (doc : DocJson) : list string := map fst doc.

(** ** Page keys *)

(** The longest run of digits at the front of a list of characters and
    what follows it. *)
Fixpoint span_digits (l : list ascii) : list ascii * list ascii :=
  match l with
  | c :: l' =>
      if Js.is_digit c
      then let '(ds, r) := span_digits l' in (c :: ds, r)
      else ([], l)
  | [] => ([], [])
  end.

(** [pageKey.match(/_page_(\d+)$/)]: the captured digits.  The key is
    read from its end: the digits, then [_page_] backwards. *)
Definition match_page_suffix (pageKey : string) : option string :=
  let '(ds, rest) := span_digits (rev (String.list_ascii_of_string pageKey)) in
  match ds, rest with
  | _ :: _, "_" :: "e" :: "g" :: "a" :: "p" :: "_" :: _ =>
      Some (String.string_of_list_ascii (rev ds))
  | _, _ => None
  end%char.

(** [pageKeyToNumber] (the same function in the viewer and in the
    ingestion script).  [parseInt] returns a binary64 number, which is
    the integer written by the digits when that is at most [2^53]; the
    embedding keeps the integer, and is the program for page numbers in
    that range. *)
Definition pageKeyToNumber (pageKey : string) : option Z :=
  match match_page_suffix pageKey with
  | Some ds => Some (Js.parseInt10 ds)
  | None => None
  end.

(** [(pageKeyToNumber(a) ?? 0) - (pageKeyToNumber(b) ?? 0) > 0] *)
Definition page_gt (a b : string) : bool :=
  0 <? default 0 (pageKeyToNumber a) - default 0 (pageKeyToNumber b).

(** [`pdf_only_page_${n}`] *)
Definition pdf_only_page (n : Z) : string :=
  "pdf_only_page_" +:+ Js.string_of_N (Z.to_N n).

(** [docKeyByNum]: the document key of each page number, the last key
    enumerated winning. *)
Definition docKeyByNum (doc : DocJson) : gmap Z string :=
  foldl (fun m k =>
           match pageKeyToNumber k with
           | Some n => <[n := k]> m
           | None => m
           end)
        ∅ (Object_keys doc).

(** [pageKeys] of the viewer.  [pdf] is [numPages] of the loaded PDF. *)
Definition pageKeys (doc : option DocJson) (pdf : option Z) : list string :=
  match doc with
  | None => []
  | Some doc =>
      match pdf with
      | Some numPages =>
          if numPages =? 0
          then Js.sort page_gt (Object_keys doc)
          else map (fun n => default (pdf_only_page n) (docKeyByNum doc !! n))
                   (seqZ 1 numPages)
      | None => Js.sort page_gt (Object_keys doc)
      end
  end.

(** [pageKeys] of the ingestion script. *)
Definition ingest_pageKeys (docJson : DocJson) : list string :=
  Js.sort page_gt (Object_keys docJson).

(** ** Geometry normalisation (the loop of the page-render effect) *)

Module Geometry.

(** The thresholds of the size filters; a decimal literal is read as
    the nearest binary64 number. *)
Definition t_0_20 : float := 0.20%float.
Definition t_0_25 : float := 0.25%float.
Definition t_0_98 : float := 0.98%float.
Definition t_0_50 : float := 0.50%float.
Definition t_0_95 : float := 0.95%float.
Definition t_0_999 : float := 0.999%float.
Definition t_0_08 : float := 0.08%float.

(** [Math.min(1, Math.max(0, v))] *)
Definition clamp01 (v : float) : float := Js.Math_min 1 (Js.Math_max 0 v).

(** The guards against bad data: all six numbers finite, both page
    dimensions positive. *)
Definition all_finite (pageW pageH : float) (bb : float * float * float * float) : bool :=
  let '(x1p, y1p, x2p, y2p) := bb in
  forallb Js.Number_isFinite [x1p; y1p; x2p; y2p; pageW; pageH].

Definition bad_page_size (pageW pageH : float) : bool :=
  (pageW <=? 0)%float || (pageH <=? 0)%float.

(** Division by the page size, clamping, ordering of the corners,
    width, height and area: what the loop body computes for a line
    before it looks at the size of the box. *)
Definition normalized (pageW pageH : float) (u : string)
    (bb : float * float * float * float) : HitBox.t :=
  let '(x1p, y1p, x2p, y2p) := bb in
  let x1n := clamp01 (x1p / pageW)%float in
  let x2n := clamp01 (x2p / pageW)%float in
  let y1n := clamp01 (y1p / pageH)%float in
  let y2n := clamp01 (y2p / pageH)%float in
  let '(x1n, x2n) := if (x2n <? x1n)%float then (x2n, x1n) else (x1n, x2n) in
  let '(y1n, y2n) := if (y2n <? y1n)%float then (y2n, y1n) else (y1n, y2n) in
  let w := Js.Math_max 0 (x2n - x1n)%float in
  let h := Js.Math_max 0 (y2n - y1n)%float in
  HitBox.mk u x1n y1n w h (w * h)%float.

(** [w <= 0 || h <= 0]: the box is degenerate. *)
Definition degenerate (b : HitBox.t) : bool :=
  (HitBox.w b <=? 0)%float || (HitBox.h b <=? 0)%float.

(** The size filters, in the order of the program. *)
Definition too_tall (b : HitBox.t) : bool := (t_0_20 <? HitBox.h b)%float.
Definition too_large (b : HitBox.t) : bool := (t_0_25 <? HitBox.area b)%float.
Definition wide_and_tall (b : HitBox.t) : bool :=
  (t_0_98 <? HitBox.w b)%float && (t_0_50 <? HitBox.h b)%float.
Definition page_sized (b : HitBox.t) : bool :=
  (t_0_95 <? HitBox.w b)%float && (t_0_95 <? HitBox.h b)%float.
Definition full_extent (b : HitBox.t) : bool :=
  (t_0_999 <? HitBox.w b)%float || (t_0_999 <? HitBox.h b)%float.

(** The warning of development builds for a box that is kept. *)
Definition large_bbox (b : HitBox.t) : bool :=
  (t_0_08 <? HitBox.h b)%float || (t_0_08 <? HitBox.area b)%float.

(** What the loop body decides for one line: the line is skipped by one
    of the [continue] statements, or its box is kept. *)
Inductive verdict :=
  | Skip_not_finite
  | Skip_page_size
  | Skip_degenerate
  | Skip_too_tall
  | Skip_too_large
  | Skip_wide_and_tall
  | Skip_page_sized
  | Skip_full_extent
  | Keep (b : HitBox.t).

Definition classify (pageW pageH : float) (l : LineWithUid.t) : verdict :=
  if negb (all_finite pageW pageH (LineWithUid.bbox l)) then Skip_not_finite
  else if bad_page_size pageW pageH then Skip_page_size
  else
    let b := normalized pageW pageH (LineWithUid.uid l) (LineWithUid.bbox l) in
    if degenerate b then Skip_degenerate
    else if too_tall b then Skip_too_tall
    else if too_large b then Skip_too_large
    else if wide_and_tall b then Skip_wide_and_tall
    else if page_sized b then Skip_page_sized
    else if full_extent b then Skip_full_extent
    else Keep b.

End Geometry.

(** ** The page-render effect *)

Module Render.

(** A message on the console. *)
Inductive message :=
  | Large_bbox (uid : string) (bbox : float * float * float * float)
               (w h area : float).

(** What the loop over the lines builds: [boxByUidRef.current],
    [nextHitBoxes] and the console. *)
Record acc := mk_acc {
  boxByUid : gmap string Box.t;
  nextHitBoxes : list HitBox.t;
  console : list message
}.

(** One turn of [for (const l of lines)].  [production] is
    [process.env.NODE_ENV === "production"]. *)
Definition loop_body (production : bool) (pageObj : PageObj.t)
    (a : acc) (l : LineWithUid.t) : acc :=
  match Geometry.classify (PageObj.width pageObj) (PageObj.height pageObj) l with
  | Geometry.Keep b =>
      let warned :=
        if negb production && Geometry.large_bbox b
        then console a ++
             [Large_bbox (LineWithUid.uid l) (LineWithUid.bbox l)
                         (HitBox.w b) (HitBox.h b) (HitBox.area b)]
        else console a in
      mk_acc (<[LineWithUid.uid l :=
                  Box.mk (HitBox.x b) (HitBox.y b) (HitBox.w b) (HitBox.h b)]>
                (boxByUid a))
             (nextHitBoxes a ++ [b])
             warned
  | _ => a
  end.

Definition loop (production : bool) (pageObj : PageObj.t) : acc :=
  foldl (loop_body production pageObj) (mk_acc ∅ [] [])
        (getAllLinesForPage pageObj).

(** [(a, b) => a.area - b.area], positive. *)
Definition area_gt (a b : HitBox.t) : bool :=
  (0 <? HitBox.area a - HitBox.area b)%float.

(** The value given to [setHitBoxes] for a page with transcription. *)
Definition hitBoxes_of (production : bool) (pageObj : PageObj.t) : list HitBox.t :=
  Js.sort area_gt (nextHitBoxes (loop production pageObj)).

(** How the raster of the page ended. *)
Inductive raster := Raster_done | Raster_cancelled | Raster_failed (msg : string).

(** How the effect ended: it did not run (the document, the PDF or the
    page key is missing), an error was thrown to [catch] (logged and
    shown to the user), the render was superseded and dropped, or the
    page has its new index. *)
Inductive outcome :=
  | Not_run
  | Fatal (msg : string)
  | Stale
  | Indexed (hitBoxes : list HitBox.t) (boxes : gmap string Box.t)
            (log : list message).

(** The effect of [doc], [pdf], [pageKey], [zoom] and the viewport
    width.  [pdf] is [numPages] of the loaded PDF; [r] is how the raster
    of the page ended, a cancelled raster standing for every way in which
    the render was superseded. *)
Definition effect (production : bool) (doc : option DocJson) (pdf : option Z)
    (pageKey : string) (r : raster) : outcome :=
  match doc, pdf with
  | Some doc, Some numPages =>
      if String.eqb pageKey "" then Not_run
      else
        match pageKeyToNumber pageKey with
        | None => Fatal ("Bad page key: " +:+ pageKey)
        | Some n =>
            if n =? 0 then Fatal ("Bad page key: " +:+ pageKey)
            else if (n <? 1) || (numPages <? n)
            then Fatal ("Page " +:+ Js.string_of_N (Z.to_N n)
                        +:+ " out of range (PDF has "
                        +:+ Js.string_of_N (Z.to_N numPages) +:+ ")")
            else
              match r with
              | Raster_failed msg => Fatal msg
              | Raster_cancelled => Stale
              | Raster_done =>
                  match doc_get doc pageKey with
                  | None => Indexed [] ∅ []
                  | Some pageObj =>
                      let a := loop production pageObj in
                      Indexed (Js.sort area_gt (nextHitBoxes a)) (boxByUid a) (console a)
                  end
              end
        end
  | _, _ => Not_run
  end.

(** The lines shown in the transcript pane for the page. *)
Definition transcript (doc : DocJson) (pageKey : string) : list LineWithUid.t :=
  match doc_get doc pageKey with
  | Some pageObj => if String.eqb pageKey "" then [] else getAllLinesForPage pageObj
  | None => []
  end.

End Render.

(** ** Hit-testing and the highlight state *)

Module Highlight.

(** [u >= b.x && u <= b.x + b.w && v >= b.y && v <= b.y + b.h] *)
Definition contains (b : HitBox.t) (u v : float) : bool :=
  (HitBox.x b <=? u)%float && (u <=? HitBox.x b + HitBox.w b)%float
  && (HitBox.y b <=? v)%float && (v <=? HitBox.y b + HitBox.h b)%float.

(** [pickBoxAt]: the first box of [hitBoxes] that contains the point. *)
Fixpoint pickBoxAt (hitBoxes : list HitBox.t) (u v : float) : option HitBox.t :=
  match hitBoxes with
  | b :: rest => if contains b u v then Some b else pickBoxAt rest u v
  | [] => None
  end.

(** ["left"] is the rendered page, ["right"] the transcript pane. *)
Inductive source := Src_left | Src_right.

#[global] Instance source_eq_dec : EqDecision source.
Proof. solve_decision. Defined.

(** A mouse event on the hit layer: the pointer position and the
    bounding rectangle of the layer at that moment. *)
Record mouse := mk_mouse {
  clientX : float;
  clientY : float;
  r_left : float;
  r_top : float;
  r_width : float;
  r_height : float
}.

(** What the callback given to [requestAnimationFrame] closes over: the
    index that [pickBoxAt] scans and the active line and source of the
    render in which the callback was created. *)
Record seen := mk_seen {
  seen_hitBoxes : list HitBox.t;
  seen_activeId : option string;
  seen_activeSource : option source
}.

(** The state and the refs of the component that the handlers of the
    two panes read and write.  [hoverRaf] is the pending animation-frame
    callback, if any. *)
Record state := mk_state {
  doc : option DocJson;
  pageKey : string;
  hitBoxes : list HitBox.t;
  boxByUid : gmap string Box.t;
  activeSource : option source;
  activeId : option string;
  activeBox : option Box.t;
  collapseSuggestions : bool;
  collapsedUid : gmap string bool;
  openSuggestUid : option string;
  isDragging : bool;
  hoverRaf : option seen;
  hoverPt : option (float * float)
}.

(** [!doc || !pageKey || !doc[pageKey]] *)
Definition no_transcription (st : state) : bool :=
  match doc st with
  | None => true
  | Some d =>
      String.eqb (pageKey st) ""
      || match doc_get d (pageKey st) with None => true | Some _ => false end
  end.

Definition bad_rect (e : mouse) : bool :=
  (r_width e <=? 0)%float || (r_height e <=? 0)%float.

(** The pointer in the coordinates of the layer. *)
Definition point_of (e : mouse) : float * float :=
  ((clientX e - r_left e) / r_width e, (clientY e - r_top e) / r_height e)%float.

Definition set_active (st : state) (uid : string) : state :=
  mk_state (doc st) (pageKey st) (hitBoxes st) (boxByUid st)
    (Some Src_left) (Some uid) (boxByUid st !! uid)
    (collapseSuggestions st) (collapsedUid st) (openSuggestUid st)
    (isDragging st) (hoverRaf st) (hoverPt st).

(** The update of [collapsedUid] by a click that picked [uid]. *)
Definition toggle (wasSame : bool) (uid : string) (prev : gmap string bool)
    : gmap string bool :=
  let cur := default false (prev !! uid) in
  if negb wasSame then <[uid := false]> prev
  else <[uid := if cur then false else true]> prev.

(** [onHitSvgClick] *)
Definition onHitSvgClick (st : state) (e : mouse) : state :=
  if isDragging st then st
  else if no_transcription st then st
  else if bad_rect e then st
  else
    let '(u, v) := point_of e in
    let uu := Geometry.clamp01 u in
    let vv := Geometry.clamp01 v in
    match pickBoxAt (hitBoxes st) uu vv with
    | None => st
    | Some picked =>
        let uid := HitBox.uid picked in
        let wasSame := bool_decide (activeId st = Some uid) in
        mk_state (doc st) (pageKey st) (hitBoxes st) (boxByUid st)
          (Some Src_left) (Some uid) (boxByUid st !! uid)
          false (toggle wasSame uid (collapsedUid st)) None
          (isDragging st) (hoverRaf st) (hoverPt st)
    end.

(** [onHitSvgMouseMove]: the point is stored and, unless one is pending,
    a callback is requested for the next animation frame. *)
Definition onHitSvgMouseMove (st : state) (e : mouse) : state :=
  if bad_rect e then st
  else
    mk_state (doc st) (pageKey st) (hitBoxes st) (boxByUid st)
      (activeSource st) (activeId st) (activeBox st)
      (collapseSuggestions st) (collapsedUid st) (openSuggestUid st)
      (isDragging st)
      (match hoverRaf st with
       | Some c => Some c
       | None => Some (mk_seen (hitBoxes st) (activeId st) (activeSource st))
       end)
      (Some (point_of e)).

(** The callback of [requestAnimationFrame]: it reads the refs as they
    are when it runs, and the index and the active line as [c] has them. *)
Definition hover_frame (c : seen) (st : state) : state :=
  let st0 :=
    mk_state (doc st) (pageKey st) (hitBoxes st) (boxByUid st)
      (activeSource st) (activeId st) (activeBox st)
      (collapseSuggestions st) (collapsedUid st) (openSuggestUid st)
      (isDragging st) None (hoverPt st) in
  match hoverPt st with
  | None => st0
  | Some (px, py) =>
      let uu := Geometry.clamp01 px in
      let vv := Geometry.clamp01 py in
      match pickBoxAt (seen_hitBoxes c) uu vv with
      | None => st0
      | Some picked =>
          if bool_decide (seen_activeId c = Some (HitBox.uid picked))
             && bool_decide (seen_activeSource c = Some Src_left)
          then st0
          else set_active st0 (HitBox.uid picked)
      end
  end.

(** [onHitSvgMouseLeave]: a pending callback is cancelled. *)
Definition onHitSvgMouseLeave (st : state) : state :=
  mk_state (doc st) (pageKey st) (hitBoxes st) (boxByUid st)
    None None None
    (collapseSuggestions st) (collapsedUid st) (openSuggestUid st)
    (isDragging st) None None.

(** The handlers of a line of the transcript pane: [onMouseEnter] and
    [onClick] do the same, [onMouseLeave] clears the highlight. *)
Definition onLineEnter (st : state) (uid : string) : state :=
  mk_state (doc st) (pageKey st) (hitBoxes st) (boxByUid st)
    (Some Src_right) (Some uid) (boxByUid st !! uid)
    (collapseSuggestions st) (collapsedUid st) (openSuggestUid st)
    (isDragging st) (hoverRaf st) (hoverPt st).

Definition onLineLeave (st : state) : state :=
  mk_state (doc st) (pageKey st) (hitBoxes st) (boxByUid st)
    None None None
    (collapseSuggestions st) (collapsedUid st) (openSuggestUid st)
    (isDragging st) (hoverRaf st) (hoverPt st).

(** The pointer events of the rendered page.  [Frame] is the browser
    running the requested callback; it runs only if one is pending. *)
Inductive page_event :=
  | Move (e : mouse)
  | Frame
  | Leave
  | Click (e : mouse).

Definition step (st : state) (ev : page_event) : state :=
  match ev with
  | Move e => onHitSvgMouseMove st e
  | Frame => match hoverRaf st with Some c => hover_frame c st | None => st end
  | Leave => onHitSvgMouseLeave st
  | Click e => onHitSvgClick st e
  end.

(** The highlight: the active line, the pane it came from and the box
    drawn on the page. *)
Definition highlight (st : state) : option string * option source * option Box.t :=
  (activeId st, activeSource st, activeBox st).

End Highlight.

(** ** Suggestions *)

Module SuggestionRow.
Record t := mk {
  id : string;
  document_id : string;
  page_key : string;
  uid : string;
  suggested_text : string;
  comment : option string;
  user_id : string;
  created_at : string;
  vote_count : option Z;
  author_username : option string
}.
End SuggestionRow.

Module Suggestions.

Inductive sort_mode := Top | Newest.

Section Ranking.

(** [new Date(s).getTime()], in milliseconds; [None] is the NaN of a
    string that is no date. *)
Variable getTime : string → option Z.

(** [new Date(b.created_at).getTime() - new Date(a.created_at).getTime()]
    is positive. *)
Definition newest_gt (a b : SuggestionRow.t) : bool :=
  match getTime (SuggestionRow.created_at b), getTime (SuggestionRow.created_at a) with
  | Some tb, Some ta => 0 <? tb - ta
  | _, _ => false
  end.

(** The comparator of the ["top"] order is positive. *)
Definition top_gt (a b : SuggestionRow.t) : bool :=
  let va := default 0 (SuggestionRow.vote_count a) in
  let vb := default 0 (SuggestionRow.vote_count b) in
  if negb (vb =? va) then 0 <? vb - va else newest_gt a b.

(** [getSortedSuggestions] *)
Definition getSortedSuggestions
    (suggestionsByUid : gmap string (list SuggestionRow.t))
    (sortModeByUid : gmap string sort_mode) (uid : string)
    : list SuggestionRow.t :=
  let arr := default [] (suggestionsByUid !! uid) in
  let mode := default Top (sortModeByUid !! uid) in
  match mode with
  | Newest => Js.sort newest_gt arr
  | Top => Js.sort top_gt arr
  end.

End Ranking.

End Suggestions.

(** ** Leaderboard *)

Module Leaderboard.

(** The suggestion joined to a vote: [user_id] and [author_username]. *)
Record suggestion_ref := mk_ref {
  ref_user_id : option string;
  ref_author_username : option string
}.

(** A row of [suggestion_votes]. *)
Record vote_row := mk_vote {
  vote : option Z;
  suggestion : option suggestion_ref
}.

(** A row of [profiles]. *)
Record profile := mk_profile {
  profile_id : option string;
  profile_username : option string
}.

Record total := mk_total { t_upvotes : Z; t_username : string }.

Record row := mk_row { user_id : string; upvotes : Z; username : string }.

(** [String(sug?.user_id ?? "")] *)
Definition author_of (r : vote_row) : string :=
  match suggestion r with
  | Some sug => default "" (ref_user_id sug)
  | None => ""
  end.

(** [String(sug?.author_username ?? "").trim()] *)
Definition snapshot_of (r : vote_row) : string :=
  Js.trim (match suggestion r with
           | Some sug => default "" (ref_author_username sug)
           | None => ""
           end).

(** [totals[uid]], and the object after [totals[uid] = t]: a new key is
    created last, an old one keeps its place. *)
Fixpoint totals_get (totals : list (string * total)) (uid : string) : option total :=
  match totals with
  | (k, t) :: rest => if String.eqb k uid then Some t else totals_get rest uid
  | [] => None
  end.

Fixpoint totals_set (totals : list (string * total)) (uid : string) (t : total)
    : list (string * total) :=
  match totals with
  | (k, t0) :: rest =>
      if String.eqb k uid then (k, t) :: rest else (k, t0) :: totals_set rest uid t
  | [] => [(uid, t)]
  end.

(** One turn of [for (const row of data)]. *)
Definition count_row (totals : list (string * total)) (r : vote_row)
    : list (string * total) :=
  if negb (default 0 (vote r) =? 1) then totals
  else
    let uid := author_of r in
    if negb (Js.truthy uid) then totals
    else
      let snap := snapshot_of r in
      let t0 := default (mk_total 0 snap) (totals_get totals uid) in
      let t1 := mk_total (t_upvotes t0 + 1) (t_username t0) in
      let t2 :=
        if negb (Js.truthy (t_username t1)) && Js.truthy snap
        then mk_total (t_upvotes t1) snap
        else t1 in
      totals_set totals uid t2.

Definition totals_of (data : list vote_row) : list (string * total) :=
  foldl count_row [] data.

(** [(a, b) => b.upvotes - a.upvotes], positive. *)
Definition upvotes_gt (a b : row) : bool := 0 <? upvotes b - upvotes a.

(** The ten rows kept, before the names are looked up. *)
Definition top_rows (data : list vote_row) : list row :=
  Js.slice0 10
    (Js.sort upvotes_gt
       (map (fun kv => mk_row kv.1 (t_upvotes kv.2) (Js.or_else (t_username kv.2) ""))
            (Js.Object_entries (totals_of data)))).

(** [byId]: the trimmed user name of each profile that has an id and a
    name, the last profile of an id winning. *)
Definition byId_of (profs : list profile) : gmap string string :=
  foldl (fun m p =>
           let id := default "" (profile_id p) in
           let uname := Js.trim (default "" (profile_username p)) in
           if Js.truthy id && Js.truthy uname then <[id := uname]> m else m)
        ∅ profs.

(** [`user:${r.user_id.slice(0, 8)}`] *)
Definition fallback_name (user_id : string) : string :=
  "user:" +:+ Js.str_slice0 8 user_id.

Definition enrich (byId : gmap string string) (r : row) : row :=
  mk_row (user_id r) (upvotes r)
    (Js.or_else (Js.or_else (default "" (byId !! user_id r)) (username r))
                (fallback_name (user_id r))).

Definition finish (r : row) : row :=
  mk_row (user_id r) (upvotes r) (Js.or_else (username r) (fallback_name (user_id r))).

(** [loadLeaderboard]: the rows given to [setLeaderboardRows].  [votes]
    is the answer of the query of the votes ([None]: an error),
    [profiles] the answer of the query of the profiles of the given ids
    ([None]: an error or no data). *)
Definition loadLeaderboard (votes : option (list vote_row))
    (profiles : list string → option (list profile)) : list row :=
  match votes with
  | None => []
  | Some data =>
      let arr := top_rows data in
      let ids := map user_id arr in
      let arr :=
        match ids with
        | [] => arr
        | _ :: _ =>
            match profiles ids with
            | Some profs => map (enrich (byId_of profs)) arr
            | None => arr
            end
        end in
      map finish arr
  end.

End Leaderboard.

(** ** Notions used in the proofs *)

(** *** Binary64 numbers as [SpecFloat] describes them *)

(** The record that [k] right shifts of the mantissa [m] leave. *)
Definition shr_spec (m : Z) (k : nat) : shr_record :=
  {| shr_m := m / 2 ^ Z.of_nat k;
     shr_r := Z.odd (m / 2 ^ (Z.of_nat k - 1));
     shr_s := negb (m mod 2 ^ (Z.of_nat k - 1) =? 0) |}.

(** The integer that rounding to nearest even keeps of [M] when [n > 0]
    low bits are dropped. *)
Definition rne (M n : Z) : Z :=
  round_nearest_even (M / 2 ^ n)
    (loc_of_shr_record
       {| shr_m := M / 2 ^ n;
          shr_r := Z.odd (M / 2 ^ (n - 1));
          shr_s := negb (M mod 2 ^ (n - 1) =? 0) |}).

(** The value of a finite number in units of the smallest positive
    binary64 number, [2^-1074]. *)
Definition sval (x : spec_float) : Z :=
  match x with
  | S754_finite _ m e => Zpos m * 2 ^ (e + 1074)
  | _ => 0
  end.

(** Numbers of sign [s]: everything but NaN. *)
Definition has_sign (s : bool) (x : spec_float) : Prop :=
  match x with
  | S754_zero s' | S754_infinity s' | S754_finite s' _ _ => s' = s
  | S754_nan => False
  end.

(** The number one. *)
Definition sf_one : spec_float := S754_finite false 4503599627370496 (-52).

(** The numbers from [+0] to [1]. *)
Definition in_unit (x : spec_float) : Prop :=
  x = S754_zero false
  \/ exists m e, x = S754_finite false m e /\ bounded 53 1024 m e = true
       /\ sval x <= 2 ^ 1074.

(** A key that orders the non-negative numbers: the value, and a number
    above every finite value for the infinity. *)
Definition rank (x : spec_float) : Z :=
  match x with
  | S754_infinity _ => 2 ^ 2100
  | _ => sval x
  end.

(** *** Hit-testing *)

(** The boxes are in ascending order of area: no box has a larger area
    than a box that follows it. *)
Fixpoint sorted_by_area (l : list HitBox.t) : bool :=
  match l with
  | [] => true
  | a :: l' =>
      forallb (fun b => (HitBox.area a <=? HitBox.area b)%float) l'
      && sorted_by_area l'
  end.

(** The rectangle of a box contains a point, as the specification words
    it, both bounds included: [b.x <= u <= b.x+b.w] and
    [b.y <= v <= b.y+b.h]. *)
Definition in_rectangle (b : HitBox.t) (u v : float) : Prop :=
  ((HitBox.x b <=? u)%float = true ∧ (u <=? HitBox.x b + HitBox.w b)%float = true)
  ∧ ((HitBox.y b <=? v)%float = true ∧ (v <=? HitBox.y b + HitBox.h b)%float = true).

(** *** The index *)

(** The box that the loop keeps for a line, if it keeps one. *)
Definition kept_box (pageObj : PageObj.t) (l : LineWithUid.t) : option HitBox.t :=
  match Geometry.classify (PageObj.width pageObj) (PageObj.height pageObj) l with
  | Geometry.Keep b => Some b
  | _ => None
  end.

(** The warning that the loop prints for a line, if it prints one. *)
Definition warning_of (production : bool) (pageObj : PageObj.t) (l : LineWithUid.t)
    : option Render.message :=
  match Geometry.classify (PageObj.width pageObj) (PageObj.height pageObj) l with
  | Geometry.Keep b =>
      if negb production && Geometry.large_bbox b
      then Some (Render.Large_bbox (LineWithUid.uid l) (LineWithUid.bbox l)
                   (HitBox.w b) (HitBox.h b) (HitBox.area b))
      else None
  | _ => None
  end.

(** *** The rejection conditions as the specification lists them *)

(** [h > 0.20], or [area > 0.25], or ([w > 0.98] and [h > 0.50]), or
    ([w > 0.95] and [h > 0.95]), or [w > 0.999], or [h > 0.999]. *)
Definition spec_rejected (b : HitBox.t) : bool :=
  (0.20 <? HitBox.h b)%float
  || (0.25 <? HitBox.area b)%float
  || ((0.98 <? HitBox.w b)%float && (0.50 <? HitBox.h b)%float)
  || ((0.95 <? HitBox.w b)%float && (0.95 <? HitBox.h b)%float)
  || (0.999 <? HitBox.w b)%float
  || (0.999 <? HitBox.h b)%float.

(** *** Pages used as examples *)

Module Example.

Definition line (bb : float * float * float * float) : Line.t :=
  Line.mk "" "text" bb.

(** A page of 1000 by 2000 pixels with three lines: a thin line, a box
    as large as the page, and a line that overlaps the first. *)
Definition page : PageObj.t :=
  PageObj.mk 1000 2000
    [Paragraph.mk [line (100, 50, 300, 90)%float;
                   line (0, 0, 999, 1999)%float;
                   line (50, 40, 400, 140)%float]].

Definition thin : LineWithUid.t := LineWithUid.mk (line (100, 50, 300, 90)%float) "0-0".
Definition huge : LineWithUid.t := LineWithUid.mk (line (0, 0, 999, 1999)%float) "0-1".

Definition doc : DocJson := [("doc_page_1", page)].

End Example.

(** *** Diagnostics *)

(** The line that a console message is about. *)
Definition message_uid (m : Render.message) : string :=
  match m with Render.Large_bbox uid _ _ _ _ => uid end.

(** C4 as the specification states it: every line that the loop rejects
    has a message on the console. *)
Definition every_rejection_logged : Prop :=
  ∀ (production : bool) (pageObj : PageObj.t) (l : LineWithUid.t),
    l ∈ getAllLinesForPage pageObj →
    kept_box pageObj l = None →
    ∃ m, m ∈ Render.console (Render.loop production pageObj)
         ∧ message_uid m = LineWithUid.uid l.

(** *** Suggestions *)

(** The vote count and the creation time that the comparators read. *)
Definition votes (s : SuggestionRow.t) : Z := default 0 (SuggestionRow.vote_count s).

Definition time_of (getTime : string → option Z) (s : SuggestionRow.t) : Z :=
  default 0 (getTime (SuggestionRow.created_at s)).

(** The time stamp of the row is a date that [Date] can parse. *)
Definition dated_by (getTime : string → option Z) (s : SuggestionRow.t) : Prop :=
  is_Some (getTime (SuggestionRow.created_at s)).

Module Example_suggestions.

(** What [new Date(s).getTime()] gives for the three time stamps of the
    example, and NaN for the other strings. *)
Definition getTime (s : string) : option Z :=
  if String.eqb s "2024-01-01T10:00:00Z" then Some 1704103200000
  else if String.eqb s "2024-01-01T10:05:00Z" then Some 1704103500000
  else if String.eqb s "2024-01-01T10:10:00Z" then Some 1704103800000
  else None.

Definition suggestion (id : string) (count : Z) (created_at : string) : SuggestionRow.t :=
  SuggestionRow.mk id "doc" "doc_page_2" "2-5" "text" None "author" created_at
    (Some count) None.

Definition A := suggestion "A" 3 "2024-01-01T10:00:00Z".
Definition B := suggestion "B" 3 "2024-01-01T10:05:00Z".
Definition C := suggestion "C" 1 "2024-01-01T10:10:00Z".

End Example_suggestions.

(** *** Clicks *)

(** The box that a click picks, when the handler gets as far as picking
    one. *)
Definition click_target (st : Highlight.state) (e : Highlight.mouse) : option HitBox.t :=
  if Highlight.isDragging st then None
  else if Highlight.no_transcription st then None
  else if Highlight.bad_rect e then None
  else
    Highlight.pickBoxAt (Highlight.hitBoxes st)
      (Geometry.clamp01 (Highlight.point_of e).1)
      (Geometry.clamp01 (Highlight.point_of e).2).

(** [collapsedUid[uid]] read as a flag: a missing entry is "expanded". *)
Definition collapsed (st : Highlight.state) (uid : string) : bool :=
  default false (Highlight.collapsedUid st !! uid).

(** C7 as the specification states it: after a click that picks a box
    the flag of its line is "collapsed" if the line was already active
    and "expanded" otherwise. *)
Definition click_collapses_iff_active : Prop :=
  ∀ (st : Highlight.state) (e : Highlight.mouse) (b : HitBox.t),
    click_target st e = Some b →
    collapsed (Highlight.onHitSvgClick st e) (HitBox.uid b)
    = bool_decide (Highlight.activeId st = Some (HitBox.uid b)).

(** The index that the callback evaluating a move on [st] scans: the one
    of the render that requested the pending callback, and the current
    one when the move requests the callback itself. *)
Definition scanned_index (st : Highlight.state) : list HitBox.t :=
  match Highlight.hoverRaf st with
  | Some c => Highlight.seen_hitBoxes c
  | None => Highlight.hitBoxes st
  end.

Module Example_clicks.

(** The viewer showing the page of the examples, nothing active. *)
Definition idle : Highlight.state :=
  Highlight.mk_state (Some Example.doc) "doc_page_1"
    (Render.hitBoxes_of false Example.page)
    (Render.boxByUid (Render.loop false Example.page))
    None None None false ∅ None false None None.

(** A pointer at [(0.15, 0.03)] of a layer of 1000 by 2000 pixels, and
    one at [(0.9, 0.9)], where the page has no box. *)
Definition inside : Highlight.mouse := Highlight.mk_mouse 150 60 0 0 1000 2000.
Definition outside : Highlight.mouse := Highlight.mk_mouse 900 1800 0 0 1000 2000.

(** The viewer after two clicks at [inside]: line ["0-0"] is active and
    its suggestions are collapsed. *)
Definition collapsed_active : Highlight.state :=
  Highlight.onHitSvgClick (Highlight.onHitSvgClick idle inside) inside.

End Example_clicks.

(** *** Page keys *)

(** The number that the sort of the page keys compares: [0] for a key
    without a page number. *)
Definition page_rank (k : string) : Z := default 0 (pageKeyToNumber k).

(** C8 as the specification states it: in the sorted list of page keys a
    key without a page number comes after every key that has one. *)
Definition unnumbered_sorted_last : Prop :=
  ∀ (doc : DocJson) (i j : nat) (ki kj : string),
    ingest_pageKeys doc !! i = Some ki →
    ingest_pageKeys doc !! j = Some kj →
    pageKeyToNumber ki = None → is_Some (pageKeyToNumber kj) →
    (j < i)%nat.

(** *** Leaderboard *)

(** A vote that the leaderboard counts for [uid]: its value is exactly
    [1] and its suggestion was written by [uid], a non-empty id. *)
Definition counted_for (uid : string) (v : Leaderboard.vote_row) : bool :=
  (default 0 (Leaderboard.vote v) =? 1)
  && Js.truthy (Leaderboard.author_of v)
  && String.eqb (Leaderboard.author_of v) uid.

(** The number of upvotes that the suggestions of [uid] received. *)
Definition upvotes_received (data : list Leaderboard.vote_row) (uid : string) : Z :=
  Z.of_nat (length (filter (λ v, counted_for uid v = true) data)).

(** The first non-empty user name stored on a suggestion of [uid] that
    has a counted vote; the empty string if there is none. *)
Definition first_snapshot (data : list Leaderboard.vote_row) (uid : string) : string :=
  default ""
    (head (filter (λ s, Js.truthy s = true)
             (Leaderboard.snapshot_of <$> filter (λ v, counted_for uid v = true) data))).

(** The user name stored on the suggestion of a vote, read from the
    answer of the store: the column [author_username] of the joined
    suggestion without the white space around it, and the empty string
    when the vote has no suggestion or the column is null. *)
Definition stored_username (v : Leaderboard.vote_row) : string :=
  match Leaderboard.suggestion v with
  | Some sug =>
      match Leaderboard.ref_author_username sug with
      | Some name => Js.trim name
      | None => ""
      end
  | None => ""
  end.

(** The snapshot of the specification for the author [uid]: the first
    stored user name that is not empty among the suggestions of [uid]
    with a counted vote, in the order of the answer; the empty string
    if there is none. *)
Definition snapshot_name (data : list Leaderboard.vote_row) (uid : string) : string :=
  default ""
    (head (filter (λ s, s ≠ "")
             (stored_username <$> filter (λ v, counted_for uid v = true) data))).

(** What the loop over the votes has built after the votes [data]. *)
Definition totals_ok (data : list Leaderboard.vote_row)
    (totals : list (string * Leaderboard.total)) : Prop :=
  NoDup totals.*1
  ∧ (∀ k t, (k, t) ∈ totals →
       Js.truthy k = true
       ∧ 0 < upvotes_received data k
       ∧ Leaderboard.t_upvotes t = upvotes_received data k
       ∧ Leaderboard.t_username t = first_snapshot data k)
  ∧ (∀ k, 0 < upvotes_received data k → k ∈ totals.*1).

Module Example_votes.

Definition upvote (author : string) (name : option string) : Leaderboard.vote_row :=
  Leaderboard.mk_vote (Some 1) (Some (Leaderboard.mk_ref (Some author) name)).

(** Three upvotes for author X, on two suggestions; a vote of value 0
    and a vote without a suggestion; one upvote for author Y. *)
Definition data : list Leaderboard.vote_row :=
  [upvote "X-0123456789" None;
   Leaderboard.mk_vote (Some 0) (Some (Leaderboard.mk_ref (Some "X-0123456789") None));
   upvote "Y-0123456789" (Some " yan ");
   upvote "X-0123456789" (Some "xena");
   Leaderboard.mk_vote (Some 1) None;
   upvote "X-0123456789" None].

(** No profile is found. *)
Definition no_profiles (ids : list string) : option (list Leaderboard.profile) := None.

(** The profile of Y is found. *)
Definition profile_of_Y (ids : list string) : option (list Leaderboard.profile) :=
  Some [Leaderboard.mk_profile (Some "Y-0123456789") (Some "yan_live")].

End Example_votes.

Module Example_names.

(** Four upvotes: one for an author whose profile is found, two for an
    author whose profile has a blank user name and whose first
    suggestion has a blank stored name, one for an author without
    profile and without stored name. *)
Definition data : list Leaderboard.vote_row :=
  [Example_votes.upvote "L-0123456789" (Some "lena_old");
   Example_votes.upvote "S-0123456789" (Some "  ");
   Example_votes.upvote "F-0123456789" None;
   Example_votes.upvote "S-0123456789" (Some " sam ")].

Definition profiles (ids : list string) : option (list Leaderboard.profile) :=
  Some [Leaderboard.mk_profile (Some "L-0123456789") (Some "lena");
        Leaderboard.mk_profile (Some "S-0123456789") (Some " ")].

End Example_names.

(** The rows of the leaderboard before the ten first are taken. *)
Definition ranked_rows (data : list Leaderboard.vote_row) : list Leaderboard.row :=
  Js.sort Leaderboard.upvotes_gt
    (map (fun kv => Leaderboard.mk_row kv.1 (Leaderboard.t_upvotes kv.2)
                      (Js.or_else (Leaderboard.t_username kv.2) ""))
         (Js.Object_entries (Leaderboard.totals_of data))).

(** The user names found in the profiles: none when no row is kept (the
    profiles are not asked for) or when the lookup fails. *)
Definition live_names (data : list Leaderboard.vote_row)
    (profiles : list string → option (list Leaderboard.profile)) : gmap string string :=
  match map Leaderboard.user_id (Leaderboard.top_rows data) with
  | [] => ∅
  | ids => match profiles ids with
           | Some profs => Leaderboard.byId_of profs
           | None => ∅
           end
  end.

(** The precedence of the display name as the specification states it:
    the live profile name, else the stored snapshot if it is not empty,
    else the fallback built from the author id. *)
Definition display_name (live : option string) (snapshot user_id : string) : string :=
  match live with
  | Some name => name
  | None => if Js.truthy snapshot then snapshot else Leaderboard.fallback_name user_id
  end.

(** ** The viewer beyond hit-testing and ranking *)

(** *** The page-render effect on the state *)

(** The entry of [boxByUidRef.current] written with a box of the index:
    [{ x: x1n, y: y1n, w, h }]. *)
Definition box_of (b : HitBox.t) : Box.t :=
  Box.mk (HitBox.x b) (HitBox.y b) (HitBox.w b) (HitBox.h b).

(** The state after the page-render effect ran on it: when the effect
    gets as far as the index it replaces [boxByUidRef.current] and
    [hitBoxes] and clears [activeBox], and on a page without
    transcription it clears [activeId] too; otherwise the state is as it
    was. *)
Definition after_effect (production : bool) (pdf : option Z) (r : Render.raster)
    (st : Highlight.state) : Highlight.state :=
  match Render.effect production (Highlight.doc st) pdf (Highlight.pageKey st) r with
  | Render.Indexed hitBoxes boxes _ =>
      Highlight.mk_state (Highlight.doc st) (Highlight.pageKey st) hitBoxes boxes
        (Highlight.activeSource st)
        (if Highlight.no_transcription st then None else Highlight.activeId st)
        None
        (Highlight.collapseSuggestions st) (Highlight.collapsedUid st)
        (Highlight.openSuggestUid st)
        (Highlight.isDragging st) (Highlight.hoverRaf st) (Highlight.hoverPt st)
  | _ => st
  end.

(** *** A callback that outlives its render *)

(** The page selector: [setPageKey(k)]. *)
Definition set_pageKey (st : Highlight.state) (k : string) : Highlight.state :=
  Highlight.mk_state (Highlight.doc st) k (Highlight.hitBoxes st) (Highlight.boxByUid st)
    (Highlight.activeSource st) (Highlight.activeId st) (Highlight.activeBox st)
    (Highlight.collapseSuggestions st) (Highlight.collapsedUid st)
    (Highlight.openSuggestUid st)
    (Highlight.isDragging st) (Highlight.hoverRaf st) (Highlight.hoverPt st).

(** C10 as the specification states it: a pointer move over the rendered
    page at a point that is in no box of the index leaves the active
    line, its source and the highlight box as they were. *)
Definition miss_keeps_highlight : Prop :=
  ∀ (st : Highlight.state) (e : Highlight.mouse),
    Highlight.bad_rect e = false →
    Highlight.pickBoxAt (Highlight.hitBoxes st)
      (Geometry.clamp01 (Highlight.point_of e).1)
      (Geometry.clamp01 (Highlight.point_of e).2) = None →
    Highlight.highlight
      (Highlight.step (Highlight.step st (Highlight.Move e)) Highlight.Frame)
    = Highlight.highlight st.

(** The pointer events of the two panes: those of the rendered page, and
    the pointer entering, clicking and leaving a line of the transcript
    pane. *)
Inductive pointer_event :=
  | On_page (ev : Highlight.page_event)
  | Line_enter (uid : string)
  | Line_click (uid : string)
  | Line_leave.

Definition pointer_step (st : Highlight.state) (ev : pointer_event) : Highlight.state :=
  match ev with
  | On_page ev => Highlight.step st ev
  | Line_enter uid => Highlight.onLineEnter st uid
  | Line_click uid => Highlight.onLineEnter st uid
  | Line_leave => Highlight.onLineLeave st
  end.

Module Example_stale.

(** The pointer moves over line ["0-0"] of the first page of a PDF of
    two pages; before the animation frame the second page, for which the
    document has no transcription, is selected and rendered. *)
Definition moved : Highlight.state :=
  Highlight.step Example_clicks.idle (Highlight.Move Example_clicks.inside).

Definition rerendered : Highlight.state :=
  after_effect false (Some 2) Render.Raster_done (set_pageKey moved "pdf_only_page_2").

End Example_stale.

(** *** The current page *)

(** The effect of [pageKeys]: when the list is not empty and the current
    key is empty or not in it, the first key of the list becomes the
    current key.  The result is the current key after the effect. *)
Definition select_page (pageKeys : list string) (pageKey : string) : string :=
  match pageKeys with
  | [] => pageKey
  | first :: _ =>
      if negb (Js.truthy pageKey) || negb (bool_decide (pageKey ∈ pageKeys))
      then first else pageKey
  end.

(** [firstValid] of the loading effect: the first key of the document
    that has a page number, else the first key; [None] is the
    [undefined] of a document without keys. *)
Definition firstValid (j : DocJson) : option string :=
  match List.find (λ k, bool_decide (pageKeyToNumber k ≠ None)) (Object_keys j) with
  | Some k => Some k
  | None => head (Object_keys j)
  end.

(** *** Loading the suggestions of a page *)

Module Load.

(** A row of the answer to the query of [loadSuggestionsForPage]:
    the columns of [suggestions] and the embedded count of votes.
    [suggestion_votes] is [None] when it is no array. *)
Record raw := mk_raw {
  id : string;
  document_id : string;
  page_key : string;
  uid : string;
  suggested_text : string;
  comment : option string;
  user_id : string;
  created_at : string;
  author_username : option string;
  suggestion_votes : option (list (option Z))
}.

(** [voteCount]: the count of the first entry of [suggestion_votes],
    zero when there is none. *)
Definition voteCount (row : raw) : Z :=
  match suggestion_votes row with
  | Some (c :: _) => default 0 c
  | _ => 0
  end.

Definition to_row (row : raw) : SuggestionRow.t :=
  SuggestionRow.mk (id row) (document_id row) (page_key row) (uid row)
    (suggested_text row) (comment row) (user_id row) (created_at row)
    (Some (voteCount row)) (author_username row).

(** The names of the properties that the object literal [grouped]
    inherits from [Object.prototype].  Under such a name [grouped[uid]]
    is a function, or the prototype itself, although [grouped] has no
    entry of that name: it is truthy and has no [push]. *)
Definition inherited_names : list string :=
  ["constructor"; "hasOwnProperty"; "isPrototypeOf"; "propertyIsEnumerable";
   "toLocaleString"; "toString"; "valueOf"; "__proto__";
   "__defineGetter__"; "__defineSetter__"; "__lookupGetter__"; "__lookupSetter__"].

Definition inherited (k : string) : bool := existsb (String.eqb k) inherited_names.

(** [grouped] after the row has been pushed on the list of its line. *)
Definition pushed (grouped : gmap string (list SuggestionRow.t)) (row : raw)
    : gmap string (list SuggestionRow.t) :=
  <[uid row := default [] (grouped !! uid row) ++ [to_row row]]> grouped.

(** One turn of [data.forEach]; [None] when the turn throws:
    [grouped[uid].push] is not a function when [uid] names an inherited
    property. *)
Definition push (grouped : gmap string (list SuggestionRow.t)) (row : raw)
    : option (gmap string (list SuggestionRow.t)) :=
  if inherited (uid row) then None else Some (pushed grouped row).

(** [data.forEach], from [grouped]. *)
Fixpoint forEach_push (grouped : gmap string (list SuggestionRow.t)) (data : list raw)
    : option (gmap string (list SuggestionRow.t)) :=
  match data with
  | [] => Some grouped
  | row :: data' =>
      match push grouped row with
      | Some grouped' => forEach_push grouped' data'
      | None => None
      end
  end.

Section Grouped.
Variable getTime : string → option Z.

(** [grouped] after the lists have been sorted; [None] when the loop
    over the rows threw. *)
Definition grouped_of (data : list raw) : option (gmap string (list SuggestionRow.t)) :=
  match forEach_push ∅ data with
  | Some grouped => Some (Js.sort (Suggestions.top_gt getTime) <$> grouped)
  | None => None
  end.

(** [suggestionsByUid] after [loadSuggestionsForPage(docId, pk)], where
    [prev] is what it was and [answer] the answer to the query, [None]
    for an error.  The error of the query and an exception of the loop
    are caught alike, and the table is emptied. *)
Definition loadSuggestionsForPage (docId pk : string) (answer : option (list raw))
    (prev : gmap string (list SuggestionRow.t)) : gmap string (list SuggestionRow.t) :=
  if negb (Js.truthy docId) || negb (Js.truthy pk) then prev
  else
    match answer with
    | Some data => default ∅ (grouped_of data)
    | None => ∅
    end.

End Grouped.

End Load.

(** *** The suggestions shown under a line *)

(** What the transcript pane shows under the line [uid]: [None] when
    the block of suggestions is not rendered (suggestions are hidden, or
    the line has none), else the suggestions listed, the first five of
    the ranking, or none when the block is collapsed. *)
Definition shown_suggestions (getTime : string → option Z)
    (collapseSuggestions : bool) (collapsedUid : gmap string bool)
    (suggestionsByUid : gmap string (list SuggestionRow.t))
    (sortModeByUid : gmap string Suggestions.sort_mode) (uid : string)
    : option (list SuggestionRow.t) :=
  if negb collapseSuggestions
     && negb (bool_decide (length (default [] (suggestionsByUid !! uid)) = 0%nat))
  then Some (if negb (default false (collapsedUid !! uid))
             then Js.slice0 5
                    (Suggestions.getSortedSuggestions getTime suggestionsByUid
                       sortModeByUid uid)
             else [])
  else None.

Module Example_load.

(** An answer to the query of the suggestions of page ["doc_page_2"]:
    the three suggestions of line ["2-5"] of [Example_suggestions], in
    another order, and one for line ["0-0"] without a count of votes. *)
Definition answer (id uid : string) (counts : option (list (option Z)))
    (created_at : string) : Load.raw :=
  Load.mk_raw id "doc" "doc_page_2" uid "text" None "author" created_at None counts.

Definition data : list Load.raw :=
  [answer "C" "2-5" (Some [Some 1]) "2024-01-01T10:10:00Z";
   answer "A" "2-5" (Some [Some 3]) "2024-01-01T10:00:00Z";
   answer "D" "0-0" (Some []) "2024-01-01T10:00:00Z";
   answer "B" "2-5" (Some [Some 3]) "2024-01-01T10:05:00Z"].

Definition loaded : gmap string (list SuggestionRow.t) :=
  Load.loadSuggestionsForPage Example_suggestions.getTime "doc" "doc_page_2"
    (Some data) ∅.

(** The same answer with one more row, whose line identifier is
    ["constructor"]. *)
Definition data_inherited : list Load.raw :=
  data ++ [answer "E" "constructor" (Some [Some 2]) "2024-01-01T10:00:00Z"].

End Example_load.

(** *** Submitting a suggestion *)

Module Submit.

(** [s.replace(/\s+/g, " ")] on the characters of [s]: every run of
    white space becomes one space.  [in_run] tells that the character
    before was white space. *)
Fixpoint replace_runs (in_run : bool) (l : list ascii) : list ascii :=
  match l with
  | c :: l' =>
      if Js.is_space c
      then if in_run then replace_runs true l' else " "%char :: replace_runs true l'
      else c :: replace_runs false l'
  | [] => []
  end.

(** [normalizeText] *)
Definition normalizeText (s : string) : string :=
  Js.trim (String.string_of_list_ascii
             (replace_runs false (String.list_ascii_of_string s))).

(** [s.split("@")[0]]: the characters before the first [@]. *)
Fixpoint before_at (s : string) : string :=
  match s with
  | String c s' => if Ascii.eqb c "@" then EmptyString else String c (before_at s')
  | EmptyString => EmptyString
  end.

(** The signed-in user. *)
Record user := mk_user { user_id : string; email : option string }.

(** What the handler reads: the state of the component and
    [NEXT_PUBLIC_DOCUMENT_ID]. *)
Record env := mk_env {
  current_user : option user;
  DOCUMENT_ID : string;
  pageKey : string;
  suggestText : string;
  suggestComment : string;
  usernameByUserId : gmap string string
}.

(** The row given to [insert]. *)
Record request := mk_request {
  document_id : string;
  page_key : string;
  uid : string;
  suggested_text : string;
  comment : option string;
  req_user_id : string;
  author_username : string
}.

(** [unameSnapshot] *)
Definition unameSnapshot (en : env) (u : user) : string :=
  Js.or_else
    (Js.or_else
       (match usernameByUserId en !! user_id u with
        | Some name => if Js.truthy name then Js.trim name else name
        | None => ""
        end)
       (match email u with
        | Some e => if Js.truthy e then before_at e else ""
        | None => ""
        end))
    ("user_" +:+ Js.str_slice0 6 (user_id u)).

(** How a call of [submitSuggestion] ends. *)
Inductive outcome :=
  | Alert (msg : string)
  | Nothing
  | Rejected (req : request) (msg : string)
  | Stored (req : request).

(** [submitSuggestion(uid, originalText)].  [insert] is the answer of
    the store to the row: the message of an error, if one.  [Rejected]
    and [Stored] are the two ends of a call that sent the row; after
    [Stored] the form is closed and emptied and the suggestions of the
    page are loaded again, after [Rejected] the message is shown and the
    form is left as it is. *)
Definition submitSuggestion (en : env) (uid : string) (originalText : string)
    (insert : request → option string) : outcome :=
  match current_user en with
  | None => Alert "Please sign in to suggest edits."
  | Some u =>
      if negb (Js.truthy (DOCUMENT_ID en))
      then Alert "Missing NEXT_PUBLIC_DOCUMENT_ID in .env.local"
      else if negb (Js.truthy (pageKey en)) then Nothing
      else
        let text := normalizeText (suggestText en) in
        if negb (Js.truthy text) then Nothing
        else
          let original := normalizeText (Js.or_else originalText "") in
          if String.eqb text original
          then Alert "Your suggestion is identical to the current transcription."
          else
            let comment := Js.trim (suggestComment en) in
            let req :=
              mk_request (DOCUMENT_ID en) (pageKey en) uid text
                (if Js.truthy comment then Some comment else None)
                (user_id u) (unameSnapshot en u) in
            match insert req with
            | Some msg => Rejected req msg
            | None => Stored req
            end
  end.

End Submit.

(** *** Normalised text *)

(** White space occurs in [l] only as single spaces between other
    characters. *)
Fixpoint single_spaced (l : list ascii) : bool :=
  match l with
  | [] => true
  | c :: l' =>
      (if Js.is_space c
       then Ascii.eqb c " "
            && match l' with d :: _ => negb (Js.is_space d) | [] => true end
       else true)
      && single_spaced l'
  end.

(** A text is tidy when it neither starts nor ends with white space and
    has white space only as single spaces. *)
Definition tidy (s : string) : Prop :=
  let l := String.list_ascii_of_string s in
  single_spaced l = true
  ∧ (∀ c, head l = Some c → Js.is_space c = false)
  ∧ (∀ c, last l = Some c → Js.is_space c = false).

(** The characters of [s] that are not white space. *)
Definition ink (s : string) : list ascii :=
  filter (λ c, Js.is_space c = false) (String.list_ascii_of_string s).

(** The row that a call sent to the store, if it sent one. *)
Definition sent_row (o : Submit.outcome) : option Submit.request :=
  match o with
  | Submit.Rejected req _ | Submit.Stored req => Some req
  | Submit.Alert _ | Submit.Nothing => None
  end.

Module Example_submit.

Definition ann : Submit.user := Submit.mk_user "ann-0123456789" (Some "ann@example.org").

(** Ann, signed in on page ["doc_page_1"], typed a correction with
    stray white space and no comment; her user name is not cached. *)
Definition en : Submit.env :=
  Submit.mk_env (Some ann) "doc" "doc_page_1" "  Fort   Albany " "  " ∅.

Definition accepts (req : Submit.request) : option string := None.

End Example_submit.

(** ** The ingestion script *)

Module Ingest.

(** An entry of the result of [flattenLines]. *)
Record flat := mk_flat {
  uid : string;
  line_id : option string;
  transcription : string;
  bbox : float * float * float * float
}.

(** [flattenLines(pageObj)]; [None] is a page object that is missing. *)
Definition flattenLines (pageObj : option PageObj.t) : list flat :=
  match pageObj with
  | Some p =>
      concat
        (imap (fun pIdx par =>
                 imap (fun lIdx l =>
                         mk_flat (uid_of pIdx lIdx) (Some (Line.line_id l))
                           (Line.transcription l) (Line.bbox l))
                      (Paragraph.lines par))
              (PageObj.paragraphs p))
  | None => []
  end.

(** [Math.round(v)] of a finite number, as an integer: the integer
    nearest to [v], the larger one of two that are equally near. *)
Definition Math_round (v : float) : Z :=
  match Prim2SF v with
  | S754_finite s m e =>
      let n := if s then Z.neg m else Z.pos m in
      if 0 <=? e then n * 2 ^ e else (n + 2 ^ (- e - 1)) / 2 ^ (- e)
  | _ => 0
  end.

(** A row for the table [lines]. *)
Record row := mk_row {
  document_id : string;
  page_key : string;
  row_uid : string;
  row_bbox : Z * Z * Z * Z;
  original_text : string
}.

(** [[x1, y1, x2, y2].every((v) => Number.isFinite(v))] *)
Definition allFinite (bb : float * float * float * float) : bool :=
  let '(x1, y1, x2, y2) := bb in forallb Js.Number_isFinite [x1; y1; x2; y2].

(** The row pushed for a line, if one is pushed. *)
Definition row_of (document_id pk : string) (l : flat) : option row :=
  let '(x1, y1, x2, y2) := bbox l in
  if negb (allFinite (bbox l)) then None
  else
    Some (mk_row document_id pk (uid l)
            (Math_round x1, Math_round y1, Math_round x2, Math_round y2)
            (transcription l)).

(** [rows] after the loop over the sorted page keys. *)
Definition rows_of (document_id : string) (docJson : DocJson) : list row :=
  flat_map (fun pk => omap (row_of document_id pk) (flattenLines (doc_get docJson pk)))
           (ingest_pageKeys docJson).

Definition CHUNK : nat := 1000.

(** What the script asks of the store and prints on success. *)
Inductive event :=
  | Insert_document (title pdf_url json_url : string)
  | Insert_lines (chunk : list row)
  | Delete_document (id : string)
  | Log (text : string).

(** How the process ends: normally, with the usage text and status 1, or
    with an error printed and status 1. *)
Inductive exit := Done | Usage | Threw (err : string).

Section Main.

(** [path.basename(p)] and [path.basename(p, path.extname(p))]. *)
Variable basename : string → string.
Variable stem : string → string.
(** The document read and parsed from a file, or the error thrown. *)
Variable read : string → DocJson + string.
(** The answer of the store to the insertion of the document: the id of
    the new row or an error. *)
Variable document_answer : string + string.
(** The answer of the store to the insertion of the chunk that starts at
    row [i]: an error, if one. *)
Variable lines_answer : nat → option string.

(** The loop [for (let i = 0; i < rows.length; i += CHUNK)], from [i];
    it stops at the first error.  [fuel] bounds the number of turns. *)
Fixpoint insert_from (fuel : nat) (i : nat) (rows : list row)
    : list event * option string :=
  match fuel with
  | O => ([], None)
  | S fuel' =>
      if (i <? length rows)%nat then
        let chunk := take CHUNK (drop i rows) in
        match lines_answer i with
        | Some err => ([Insert_lines chunk], Some err)
        | None =>
            let '(evs, res) := insert_from fuel' (i + CHUNK) rows in
            (Insert_lines chunk
               :: Log ("Inserted lines " +:+ Js.string_of_N (N.of_nat (i + 1)) +:+ "-"
                       +:+ Js.string_of_N (N.of_nat (i + length chunk)) +:+ " / "
                       +:+ Js.string_of_N (N.of_nat (length rows)))
               :: evs,
             res)
        end
      else ([], None)
  end.

(** [main], with the two arguments of the command line ([None]: not
    given): what was asked of the store and printed, and how the process
    ended. *)
Definition main (jsonFile pdfPathInBucket : option string) : list event * exit :=
  let jsonFile := default "" jsonFile in
  let pdfPathInBucket := default "" pdfPathInBucket in
  if negb (Js.truthy jsonFile) || negb (Js.truthy pdfPathInBucket) then ([], Usage)
  else
    match read jsonFile with
    | inr err => ([], Threw err)
    | inl docJson =>
        let ask := Insert_document (stem pdfPathInBucket) pdfPathInBucket
                     (basename jsonFile) in
        match document_answer with
        | inr err => ([ask], Threw err)
        | inl document_id =>
            let rows := rows_of document_id docJson in
            if (length rows =? 0)%nat then ([ask], Threw "No lines found to insert.")
            else
              match insert_from (length rows) 0 rows with
              | (evs, None) =>
                  (ask :: evs ++ [Log "Done."; Log ("document_id: " +:+ document_id)],
                   Done)
              | (evs, Some err) =>
                  (ask :: evs ++ [Delete_document document_id], Threw err)
              end
        end
    end.

End Main.

End Ingest.

(** The entry of [flattenLines] for a line as the viewer numbers it. *)
Definition flat_of (l : LineWithUid.t) : Ingest.flat :=
  Ingest.mk_flat (LineWithUid.uid l) (Some (Line.line_id (LineWithUid.line l)))
    (LineWithUid.transcription l) (LineWithUid.bbox l).

Module Example_ingest.

(** A document of two pages, the second one first in the file; the
    second page has one line, with a box that is not finite. *)
Definition page2 : PageObj.t :=
  PageObj.mk 1000 2000 [Paragraph.mk [Example.line (10, 10, infinity, 20)%float]].

Definition docJson : DocJson := [("doc_page_2", page2); ("doc_page_1", Example.page)].

End Example_ingest.

(** The chunks of rows that the script sent to the store. *)
Definition chunks_sent (evs : list Ingest.event) : list (list Ingest.row) :=
  omap (λ e, match e with Ingest.Insert_lines chunk => Some chunk | _ => None end) evs.

(** The documents that the script asked the store to delete. *)
Definition documents_deleted (evs : list Ingest.event) : list string :=
  omap (λ e, match e with Ingest.Delete_document id => Some id | _ => None end) evs.

Module Example_run.

(** A run on ["./data/doc.json"] and ["doc.pdf"]: the file holds the
    document of [Example_ingest], the store gives the new document the
    id ["id-1"]. *)
Definition basename (p : string) : string :=
  if String.eqb p "./data/doc.json" then "doc.json" else p.
Definition stem (p : string) : string :=
  if String.eqb p "doc.pdf" then "doc" else p.
Definition read (p : string) : DocJson + string := inl Example_ingest.docJson.
Definition document_answer : string + string := inl "id-1".

(** The store accepts every chunk; the store refuses the first chunk. *)
Definition accepts (i : nat) : option string := None.
Definition refuses (i : nat) : option string := Some "insert failed".

End Example_run.

(** *** Votes that the leaderboard counts *)

(** The vote is an upvote on a suggestion that has an author. *)
Definition counted (v : Leaderboard.vote_row) : bool :=
  (default 0 (Leaderboard.vote v) =? 1) && Js.truthy (Leaderboard.author_of v).

(** *** Boxes given with their corners in another order *)

(** The box with its two horizontal, or its two vertical, coordinates
    exchanged. *)
Definition swap_x (bb : float * float * float * float) : float * float * float * float :=
  let '(x1, y1, x2, y2) := bb in (x2, y1, x1, y2).
Definition swap_y (bb : float * float * float * float) : float * float * float * float :=
  let '(x1, y1, x2, y2) := bb in (x1, y2, x2, y1).

(** The line [l] with the box [bb]. *)
Definition with_bbox (l : LineWithUid.t) (bb : float * float * float * float)
    : LineWithUid.t :=
  LineWithUid.mk
    (Line.mk (Line.line_id (LineWithUid.line l)) (Line.transcription (LineWithUid.line l))
       bb)
    (LineWithUid.uid l).

(** *** Zoom and drag-to-pan *)

Module Pan.

(** The scroll container of the page: its scroll offsets and the two
    style properties that the handlers set. *)
Record scroller := mk_scroller {
  scrollLeft : float;
  scrollTop : float;
  cursor : string;
  userSelect : string
}.

(** [dragStartRef.current] *)
Record start := mk_start {
  start_x : float;
  start_y : float;
  start_scrollLeft : float;
  start_scrollTop : float
}.

(** What the handlers of the scroll container read and write:
    [isDraggingRef.current], which is the field [isDragging] of the
    highlight state, [zoom], [dragStartRef.current] and
    [pdfScrollRef.current] ([None]: null). *)
Record state := mk_state {
  hl : Highlight.state;
  zoom : float;
  dragStart : start;
  el : option scroller
}.

Definition set_dragging (st : Highlight.state) (b : bool) : Highlight.state :=
  Highlight.mk_state (Highlight.doc st) (Highlight.pageKey st) (Highlight.hitBoxes st)
    (Highlight.boxByUid st) (Highlight.activeSource st) (Highlight.activeId st)
    (Highlight.activeBox st) (Highlight.collapseSuggestions st)
    (Highlight.collapsedUid st) (Highlight.openSuggestUid st)
    b (Highlight.hoverRaf st) (Highlight.hoverPt st).

Section Handlers.

(** The offset that the browser keeps when [scrollLeft], or [scrollTop],
    is assigned a number. *)
Variable settle_left settle_top : float → float.

(** [endDrag], the handler of mouse up and of mouse leave. *)
Definition endDrag (st : state) : state :=
  mk_state (set_dragging (hl st) false) (zoom st) (dragStart st)
    (match el st with
     | Some s =>
         Some (mk_scroller (scrollLeft s) (scrollTop s)
                 (if (1 <? zoom st)%float then "grab" else "auto") "auto")
     | None => None
     end).

(** [onPdfMouseDown] with the pointer at [(clientX, clientY)]. *)
Definition onPdfMouseDown (st : state) (clientX clientY : float) : state :=
  if (zoom st <=? 1)%float then st
  else
    match el st with
    | None => st
    | Some s =>
        mk_state (set_dragging (hl st) true) (zoom st)
          (mk_start clientX clientY (scrollLeft s) (scrollTop s))
          (Some (mk_scroller (scrollLeft s) (scrollTop s) "grabbing" "none"))
    end.

(** [onPdfMouseMove] with the pointer at [(clientX, clientY)]. *)
Definition onPdfMouseMove (st : state) (clientX clientY : float) : state :=
  if negb (Highlight.isDragging (hl st)) then st
  else
    match el st with
    | None => st
    | Some s =>
        let dx := (clientX - start_x (dragStart st))%float in
        let dy := (clientY - start_y (dragStart st))%float in
        mk_state (hl st) (zoom st) (dragStart st)
          (Some (mk_scroller
                   (settle_left (start_scrollLeft (dragStart st) - dx)%float)
                   (settle_top (start_scrollTop (dragStart st) - dy)%float)
                   (cursor s) (userSelect s)))
    end.

(** The mouse events of the scroll container. *)
Inductive event :=
  | Down (clientX clientY : float)
  | Move (clientX clientY : float)
  | Up
  | Leave.

Definition step (st : state) (ev : event) : state :=
  match ev with
  | Down x y => onPdfMouseDown st x y
  | Move x y => onPdfMouseMove st x y
  | Up | Leave => endDrag st
  end.

End Handlers.

End Pan.

(** The scroll offsets of the container, if there is one. *)
Definition offsets (st : Pan.state) : option (float * float) :=
  match Pan.el st with
  | Some s => Some (Pan.scrollLeft s, Pan.scrollTop s)
  | None => None
  end.

Module Example_pan.

(** The browser keeps an offset that is not negative. *)
Definition settle (v : float) : float := Js.Math_max 0 v.

(** The viewer of [Example_clicks], zoomed to 2 and scrolled to
    [(300, 400)]. *)
Definition zoomed : Pan.state :=
  Pan.mk_state Example_clicks.idle 2 (Pan.mk_start 0 0 0 0)
    (Some (Pan.mk_scroller 300 400 "grab" "auto")).

(** The same at zoom 1. *)
Definition unzoomed : Pan.state :=
  Pan.mk_state Example_clicks.idle 1 (Pan.mk_start 0 0 0 0)
    (Some (Pan.mk_scroller 0 0 "auto" "auto")).

End Example_pan.

Module Zoom.

(** [clampZoom] *)
Definition clampZoom (z : float) : float := Js.Math_max 0.5 (Js.Math_min 5 z).

(** The digits of [x.toFixed(4)] for a finite [x] given by its mantissa
    and exponent: the integer nearest to [|x| * 10^4], the larger of two
    that are equally near. *)
Definition fixed4_digits (m : positive) (e : Z) : Z :=
  if 0 <=? e then Z.pos m * 2 ^ e * 10000
  else (Z.pos m * 10000 * 2 + 2 ^ (- e)) / 2 ^ (- e + 1).

(** [Number(x.toFixed(4))]: the binary64 number nearest to the decimal
    number that [toFixed] prints.  From [2^39] on, binary64 numbers are
    more than [0.0001] apart, the decimal number printed is nearer to [x]
    than to any other of them, and the result is [x]; below, the digits
    are an integer that binary64 holds exactly, and the division by
    [10^4] rounds as reading the decimal number does.  ["NaN"] and
    ["Infinity"] are read back as they are, and a zero is printed
    without sign. *)
Definition fixed4 (x : float) : float :=
  match Prim2SF x with
  | S754_finite s m e =>
      if (549755813888 <=? abs x)%float then x
      else
        let q := (of_uint63 (Uint63Axioms.of_Z (fixed4_digits m e)) / 10000)%float in
        if s then (- q)%float else q
  | S754_zero _ => 0%float
  | S754_infinity _ | S754_nan => x
  end.

Definition zoomIn (z : float) : float := clampZoom (fixed4 (z * 1.15)).
Definition zoomOut (z : float) : float := clampZoom (fixed4 (z / 1.15)).
Definition zoomReset : float := 1%float.

(** A wheel event: the modifier keys and [deltaY]. *)
Record wheel := mk_wheel { ctrlKey : bool; metaKey : bool; deltaY : float }.

(** [onPdfWheel]: the zoom after the event. *)
Definition onPdfWheel (z : float) (e : wheel) : float :=
  if negb (ctrlKey e || metaKey e) then z
  else if (0 <? deltaY e)%float then zoomOut z
  else if (deltaY e <? 0)%float then zoomIn z
  else z.

(** What can happen to the zoom. *)
Inductive event := In | Out | Reset | Wheel (e : wheel).

Definition step (z : float) (ev : event) : float :=
  match ev with
  | In => zoomIn z
  | Out => zoomOut z
  | Reset => zoomReset
  | Wheel e => onPdfWheel z e
  end.

End Zoom.

(** The zoom is between one half and five. *)
Definition zoom_in_range (z : float) : Prop :=
  (0.5 <=? z)%float = true ∧ (z <=? 5)%float = true.

(** *** The cache of user names *)

Module Names.






End Names.

(** *** Signing up *)

Module Signup.

(** The fields of the sign-up and sign-in forms that [signUp] reads. *)
Record form := mk_form {
  signupEmail : string;
  signinId : string;
  signupUsername : string;
  signupPw : string;
  showSignup : bool
}.

(** [s.includes("@")] *)
Fixpoint includes_at (s : string) : bool :=
  match s with
  | String c s' => Ascii.eqb c "@" || includes_at s'
  | EmptyString => false
  end.

(** The arguments of [supabase.auth.signUp]. *)
Record request := mk_request { email : string; password : string; username : string }.

(** What a call of [signUp] did: the form after it, the request it
    sent, if any, the text of its alert, the row it upserted into
    [profiles] and the entry it put into the cache of user names. *)
Record result := mk_result {
  form_after : form;
  sent : option request;
  alert : string;
  profile_upsert : option (string * string * string);
  cached : option (string * string)
}.

(** [signUp].  [answer] is the answer to the request: the message of an
    error, or the id of the new user, if the answer has one. *)
Definition signUp (f : form) (answer : request → string + option string) : result :=
  let f1 :=
    if negb (Js.truthy (Js.trim (signupEmail f)))
       && includes_at (Js.trim (signinId f))
    then mk_form (Js.trim (signinId f)) (signinId f) (signupUsername f) (signupPw f)
           (showSignup f)
    else f in
  let email := Js.trim (signupEmail f) in
  let uname := Js.trim (signupUsername f) in
  let password := signupPw f in
  if negb (includes_at email)
  then mk_result f1 None "Please enter an email to sign up." None None
  else if negb (Js.truthy uname)
  then mk_result f1 None "Please choose a username." None None
  else if negb (Js.truthy password)
  then mk_result f1 None "Please enter a password." None None
  else
    let req := mk_request email password uname in
    match answer req with
    | inl msg => mk_result f1 (Some req) msg None None
    | inr newUserId =>
        let id := default "" newUserId in
        mk_result
          (mk_form (signupEmail f1) (signinId f1) (signupUsername f1) "" false)
          (Some req)
          "Signed up. If email confirmation is enabled, confirm your email, then sign in."
          (if Js.truthy id then Some (id, uname, email) else None)
          (if Js.truthy id then Some (id, uname) else None)
    end.

End Signup.

Module Example_signup.

(** The e-mail address was typed into the sign-in form only. *)
Definition form : Signup.form :=
  Signup.mk_form "" " ann@example.org " " ann " "secret" true.

Definition answer (req : Signup.request) : string + option string := inr (Some "u-1").

End Example_signup.

(** * Properties *)

(** ** Rounding in binary64 *)

Lemma digits2_pos_size (m : positive) : digits2_pos m = Pos.size m.
Proof. induction m; simpl; congruence. Qed.

Lemma digits2_bounds (m : positive) :
  2 ^ (Zpos (digits2_pos m) - 1) <= Zpos m < 2 ^ Zpos (digits2_pos m).
Proof.
  rewrite digits2_pos_size. split.
  - pose proof (Pos.size_le m) as H.
    assert (Hs : Zpos (Pos.size m) = Z.succ (Zpos (Pos.size m) - 1)) by lia.
    assert (2 ^ Zpos (Pos.size m) <= 2 * Zpos m).
    { change (2 * Zpos m) with (Zpos m~0). rewrite <- Pos2Z.inj_pow. lia. }
    rewrite Hs in H0 at 1. rewrite Z.pow_succ_r in H0 by lia. lia.
  - pose proof (Pos.size_gt m). rewrite <- Pos2Z.inj_pow. lia.
Qed.

(** iter_pos as Pos.iter *)
Lemma iter_pos_nat {A} (f : A -> A) (p : positive) (x : A) :
  iter_pos f p x = Nat.iter (Pos.to_nat p) f x.
Proof.
  revert x. induction p as [p IH|p IH|]; intros x; cbn [iter_pos].
  - rewrite !IH. rewrite Pos2Nat.inj_xI.
    replace (S (2 * Pos.to_nat p))%nat with (Pos.to_nat p + (Pos.to_nat p + 1))%nat by lia.
    rewrite !Nat.iter_add. simpl. reflexivity.
  - rewrite !IH. rewrite Pos2Nat.inj_xO.
    replace (2 * Pos.to_nat p)%nat with (Pos.to_nat p + Pos.to_nat p)%nat by lia.
    rewrite Nat.iter_add. reflexivity.
  - reflexivity.
Qed.


Lemma shr_1_nonneg m r s : 0 <= m ->
  shr_1 {| shr_m := m; shr_r := r; shr_s := s |} =
  {| shr_m := m / 2; shr_r := Z.odd m; shr_s := r || s |}.
Proof.
  intros Hm. destruct m as [|p|p]; try lia.
  - reflexivity.
  - destruct p; simpl shr_1.
    + f_equal. rewrite Pos2Z.inj_xI. apply Z.div_unique with 1; lia.
    + f_equal. rewrite (Pos2Z.inj_xO p). apply Z.div_unique with 0; lia.
    + reflexivity.
Qed.

Lemma iter_shr_1 (m : Z) (k : nat) : 0 <= m ->
  Nat.iter (S k) shr_1 {| shr_m := m; shr_r := false; shr_s := false |} = shr_spec m (S k).
Proof.
  intros Hm. induction k as [|k IH].
  - unfold Nat.iter; cbn [nat_rect]. rewrite shr_1_nonneg by assumption. unfold shr_spec.
    change (Z.of_nat 1 - 1) with 0. change (Z.of_nat 1) with 1.
    rewrite Z.pow_0_r, Z.pow_1_r, Z.div_1_r, Z.mod_1_r. reflexivity.
  - change (Nat.iter (S (S k)) shr_1 ?x) with (shr_1 (Nat.iter (S k) shr_1 x)).
    rewrite IH. unfold shr_spec.
    rewrite shr_1_nonneg by (apply Z.div_pos; lia).
    assert (E1 : Z.of_nat (S (S k)) - 1 = Z.of_nat (S k)) by lia.
    assert (E2 : Z.of_nat (S (S k)) = Z.succ (Z.of_nat (S k))) by lia.
    assert (E3 : Z.of_nat (S k) = Z.succ (Z.of_nat (S k) - 1)) by lia.
    rewrite E1. f_equal.
    + rewrite E2, Z.pow_succ_r by lia.
      rewrite (Z.mul_comm 2). rewrite Z.div_div by lia. reflexivity.
    + set (j := Z.of_nat (S k) - 1) in *. assert (0 <= j) by lia.
      rewrite E3. rewrite Z.pow_succ_r by lia. rewrite (Z.mul_comm 2).
      rewrite Z.rem_mul_r by lia.
      destruct (Z.odd (m / 2 ^ j)) eqn:Ho.
      * simpl. symmetry. apply negb_true_iff, Z.eqb_neq.
        rewrite Zodd_mod in Ho. apply Z.eqb_eq in Ho.
        pose proof (Z.mod_pos_bound m (2^j) ltac:(lia)). nia.
      * simpl. rewrite Zodd_mod in Ho. apply Z.eqb_neq in Ho.
        pose proof (Z.mod_pos_bound (m / 2^j) 2 ltac:(lia)).
        assert ((m / 2 ^ j) mod 2 = 0) by lia. rewrite H1. rewrite Z.mul_0_r, Z.add_0_r.
        reflexivity.
Qed.

Lemma fexp_eq x : fexp 53 1024 x = Z.max (x - 53) (-1074).
Proof. reflexivity. Qed.

Lemma digits2_unique (m : positive) (k : Z) :
  2 ^ (k - 1) <= Zpos m < 2 ^ k -> Zpos (digits2_pos m) = k.
Proof.
  intros [Hl Hu]. pose proof (digits2_bounds m) as [Dl Du].
  set (d := Zpos (digits2_pos m)) in *.
  assert (0 < k).
  { destruct (Z.ltb_spec 0 k); [assumption|].
    exfalso. destruct (Z.eq_dec k 0) as [->|].
    - rewrite Z.pow_0_r in Hu. lia.
    - rewrite Z.pow_neg_r in Hu by lia. lia. }
  destruct (Z.lt_trichotomy d k) as [Hlt|[Heq|Hgt]]; [|assumption|].
  - assert (2 ^ d <= 2 ^ (k - 1)) by (apply Z.pow_le_mono_r; lia). lia.
  - assert (2 ^ k <= 2 ^ (d - 1)) by (apply Z.pow_le_mono_r; lia). lia.
Qed.

Lemma shr_zero mrs e : shr mrs e 0 = (mrs, e).
Proof. reflexivity. Qed.

Lemma shr_pos (m : Z) e (n : Z) : 0 <= m -> 0 < n ->
  shr {| shr_m := m; shr_r := false; shr_s := false |} e n =
  ({| shr_m := m / 2 ^ n;
      shr_r := Z.odd (m / 2 ^ (n - 1));
      shr_s := negb (m mod 2 ^ (n - 1) =? 0) |}, e + n).
Proof.
  intros Hm Hn. destruct n as [|p|p]; try lia.
  unfold shr. f_equal. rewrite iter_pos_nat.
  destruct (Pos.to_nat p) as [|k] eqn:Ek; [lia|].
  rewrite iter_shr_1 by assumption. unfold shr_spec.
  assert (Z.of_nat (S k) = Zpos p) as -> by lia. reflexivity.
Qed.

(** A positive mantissa that is already canonical is left alone. *)
Lemma binary_round_aux_canonical s (m : positive) e :
  fexp 53 1024 (Zpos (digits2_pos m) + e) = e -> e <= 971 ->
  binary_round_aux 53 1024 s (Zpos m) e loc_Exact = S754_finite s m e.
Proof.
  intros Hc He. unfold binary_round_aux, shr_fexp.
  cbn [Zdigits2 shr_record_of_loc]. rewrite Hc, Z.sub_diag, shr_zero.
  cbn [shr_m loc_of_shr_record round_nearest_even Zdigits2 shr_record_of_loc].
  rewrite Hc, Z.sub_diag, shr_zero. cbn [shr_m].
  destruct (Z.leb_spec e (1024 - 53)); [reflexivity|lia].
Qed.


Lemma rne_spec (M n : Z) : 0 <= M -> 0 < n ->
  (rne M n = M / 2 ^ n \/ (rne M n = M / 2 ^ n + 1 /\ 2 ^ (n - 1) <= M mod 2 ^ n))
  /\ (M mod 2 ^ n < 2 ^ (n - 1) -> rne M n = M / 2 ^ n).
Proof.
  intros HM Hn. unfold rne.
  assert (E : 2 ^ n = 2 ^ (n - 1) * 2).
  { replace n with (Z.succ (n - 1)) at 1 by lia. rewrite Z.pow_succ_r by lia. lia. }
  set (hf := 2 ^ (n - 1)) in *.
  assert (Hh : 0 < hf) by (apply Z.pow_pos_nonneg; lia).
  assert (Hq : M / 2 ^ n = M / hf / 2) by (rewrite E, Z.div_div by lia; reflexivity).
  assert (Hr : M mod 2 ^ n = M mod hf + hf * ((M / hf) mod 2))
    by (rewrite E, Z.rem_mul_r by lia; reflexivity).
  rewrite Hq, Hr.
  pose proof (Z.mod_pos_bound M hf Hh) as Hb.
  rewrite Zodd_mod.
  pose proof (Z.mod_pos_bound (M / hf) 2 ltac:(lia)) as Hb2.
  destruct (Z.eqb_spec ((M / hf) mod 2) 1) as [H1|H1].
  - rewrite H1. split.
    + destruct (negb (M mod hf =? 0)); cbn [loc_of_shr_record round_nearest_even];
        [right; split; [reflexivity|lia]|].
      destruct (Z.even (M / hf / 2)); [left; reflexivity|right; split; [reflexivity|lia]].
    + intros; exfalso; lia.
  - assert (H0 : (M / hf) mod 2 = 0) by lia.
    split; [left|intros _];
      destruct (negb (M mod hf =? 0)); reflexivity.
Qed.

Lemma binary_round_aux_second s (m1 e1 : Z) :
  2 ^ 52 <= m1 <= 2 ^ 53 -> -1074 <= e1 ->
  (let '(mrs'', e'') := shr_fexp 53 1024 m1 e1 loc_Exact in
   match shr_m mrs'' with
   | Z0 => S754_zero s
   | Zpos m => if e'' <=? 1024 - 53 then S754_finite s m e'' else S754_infinity s
   | Zneg _ => S754_nan
   end) =
  if m1 =? 2 ^ 53
  then (if e1 + 1 <=? 971 then S754_finite s (Z.to_pos (2 ^ 52)) (e1 + 1) else S754_infinity s)
  else (if e1 <=? 971 then S754_finite s (Z.to_pos m1) e1 else S754_infinity s).
Proof.
  intros Hm He. unfold shr_fexp.
  destruct m1 as [|p|p]; try lia. cbn [Zdigits2 shr_record_of_loc].
  destruct (Z.eqb_spec (Zpos p) (2 ^ 53)) as [E|E].
  - rewrite (digits2_unique p 54) by (rewrite E; split; [apply Z.pow_le_mono_r|apply Z.pow_lt_mono_r]; lia).
    rewrite fexp_eq. replace (Z.max (54 + e1 - 53) (-1074) - e1) with 1 by lia.
    rewrite shr_pos by lia. cbn [shr_m]. rewrite E.
    change (2 ^ 53 / 2 ^ 1) with (2 ^ 52). reflexivity.
  - rewrite (digits2_unique p 53) by (change (53 - 1) with 52; lia).
    rewrite fexp_eq. replace (Z.max (53 + e1 - 53) (-1074) - e1) with 0 by lia.
    rewrite shr_zero. cbn [shr_m]. reflexivity.
Qed.

Lemma binary_round_aux_shift s (M : positive) e :
  53 < Zpos (digits2_pos M) -> -1074 <= e ->
  let n := Zpos (digits2_pos M) - 53 in
  let m1 := rne (Zpos M) n in
  2 ^ 52 <= m1 <= 2 ^ 53 /\
  binary_round_aux 53 1024 s (Zpos M) e loc_Exact =
  if m1 =? 2 ^ 53
  then (if e + n + 1 <=? 971 then S754_finite s (Z.to_pos (2 ^ 52)) (e + n + 1) else S754_infinity s)
  else (if e + n <=? 971 then S754_finite s (Z.to_pos m1) (e + n) else S754_infinity s).
Proof.
  intros Hd He n m1.
  pose proof (digits2_bounds M) as [Dl Du].
  assert (Hn : 0 < n) by (unfold n; lia).
  assert (P2n : 0 < 2 ^ n) by (apply Z.pow_pos_nonneg; lia).
  assert (Hq : 2 ^ 52 <= Zpos M / 2 ^ n < 2 ^ 53).
  { replace (Zpos (digits2_pos M)) with (n + 53) in Du by (unfold n; lia).
    replace (Zpos (digits2_pos M) - 1) with (n + 52) in Dl by (unfold n; lia).
    rewrite Z.pow_add_r in Dl, Du by lia. split.
    - apply Z.div_le_lower_bound; lia.
    - apply Z.div_lt_upper_bound; lia. }
  destruct (rne_spec (Zpos M) n ltac:(lia) Hn) as [Hm1 _]. fold m1 in Hm1.
  assert (Hm1b : 2 ^ 52 <= m1 <= 2 ^ 53) by lia.
  split; [exact Hm1b|].
  unfold binary_round_aux. unfold shr_fexp at 1.
  cbn [Zdigits2 shr_record_of_loc]. rewrite fexp_eq.
  replace (Z.max (Zpos (digits2_pos M) + e - 53) (-1074) - e) with n by (unfold n; lia).
  rewrite shr_pos by lia. cbn [shr_m].
  fold (rne (Zpos M) n). fold m1.
  apply binary_round_aux_second; lia.
Qed.

Lemma iter_xO_spec (m d : positive) :
  Zpos (Pos.iter xO m d) = Zpos m * 2 ^ Zpos d
  /\ Zpos (digits2_pos (Pos.iter xO m d)) = Zpos (digits2_pos m) + Zpos d.
Proof.
  induction d as [|d IH] using Pos.peano_ind.
  - cbn [Pos.iter digits2_pos]. split; lia.
  - rewrite Pos.iter_succ. cbn [digits2_pos]. destruct IH as [IH1 IH2].
    split.
    + rewrite Pos2Z.inj_xO, IH1, Pos2Z.inj_succ, Z.pow_succ_r by lia. lia.
    + rewrite !Pos2Z.inj_succ, IH2. lia.
Qed.

Lemma shl_align_spec (m : positive) (e e' : Z) : e' <= e ->
  exists mz, shl_align m e e' = (mz, e')
    /\ Zpos mz = Zpos m * 2 ^ (e - e')
    /\ Zpos (digits2_pos mz) = Zpos (digits2_pos m) + (e - e').
Proof.
  intros H. unfold shl_align. destruct (e' - e) as [|p|p] eqn:E; try lia.
  - exists m. assert (e' = e) as -> by lia. rewrite Z.sub_diag, Z.pow_0_r.
    repeat split; lia.
  - exists (Pos.iter xO m p). destruct (iter_xO_spec m p) as [H1 H2].
    replace (e - e') with (Zpos p) by lia. auto.
Qed.


Lemma binary_round_val s (M : positive) e :
  -1074 <= e -> Zpos (digits2_pos M) + e <= 1023 ->
  exists m' e', binary_round 53 1024 s M e = S754_finite s m' e' /\ -1074 <= e' /\
    ((Zpos (digits2_pos M) <= 53 /\ Zpos m' * 2 ^ (e' + 1074) = Zpos M * 2 ^ (e + 1074))
     \/ (53 < Zpos (digits2_pos M) /\
         Zpos m' * 2 ^ (e' + 1074) =
         rne (Zpos M) (Zpos (digits2_pos M) - 53) * 2 ^ (e + (Zpos (digits2_pos M) - 53) + 1074))).
Proof.
  intros He Hov. unfold binary_round. rewrite fexp_eq.
  set (d := Zpos (digits2_pos M)) in *.
  destruct (Z.le_gt_cases d 53) as [Hd|Hd].
  - destruct (shl_align_spec M e (Z.max (d + e - 53) (-1074)) ltac:(lia)) as (mz & -> & Hmz & Hdz).
    set (e' := Z.max (d + e - 53) (-1074)) in *.
    rewrite binary_round_aux_canonical.
    + exists mz, e'. split; [reflexivity|]. split; [lia|]. left. split; [assumption|].
      rewrite Hmz, <- Z.mul_assoc, <- Z.pow_add_r by lia. f_equal. f_equal. lia.
    + rewrite fexp_eq, Hdz. fold d. lia.
    + lia.
  - assert (shl_align M e (Z.max (d + e - 53) (-1074)) = (M, e)) as ->.
    { unfold shl_align. destruct (Z.max (d + e - 53) (-1074) - e) eqn:E; try reflexivity; lia. }
    destruct (binary_round_aux_shift s M e Hd He) as [Hb ->]. fold d in Hb |- *.
    set (n := d - 53) in *. set (m1 := rne (Zpos M) n) in *.
    destruct (Z.eqb_spec m1 (2 ^ 53)) as [E|E].
    + destruct (Z.leb_spec (e + n + 1) 971); [|lia].
      eexists _, _. split; [reflexivity|]. split; [lia|]. right. split; [assumption|].
      rewrite E. rewrite Z2Pos.id by lia.
      rewrite <- !Z.pow_add_r by lia. f_equal. lia.
    + destruct (Z.leb_spec (e + n) 971); [|lia].
      eexists _, _. split; [reflexivity|]. split; [lia|]. right. split; [assumption|].
      rewrite Z2Pos.id by lia. reflexivity.
Qed.

Lemma bounded_facts (m : positive) (e : Z) :
  bounded 53 1024 m e = true ->
  -1074 <= e <= 971 /\ Zpos (digits2_pos m) <= 53
  /\ (-1074 < e -> Zpos (digits2_pos m) = 53).
Proof.
  unfold bounded, canonical_mantissa. rewrite andb_true_iff, fexp_eq.
  intros [H1 H2]. apply Z.eqb_eq in H1. apply Z.leb_le in H2. lia.
Qed.

Lemma bounded_range (m : positive) (e : Z) :
  bounded 53 1024 m e = true ->
  Zpos m < 2 ^ 53 /\ (-1074 < e -> 2 ^ 52 <= Zpos m).
Proof.
  intros H. destruct (bounded_facts m e H) as (_ & Hd & Hn).
  pose proof (digits2_bounds m) as [Dl Du]. split.
  - assert (2 ^ Zpos (digits2_pos m) <= 2 ^ 53) by (apply Z.pow_le_mono_r; lia). lia.
  - intros He. rewrite (Hn He) in Dl. exact Dl.
Qed.

Lemma pow2_pos (k : Z) : 0 <= k -> 0 < 2 ^ k.
Proof. intros; apply Z.pow_pos_nonneg; lia. Qed.

Lemma pow2_split (a b : Z) : 0 <= a <= b -> 2 ^ b = 2 ^ a * 2 ^ (b - a).
Proof. intros. rewrite <- Z.pow_add_r by lia. f_equal. lia. Qed.

Lemma cmp_scaled (m1 m2 A K : Z) :
  m1 < 2 ^ 53 -> 0 < A -> 2 <= K -> 2 ^ 52 <= m2 -> m1 * A < m2 * (A * K).
Proof.
  intros H1 HA HK H2.
  assert (m1 * A < 2 ^ 53 * A) by (apply Z.mul_lt_mono_pos_r; assumption).
  assert (2 ^ 52 * (2 * A) <= 2 ^ 52 * (A * K))
    by (apply Z.mul_le_mono_nonneg_l; [lia|nia]).
  assert (2 ^ 52 * (A * K) <= m2 * (A * K))
    by (apply Z.mul_le_mono_nonneg_r; [nia|assumption]).
  replace (2 ^ 53 * A) with (2 ^ 52 * (2 * A)) in * by (change (2 ^ 53) with (2 ^ 52 * 2); ring).
  lia.
Qed.

(** On canonical positive numbers the comparison of [SpecFloat] is the
    comparison of the values. *)
Lemma SFcompare_pos_val (m1 : positive) e1 (m2 : positive) e2 :
  bounded 53 1024 m1 e1 = true -> bounded 53 1024 m2 e2 = true ->
  SFcompare (S754_finite false m1 e1) (S754_finite false m2 e2) =
  Some (sval (S754_finite false m1 e1) ?= sval (S754_finite false m2 e2)).
Proof.
  intros B1 B2. cbn [SFcompare sval]. f_equal.
  destruct (bounded_facts _ _ B1) as (E1 & _ & _).
  destruct (bounded_facts _ _ B2) as (E2 & _ & _).
  destruct (bounded_range _ _ B1) as (U1 & L1).
  destruct (bounded_range _ _ B2) as (U2 & L2).
  destruct (Z.compare_spec e1 e2) as [E|E|E].
  - subst e2. rewrite Pos.compare_cont_spec. cbn [Pos.switch_Eq].
    pose proof (pow2_pos (e1 + 1074) ltac:(lia)).
    rewrite <- Zmult_compare_compat_r by lia.
    rewrite Pos2Z.inj_compare. destruct (Zpos m1 ?= Zpos m2); reflexivity.
  - symmetry. apply Z.compare_lt_iff.
    rewrite (pow2_split (e1 + 1074) (e2 + 1074)) by lia.
    pose proof (pow2_pos (e1 + 1074) ltac:(lia)).
    assert (2 ^ 1 <= 2 ^ (e2 + 1074 - (e1 + 1074))) by (apply Z.pow_le_mono_r; lia).
    specialize (L2 ltac:(lia)). change (2 ^ 1) with 2 in *.
    apply (cmp_scaled (Zpos m1) (Zpos m2)); assumption.
  - symmetry. apply Z.compare_gt_iff, Z.gt_lt_iff.
    rewrite (pow2_split (e2 + 1074) (e1 + 1074)) by lia.
    pose proof (pow2_pos (e2 + 1074) ltac:(lia)).
    assert (2 ^ 1 <= 2 ^ (e1 + 1074 - (e2 + 1074))) by (apply Z.pow_le_mono_r; lia).
    specialize (L1 ltac:(lia)). change (2 ^ 1) with 2 in *.
    apply Z.lt_gt, (cmp_scaled (Zpos m2) (Zpos m1)); assumption.
Qed.

Lemma SFcompare_antisym (x y : spec_float) :
  SFcompare y x = option_map CompOpp (SFcompare x y).
Proof.
  destruct x as [sx|sx| |sx mx ex], y as [sy|sy| |sy my ey]; cbn [SFcompare option_map];
    try reflexivity; try (destruct sx; reflexivity); try (destruct sy; reflexivity);
    try (destruct sx, sy; reflexivity).
  destruct sx, sy; cbn [CompOpp]; try reflexivity; f_equal;
    rewrite (Z.compare_antisym ex ey);
    destruct (ex ?= ey); cbn [CompOpp]; try reflexivity;
    rewrite (Pos.compare_cont_antisym mx my Eq); cbn [CompOpp];
    destruct (Pos.compare_cont Eq mx my); reflexivity.
Qed.

Lemma SFcompare_refl (x : spec_float) :
  x <> S754_nan -> SFcompare x x = Some Eq.
Proof.
  destruct x as [s|s| |s m e]; intros H; try congruence; cbn [SFcompare];
    try (destruct s; reflexivity).
  rewrite Z.compare_refl, Pos.compare_cont_refl. destruct s; reflexivity.
Qed.


Lemma shr_1_keeps_nonneg mrs : 0 <= shr_m mrs -> 0 <= shr_m (shr_1 mrs).
Proof.
  destruct mrs as [m r s]. cbn [shr_m]. intros H.
  rewrite shr_1_nonneg by assumption. cbn [shr_m]. apply Z.div_pos; lia.
Qed.

Lemma shr_keeps_nonneg mrs e n : 0 <= shr_m mrs -> 0 <= shr_m (fst (shr mrs e n)).
Proof.
  intros H. destruct n as [|p|p]; cbn [shr fst]; try assumption.
  rewrite iter_pos_nat. induction (Pos.to_nat p) as [|k IH]; [assumption|].
  change (Nat.iter (S k) shr_1 mrs) with (shr_1 (Nat.iter k shr_1 mrs)).
  apply shr_1_keeps_nonneg, IH.
Qed.

Lemma shr_record_of_loc_m m l : shr_m (shr_record_of_loc m l) = m.
Proof. destruct l as [|[]]; reflexivity. Qed.

Lemma round_nearest_even_nonneg m l : 0 <= m -> 0 <= round_nearest_even m l.
Proof. intros H. destruct l as [|[]]; cbn [round_nearest_even]; try destruct (Z.even m); lia. Qed.

Lemma binary_round_aux_sign s (mx ex : Z) lx :
  0 <= mx -> has_sign s (binary_round_aux 53 1024 s mx ex lx).
Proof.
  intros H. unfold binary_round_aux, shr_fexp.
  set (n1 := fexp 53 1024 (Zdigits2 mx + ex) - ex).
  pose proof (shr_keeps_nonneg (shr_record_of_loc mx lx) ex n1) as H1.
  rewrite shr_record_of_loc_m in H1. specialize (H1 H).
  destruct (shr (shr_record_of_loc mx lx) ex n1) as [mrs' e']. cbn [fst] in H1.
  set (m1 := round_nearest_even (shr_m mrs') (loc_of_shr_record mrs')).
  assert (H2 : 0 <= m1) by (apply round_nearest_even_nonneg; assumption).
  set (n2 := fexp 53 1024 (Zdigits2 m1 + e') - e').
  pose proof (shr_keeps_nonneg (shr_record_of_loc m1 loc_Exact) e' n2) as H3.
  rewrite shr_record_of_loc_m in H3. specialize (H3 H2).
  destruct (shr (shr_record_of_loc m1 loc_Exact) e' n2) as [mrs'' e'']. cbn [fst] in H3.
  destruct (shr_m mrs'') as [|p|p]; [reflexivity| |lia].
  destruct (e'' <=? 1024 - 53); reflexivity.
Qed.

(** Rounding a positive integer at an exponent no smaller than the
    smallest one gives a number that is not zero. *)
Lemma binary_round_shape s (M : positive) e :
  -1074 <= e ->
  (exists m' e', binary_round 53 1024 s M e = S754_finite s m' e')
  \/ binary_round 53 1024 s M e = S754_infinity s.
Proof.
  intros He. unfold binary_round. rewrite fexp_eq.
  set (d := Zpos (digits2_pos M)) in *.
  destruct (Z.le_gt_cases d 53) as [Hd|Hd].
  - destruct (shl_align_spec M e (Z.max (d + e - 53) (-1074)) ltac:(lia)) as (mz & -> & Hmz & Hdz).
    set (e' := Z.max (d + e - 53) (-1074)) in *.
    unfold binary_round_aux, shr_fexp.
    cbn [Zdigits2 shr_record_of_loc].
    assert (Hc : fexp 53 1024 (Zpos (digits2_pos mz) + e') = e')
      by (rewrite fexp_eq, Hdz; fold d; lia).
    rewrite Hc, Z.sub_diag, shr_zero.
    cbn [shr_m loc_of_shr_record round_nearest_even Zdigits2 shr_record_of_loc].
    rewrite Hc, Z.sub_diag, shr_zero. cbn [shr_m].
    destruct (e' <=? 1024 - 53); [left; eauto|right; reflexivity].
  - assert (shl_align M e (Z.max (d + e - 53) (-1074)) = (M, e)) as ->.
    { unfold shl_align. destruct (Z.max (d + e - 53) (-1074) - e) eqn:E; try reflexivity; lia. }
    destruct (binary_round_aux_shift s M e Hd He) as [Hb ->].
    cbv zeta.
    destruct (_ =? _); destruct (_ <=? _);
      (left; eexists _, _; reflexivity) || (right; reflexivity).
Qed.

Lemma sval_aligned (m : positive) (e ez : Z) (mz : positive) :
  -1074 <= ez <= e -> Zpos mz = Zpos m * 2 ^ (e - ez) ->
  Zpos mz * 2 ^ (ez + 1074) = Zpos m * 2 ^ (e + 1074).
Proof.
  intros H ->. rewrite <- Z.mul_assoc, <- Z.pow_add_r by lia. do 2 f_equal. lia.
Qed.

Lemma digits_bound_of_val (M : positive) (E k : Z) :
  0 <= E -> Zpos M * 2 ^ E < 2 ^ k -> Zpos (digits2_pos M) + E <= k.
Proof.
  intros HE H. pose proof (digits2_bounds M) as [Dl _].
  set (d := Zpos (digits2_pos M)) in *. assert (Hd1 : 1 <= d) by (unfold d; lia).
  pose proof (pow2_pos E HE) as PE.
  assert (Hm : 2 ^ (d - 1) * 2 ^ E <= Zpos M * 2 ^ E)
    by (apply Z.mul_le_mono_nonneg_r; lia).
  rewrite <- Z.pow_add_r in Hm by lia.
  assert (Hlt : 2 ^ (d - 1 + E) < 2 ^ k) by lia.
  apply Z.pow_lt_mono_r_iff in Hlt; try lia.
  destruct (Z.le_gt_cases 0 k); [assumption|].
  rewrite (Z.pow_neg_r 2 k) in H by lia. lia.
Qed.

(** The value that rounding keeps is at most half a unit above. *)
Lemma rne_upper (M n : Z) : 0 <= M -> 0 < n ->
  rne M n * 2 ^ n <= M + 2 ^ (n - 1).
Proof.
  intros HM Hn. destruct (rne_spec M n HM Hn) as [H _].
  pose proof (pow2_pos n ltac:(lia)) as Pn.
  pose proof (pow2_pos (n - 1) ltac:(lia)) as Ph.
  assert (E : 2 ^ n = 2 * 2 ^ (n - 1)).
  { replace n with (Z.succ (n - 1)) at 1 by lia. rewrite Z.pow_succ_r by lia. lia. }
  pose proof (Z.div_mod M (2 ^ n) ltac:(lia)) as Hdm.
  pose proof (Z.mod_pos_bound M (2 ^ n) Pn) as Hr.
  destruct H as [->|[-> Hh]]; lia.
Qed.

Lemma sub_in_unit (ma : positive) ea (mb : positive) eb :
  bounded 53 1024 ma ea = true -> bounded 53 1024 mb eb = true ->
  sval (S754_finite false ma ea) <= sval (S754_finite false mb eb) <= 2 ^ 1074 ->
  let d := SFsub 53 1024 (S754_finite false mb eb) (S754_finite false ma ea) in
  d = S754_zero false
  \/ exists m e, d = S754_finite false m e /\ -1074 <= e
       /\ sval (S754_finite false ma ea) + sval d
          <= sval (S754_finite false mb eb) + 2 ^ 1020.
Proof.
  intros Ba Bb [Hab Hb1]. cbn [SFsub cond_Zopp sval] in *.
  destruct (bounded_facts _ _ Ba) as (Ea & _ & _).
  destruct (bounded_facts _ _ Bb) as (Eb & _ & _).
  set (ez := Z.min eb ea).
  destruct (shl_align_spec mb eb ez ltac:(lia)) as (Mb & -> & HMb & _).
  destruct (shl_align_spec ma ea ez ltac:(lia)) as (Ma & -> & HMa & _).
  cbn [fst].
  pose proof (sval_aligned mb eb ez Mb ltac:(lia) HMb) as Vb.
  pose proof (sval_aligned ma ea ez Ma ltac:(lia) HMa) as Va.
  pose proof (pow2_pos (ez + 1074) ltac:(lia)) as PP.
  set (P := 2 ^ (ez + 1074)) in *.
  rewrite <- Va, <- Vb in *.
  destruct (Zpos Mb - Zpos Ma) as [|M|M] eqn:EM.
  - left. reflexivity.
  - right. cbn [binary_normalize].
    assert (HV : Zpos M * P = Zpos Mb * P - Zpos Ma * P) by lia.
    assert (Hd : Zpos (digits2_pos M) + (ez + 1074) <= 1074).
    { apply digits_bound_of_val; [lia|]. fold P. nia. }
    destruct (binary_round_val false M ez ltac:(lia) ltac:(lia))
      as (m' & e' & -> & He' & Hval).
    exists m', e'. split; [reflexivity|]. split; [assumption|]. cbn [sval].
    destruct Hval as [[_ ->]|[Hd53 ->]]; fold P; [lia|].
    set (n := Zpos (digits2_pos M) - 53) in *.
    pose proof (rne_upper (Zpos M) n ltac:(lia) ltac:(lia)) as Hup.
    assert (E2 : 2 ^ (ez + n + 1074) = 2 ^ n * P).
    { unfold P. rewrite <- Z.pow_add_r by lia. f_equal. lia. }
    assert (Hh : 2 ^ (n - 1) * P <= 2 ^ 1020).
    { unfold P. rewrite <- Z.pow_add_r by lia. apply Z.pow_le_mono_r; lia. }
    rewrite E2.
    assert (rne (Zpos M) n * 2 ^ n * P <= (Zpos M + 2 ^ (n - 1)) * P)
      by (apply Z.mul_le_mono_nonneg_r; lia).
    lia.
  - exfalso. nia.
Qed.

Lemma add_in_unit (ma : positive) ea (md : positive) ed :
  -1074 <= ea -> -1074 <= ed ->
  sval (S754_finite false ma ea) + sval (S754_finite false md ed) <= 2 ^ 1074 + 2 ^ 1020 ->
  exists m e,
    SFadd 53 1024 (S754_finite false ma ea) (S754_finite false md ed) = S754_finite false m e
    /\ sval (S754_finite false m e) <= 2 ^ 1074.
Proof.
  intros Ea Ed Hsum. cbn [SFadd cond_Zopp sval] in *.
  set (ez := Z.min ea ed).
  destruct (shl_align_spec ma ea ez ltac:(lia)) as (Ma & -> & HMa & _).
  destruct (shl_align_spec md ed ez ltac:(lia)) as (Md & -> & HMd & _).
  cbn [fst].
  pose proof (sval_aligned ma ea ez Ma ltac:(lia) HMa) as Va.
  pose proof (sval_aligned md ed ez Md ltac:(lia) HMd) as Vd.
  pose proof (pow2_pos (ez + 1074) ltac:(lia)) as PP.
  rewrite <- Va, <- Vd in Hsum. clear Va Vd HMa HMd.
  change (Zpos Ma + Zpos Md) with (Zpos (Ma + Md)).
  cbn [binary_normalize]. set (M := (Ma + Md)%positive).
  assert (HV : Zpos M * 2 ^ (ez + 1074) <= 2 ^ 1074 + 2 ^ 1020) by (unfold M; lia).
  clear Hsum.
  assert (Hd : Zpos (digits2_pos M) + (ez + 1074) <= 1075)
    by (apply digits_bound_of_val; lia).
  destruct (binary_round_val false M ez ltac:(lia) ltac:(lia))
    as (m' & e' & -> & He' & Hval).
  exists m', e'. split; [reflexivity|]. cbn [sval].
  pose proof (digits2_bounds M) as [Dl Du].
  set (d := Zpos (digits2_pos M)) in *.
  destruct Hval as [[Hd53 ->]|[Hd53 ->]].
  - (* no bit is dropped *)
    assert (HM : Zpos M < 2 ^ 53).
    { assert (2 ^ d <= 2 ^ 53) by (apply Z.pow_le_mono_r; lia). lia. }
    destruct (Z.le_gt_cases (ez + 1074) 1021) as [HE|HE].
    + assert (2 ^ (ez + 1074) <= 2 ^ 1021) by (apply Z.pow_le_mono_r; lia).
      assert (Zpos M * 2 ^ (ez + 1074) <= 2 ^ 53 * 2 ^ 1021)
        by (apply Z.mul_le_mono_nonneg; lia).
      change (2 ^ 53 * 2 ^ 1021) with (2 ^ 1074) in *. assumption.
    + rewrite (pow2_split 1022 (ez + 1074)) in * by lia.
      pose proof (pow2_pos (ez + 1074 - 1022) ltac:(lia)).
      set (K := 2 ^ (ez + 1074 - 1022)) in *.
      assert (HX : Zpos M * K * 2 ^ 1022 <= 2 ^ 1074 + 2 ^ 1020) by lia.
      set (X := Zpos M * K) in *.
      replace (Zpos M * (2 ^ 1022 * K)) with (X * 2 ^ 1022) by (unfold X; ring).
      lia.
  - (* the low [n] bits are rounded *)
    set (n := d - 53) in *.
    assert (Hn : 0 < n) by lia.
    destruct (rne_spec (Zpos M) n ltac:(lia) Hn) as [Hr Hlow].
    pose proof (pow2_pos n ltac:(lia)) as Pn.
    pose proof (Z.div_mod (Zpos M) (2 ^ n) ltac:(lia)) as Hdm.
    pose proof (Z.mod_pos_bound (Zpos M) (2 ^ n) Pn) as Hrb.
    set (q := Zpos M / 2 ^ n) in *. set (r := Zpos M mod 2 ^ n) in *.
    assert (Hq : 2 ^ 52 <= q < 2 ^ 53).
    { replace d with (n + 53) in Du by (unfold n; lia).
      replace (d - 1) with (n + 52) in Dl by (unfold n; lia).
      rewrite Z.pow_add_r in Dl, Du by lia. split.
      - apply Z.div_le_lower_bound; lia.
      - apply Z.div_lt_upper_bound; lia. }
    set (j := ez + n + 1074).
    assert (Hj : 1 <= j <= 1022) by (unfold j; lia).
    destruct (Z.le_gt_cases j 1021) as [Hj1|Hj1].
    + assert (2 ^ j <= 2 ^ 1021) by (apply Z.pow_le_mono_r; lia).
      pose proof (pow2_pos j ltac:(lia)).
      assert (rne (Zpos M) n * 2 ^ j <= 2 ^ 53 * 2 ^ 1021)
        by (apply Z.mul_le_mono_nonneg; lia).
      change (2 ^ 53 * 2 ^ 1021) with (2 ^ 1074) in *. assumption.
    + assert (j = 1022) as Ej by lia. rewrite Ej.
      assert (E2 : 2 ^ n * 2 ^ (ez + 1074) = 2 ^ 1022).
      { rewrite <- Z.pow_add_r by lia. f_equal. lia. }
      assert (E3 : 2 ^ (n - 1) * 2 ^ (ez + 1074) = 2 ^ 1021).
      { rewrite <- Z.pow_add_r by lia. f_equal. lia. }
      set (P := 2 ^ (ez + 1074)) in *.
      assert (HVq : q * 2 ^ 1022 + r * P <= 2 ^ 1074 + 2 ^ 1020).
      { rewrite <- E2. replace (q * (2 ^ n * P) + r * P) with ((2 ^ n * q + r) * P) by ring.
        rewrite <- Hdm. exact HV. }
      assert (HrP : 0 <= r * P) by (apply Z.mul_nonneg_nonneg; lia).
      assert (q = 2 ^ 52) as Eq52 by lia.
      assert (Hlt : r * P < 2 ^ (n - 1) * P) by (rewrite E3; lia).
      apply Z.mul_lt_mono_pos_r in Hlt; [|assumption].
      rewrite (Hlow Hlt), Eq52. change (2 ^ 52 * 2 ^ 1022) with (2 ^ 1074). lia.
Qed.

(** ** Numbers of the unit interval *)



Lemma Prim2SF_zero : Prim2SF 0 = S754_zero false.
Proof. reflexivity. Qed.

Lemma Prim2SF_one : Prim2SF 1 = sf_one.
Proof. reflexivity. Qed.

Lemma sval_pos s m e : -1074 <= e -> 0 < sval (S754_finite s m e).
Proof. intros. cbn [sval]. pose proof (pow2_pos (e + 1074) ltac:(lia)). lia. Qed.

Lemma in_unit_ltb (x y : spec_float) :
  in_unit x -> in_unit y -> SFltb x y = (sval x <? sval y).
Proof.
  intros [->|(mx & ex & -> & Bx & Hx)] [->|(my & ey & -> & By & Hy)]; unfold SFltb.
  - reflexivity.
  - destruct (bounded_facts _ _ By) as (E & _).
    pose proof (sval_pos false my ey ltac:(lia)). cbn [SFcompare].
    symmetry; apply Z.ltb_lt. cbn [sval] in *. lia.
  - destruct (bounded_facts _ _ Bx) as (E & _).
    pose proof (sval_pos false mx ex ltac:(lia)). cbn [SFcompare].
    symmetry; apply Z.ltb_ge. cbn [sval] in *. lia.
  - rewrite SFcompare_pos_val by assumption. unfold Z.ltb.
    destruct (_ ?= _); reflexivity.
Qed.

Lemma in_unit_leb_one (x : spec_float) : in_unit x -> SFleb x sf_one = true.
Proof.
  intros [->|(m & e & -> & B & H)]; [reflexivity|].
  unfold SFleb, sf_one. rewrite SFcompare_pos_val by (assumption || reflexivity).
  change (sval (S754_finite false 4503599627370496 (-52))) with (2 ^ 1074).
  destruct (Z.compare_spec (sval (S754_finite false m e)) (2 ^ 1074)); try reflexivity. lia.
Qed.

Lemma in_unit_zero_leb (x : spec_float) : in_unit x -> SFleb (S754_zero false) x = true.
Proof. intros [->|(m & e & -> & B & H)]; reflexivity. Qed.

Lemma in_unit_sub (a b : spec_float) :
  in_unit a -> in_unit b -> sval a <= sval b ->
  let d := SFsub 53 1024 b a in
  d = S754_zero false
  \/ (a = S754_zero false /\ d = b)
  \/ (exists ma ea m e, a = S754_finite false ma ea /\ d = S754_finite false m e
       /\ -1074 <= e /\ sval a + sval d <= 2 ^ 1074 + 2 ^ 1020).
Proof.
  intros [->|(ma & ea & -> & Ba & Ha)] [->|(mb & eb & -> & Bb & Hb)] Hab.
  - left; reflexivity.
  - right; left. split; reflexivity.
  - exfalso. destruct (bounded_facts _ _ Ba) as (E & _).
    pose proof (sval_pos false ma ea ltac:(lia)). cbn [sval] in *. lia.
  - destruct (sub_in_unit ma ea mb eb Ba Bb ltac:(lia)) as [Hz|(m & e & Hd & He & Hv)].
    + left; exact Hz.
    + right; right. exists ma, ea, m, e. cbv zeta. rewrite Hd in *.
      repeat split; try assumption. lia.
Qed.

(** ** The order of the numbers that are not negative *)


Lemma sval_lt_inf s m e : bounded 53 1024 m e = true -> sval (S754_finite s m e) < 2 ^ 2100.
Proof.
  intros B. destruct (bounded_facts _ _ B) as (E & _).
  destruct (bounded_range _ _ B) as (U & _). cbn [sval].
  assert (2 ^ (e + 1074) <= 2 ^ 2045) by (apply Z.pow_le_mono_r; lia).
  pose proof (pow2_pos (e + 1074) ltac:(lia)).
  assert (Zpos m * 2 ^ (e + 1074) < 2 ^ 53 * 2 ^ 2045).
  { apply Z.le_lt_trans with (Zpos m * 2 ^ 2045).
    - apply Z.mul_le_mono_nonneg_l; lia.
    - apply Z.mul_lt_mono_pos_r; [apply pow2_pos; lia|assumption]. }
  assert (2 ^ 53 * 2 ^ 2045 <= 2 ^ 2100)
    by (rewrite <- Z.pow_add_r by lia; apply Z.pow_le_mono_r; lia).
  lia.
Qed.

Lemma nonneg_compare (x y : spec_float) :
  SpecFloat.valid_binary 53 1024 x = true -> SpecFloat.valid_binary 53 1024 y = true ->
  has_sign false x -> has_sign false y ->
  SFcompare x y = Some (rank x ?= rank y).
Proof.
  intros Vx Vy Sx Sy.
  destruct x as [sx|sx| |sx mx ex], y as [sy|sy| |sy my ey];
    cbn [has_sign] in Sx, Sy; try contradiction; subst;
    cbn [SpecFloat.valid_binary] in Vx, Vy.
  - reflexivity.
  - reflexivity.
  - destruct (bounded_facts _ _ Vy) as (E & _).
    pose proof (sval_pos false my ey ltac:(lia)) as Hp. cbn [SFcompare rank].
    f_equal. symmetry. apply Z.compare_lt_iff. exact Hp.
  - reflexivity.
  - reflexivity.
  - pose proof (sval_lt_inf false my ey Vy) as Hl. cbn [SFcompare rank].
    f_equal. symmetry. apply Z.compare_gt_iff. exact Hl.
  - destruct (bounded_facts _ _ Vx) as (E & _).
    pose proof (sval_pos false mx ex ltac:(lia)) as Hp. cbn [SFcompare rank].
    f_equal. symmetry. apply Z.compare_gt_iff. exact Hp.
  - pose proof (sval_lt_inf false mx ex Vx) as Hl. cbn [SFcompare rank].
    f_equal. symmetry. apply Z.compare_lt_iff. exact Hl.
  - apply SFcompare_pos_val; assumption.
Qed.

(** The sign of a difference is the order of its operands. *)
Lemma sub_sign (x y : spec_float) :
  SpecFloat.valid_binary 53 1024 x = true -> SpecFloat.valid_binary 53 1024 y = true ->
  has_sign false x -> has_sign false y ->
  SFltb (S754_zero false) (SFsub 53 1024 x y) = (rank y <? rank x).
Proof.
  intros Vx Vy Sx Sy.
  assert (Hl : (rank y <? rank x) = SFltb y x).
  { unfold SFltb, Z.ltb. rewrite (nonneg_compare y x Vy Vx Sy Sx). reflexivity. }
  rewrite Hl. clear Hl.
  destruct x as [sx|sx| |sx mx ex], y as [sy|sy| |sy my ey];
    cbn [has_sign] in Sx, Sy; try contradiction; subst;
    cbn [SpecFloat.valid_binary] in Vx, Vy; try reflexivity.
  unfold SFltb at 2. rewrite SFcompare_pos_val by assumption.
  cbn [SFsub cond_Zopp sval].
  destruct (bounded_facts _ _ Vx) as (Ex & _).
  destruct (bounded_facts _ _ Vy) as (Ey & _).
  set (ez := Z.min ex ey).
  destruct (shl_align_spec mx ex ez ltac:(lia)) as (Mx & -> & HMx & _).
  destruct (shl_align_spec my ey ez ltac:(lia)) as (My & -> & HMy & _).
  cbn [fst].
  rewrite <- (sval_aligned mx ex ez Mx ltac:(lia) HMx).
  rewrite <- (sval_aligned my ey ez My ltac:(lia) HMy).
  pose proof (pow2_pos (ez + 1074) ltac:(lia)) as PP.
  set (P := 2 ^ (ez + 1074)) in *.
  destruct (Zpos Mx - Zpos My) as [|M|M] eqn:EM; cbn [binary_normalize].
  - assert (Zpos My * P = Zpos Mx * P) as -> by (f_equal; lia).
    rewrite Z.compare_refl. reflexivity.
  - assert (Hlt : Zpos My * P < Zpos Mx * P) by (apply Z.mul_lt_mono_pos_r; lia).
    apply Z.compare_lt_iff in Hlt. rewrite Hlt.
    destruct (binary_round_shape false M ez ltac:(lia)) as [(m' & e' & ->)| ->]; reflexivity.
  - assert (Hgt : Zpos Mx * P < Zpos My * P) by (apply Z.mul_lt_mono_pos_r; lia).
    apply Z.compare_gt_iff in Hgt. rewrite Hgt.
    destruct (binary_round_shape true M ez ltac:(lia)) as [(m' & e' & ->)| ->]; reflexivity.
Qed.

(** ** Clamped coordinates *)

Lemma is_nan_spec (f : float) :
  is_nan f = match Prim2SF f with S754_nan => true | _ => false end.
Proof.
  unfold is_nan. rewrite eqb_spec. unfold SFeqb.
  destruct (Prim2SF f) eqn:E; try (rewrite SFcompare_refl by discriminate; reflexivity).
  reflexivity.
Qed.

Lemma not_nan_has_sign (f : float) :
  is_nan f = false -> exists s, has_sign s (Prim2SF f).
Proof.
  rewrite is_nan_spec. destruct (Prim2SF f) as [s|s| |s m e]; try discriminate;
    intros _; exists s; reflexivity.
Qed.

Lemma Math_max_zero (q : float) :
  is_nan q = false ->
  Js.Math_max 0 q = if (0 <? q)%float then q else 0%float.
Proof.
  intros H. unfold Js.Math_max. rewrite H.
  change (is_nan 0) with false. cbn [orb].
  destruct (0 <? q)%float; [reflexivity|].
  change (Js.is_neg_zero 0) with false. rewrite andb_false_r. reflexivity.
Qed.

Lemma Math_min_one (c : float) :
  is_nan c = false ->
  Js.Math_min 1 c = if (c <? 1)%float then c else 1%float.
Proof.
  intros H. unfold Js.Math_min. rewrite H.
  change (is_nan 1) with false. cbn [orb].
  destruct (c <? 1)%float; [reflexivity|].
  change (Js.is_pos_zero 1) with false. rewrite andb_false_r. reflexivity.
Qed.

Lemma valid_finite (f : float) s m e :
  Prim2SF f = S754_finite s m e -> bounded 53 1024 m e = true.
Proof. intros H. pose proof (Prim2SF_valid f) as V. rewrite H in V. exact V. Qed.

Lemma clamp01_in_unit (q : float) :
  is_nan q = false -> in_unit (Prim2SF (Geometry.clamp01 q)).
Proof.
  intros H. unfold Geometry.clamp01. rewrite (Math_max_zero q H).
  destruct (0 <? q)%float eqn:Hpos.
  - rewrite (Math_min_one q H).
    destruct (q <? 1)%float eqn:Hlt.
    + rewrite ltb_spec in Hpos, Hlt. rewrite Prim2SF_zero in Hpos. rewrite Prim2SF_one in Hlt.
      destruct (Prim2SF q) as [s|s| |s m e] eqn:E; try discriminate.
      * destruct s; discriminate.
      * destruct s; [discriminate|].
        right. exists m, e. pose proof (valid_finite q _ _ _ E) as B.
        repeat split; [assumption|].
        unfold SFltb, sf_one in Hlt. rewrite SFcompare_pos_val in Hlt by (assumption || reflexivity).
        change (sval (S754_finite false 4503599627370496 (-52))) with (2 ^ 1074) in Hlt.
        destruct (Z.compare_spec (sval (S754_finite false m e)) (2 ^ 1074)); try discriminate. lia.
    + right. exists 4503599627370496%positive, (-52). repeat split. reflexivity.
  - rewrite Math_min_one by reflexivity. left. reflexivity.
Qed.

Lemma Prim2SF_infinity : Prim2SF infinity = S754_infinity false.
Proof. reflexivity. Qed.

Lemma finite_cases (f : float) :
  is_finite f = true ->
  (exists s, Prim2SF f = S754_zero s) \/ (exists s m e, Prim2SF f = S754_finite s m e).
Proof.
  unfold is_finite. rewrite negb_true_iff, orb_false_iff. intros [Hn Hi].
  rewrite is_nan_spec in Hn. unfold is_infinity in Hi.
  rewrite eqb_spec, abs_spec, Prim2SF_infinity in Hi.
  destruct (Prim2SF f) as [s|s| |s m e]; try discriminate; eauto.
Qed.

Lemma positive_finite (p : float) :
  is_finite p = true -> (p <=? 0)%float = false ->
  exists m e, Prim2SF p = S754_finite false m e.
Proof.
  intros Hf Hp. rewrite leb_spec, Prim2SF_zero in Hp.
  destruct (finite_cases p Hf) as [[s E]|(s & m & e & E)]; rewrite E in Hp.
  - destruct s; discriminate.
  - destruct s; [discriminate|eauto].
Qed.

Lemma SFdiv_core_nonneg (m1 : positive) e1 (m2 : positive) e2 :
  0 <= (SFdiv_core_binary 53 1024 (Zpos m1) e1 (Zpos m2) e2).1.1.
Proof.
  unfold SFdiv_core_binary.
  set (s := e1 - e2 - _).
  set (m' := match s with Z.pos _ => Z.shiftl (Zpos m1) s | 0 => Zpos m1 | Z.neg _ => 0 end).
  assert (Hm : 0 <= m').
  { unfold m'. destruct s; try lia. apply Z.shiftl_nonneg. lia. }
  pose proof (Z_div_mod m' (Zpos m2) ltac:(lia)) as Hd.
  destruct (Z.div_eucl m' (Zpos m2)) as [q r]. cbn [fst]. nia.
Qed.

Lemma div_not_nan (x p : float) :
  is_finite x = true -> is_finite p = true -> (p <=? 0)%float = false ->
  is_nan (x / p) = false.
Proof.
  intros Hx Hf Hp. rewrite is_nan_spec, div_spec.
  destruct (positive_finite p Hf Hp) as (m & e & ->).
  destruct (finite_cases x Hx) as [[s ->]|(s & mx & ex & ->)]; [reflexivity|].
  unfold SF64div. cbn [SFdiv].
  pose proof (SFdiv_core_nonneg mx ex m e) as Hq.
  change prec with 53. change emax with 1024.
  destruct (SFdiv_core_binary 53 1024 (Zpos mx) ex (Zpos m) e) as [[mz ez] lz].
  cbn [fst] in Hq.
  pose proof (binary_round_aux_sign (xorb s false) mz ez lz Hq) as Hs.
  destruct (binary_round_aux 53 1024 (xorb s false) mz ez lz); [reflexivity..|destruct Hs|reflexivity].
Qed.

Lemma in_unit_not_nan (c : float) : in_unit (Prim2SF c) -> is_nan c = false.
Proof.
  rewrite is_nan_spec. intros [->|(m & e & -> & _)]; reflexivity.
Qed.

(** The lower corner, and the sum of the lower corner and the extent,
    of two clamped coordinates. *)
Lemma extent_bound (lo hi : float) :
  in_unit (Prim2SF lo) -> in_unit (Prim2SF hi) -> (hi <? lo)%float = false ->
  let w := Js.Math_max 0 (hi - lo)%float in
  (0 <=? lo)%float = true /\ (lo + w <=? 1)%float = true
  /\ (Prim2SF w = S754_zero false \/ exists m e, Prim2SF w = S754_finite false m e).
Proof.
  intros Ulo Uhi Hle w.
  rewrite ltb_spec, (in_unit_ltb _ _ Uhi Ulo) in Hle. apply Z.ltb_ge in Hle.
  split; [rewrite leb_spec, Prim2SF_zero; apply in_unit_zero_leb; assumption|].
  pose proof (in_unit_sub _ _ Ulo Uhi Hle) as Hsub. cbv zeta in Hsub.
  change (SFsub 53 1024 (Prim2SF hi) (Prim2SF lo)) with (SF64sub (Prim2SF hi) (Prim2SF lo)) in Hsub.
  rewrite <- sub_spec in Hsub.
  assert (Hnan : is_nan (hi - lo) = false).
  { rewrite is_nan_spec.
    destruct Hsub as [->|[[_ ->]|(ma & ea & m & e & _ & -> & _)]]; try reflexivity.
    destruct Uhi as [->|(m & e & -> & _)]; reflexivity. }
  assert (Hw : w = if (0 <? hi - lo)%float then (hi - lo)%float else 0%float)
    by (apply Math_max_zero; assumption).
  rewrite leb_spec, add_spec, Prim2SF_one.
  change (SF64add ?a ?b) with (SFadd 53 1024 a b).
  assert (Hz : Prim2SF (hi - lo) = S754_zero false ->
               SFleb (SFadd 53 1024 (Prim2SF lo) (Prim2SF w)) sf_one = true
               /\ Prim2SF w = S754_zero false).
  { intros Ez. assert (w = 0%float) as ->.
    { rewrite Hw, ltb_spec, Ez. reflexivity. }
    rewrite Prim2SF_zero. split; [|reflexivity].
    pose proof (in_unit_leb_one _ Ulo) as Hl.
    destruct Ulo as [E|(m & e & E & _)]; rewrite E in *; exact Hl. }
  destruct Hsub as [Ez|[[Elo Ed]|(ma & ea & m & e & Elo & Ed & He & Hv)]].
  - destruct (Hz Ez) as [H1 H2]. split; [exact H1|left; exact H2].
  - destruct Uhi as [Ehi|(m & e & Ehi & Bhi & Hhi)].
    + rewrite Ehi in Ed. destruct (Hz Ed) as [H1 H2]. split; [exact H1|left; exact H2].
    + assert (w = (hi - lo)%float) as ->.
      { rewrite Hw, ltb_spec, Ed, Ehi. reflexivity. }
      rewrite Ed, Elo, Ehi. cbn [SFadd]. split; [|right; eauto].
      apply in_unit_leb_one. right. exists m, e. rewrite <- Ehi. repeat split; assumption.
  - assert (w = (hi - lo)%float) as Ew.
    { rewrite Hw, ltb_spec, Ed. reflexivity. }
    rewrite Ew. split; [|right; eauto].
    pose proof (Prim2SF_valid (lo + (hi - lo))%float) as V.
    rewrite add_spec in V. change (SF64add ?a ?b) with (SFadd 53 1024 a b) in V.
    rewrite Ed, Elo in *.
    destruct (bounded_facts ma ea) as (Ea & _).
    { destruct Ulo as [?|(m0 & e0 & E0 & B0 & _)]; [discriminate|]. congruence. }
    destruct (add_in_unit ma ea m e ltac:(lia) He Hv) as (m' & e' & Es & Hs).
    rewrite Es in *. apply in_unit_leb_one. right. exists m', e'. auto.
Qed.

Lemma ordered_corners (c1 c2 : float) :
  in_unit (Prim2SF c1) -> in_unit (Prim2SF c2) ->
  let '(lo, hi) := if (c2 <? c1)%float then (c2, c1) else (c1, c2) in
  in_unit (Prim2SF lo) /\ in_unit (Prim2SF hi) /\ (hi <? lo)%float = false.
Proof.
  intros U1 U2. destruct (c2 <? c1)%float eqn:E; repeat split; try assumption.
  rewrite ltb_spec, (in_unit_ltb _ _ U2 U1) in E.
  rewrite ltb_spec, (in_unit_ltb _ _ U1 U2). apply Z.ltb_lt in E. apply Z.ltb_ge. lia.
Qed.

Lemma all_finite_inv (pageW pageH x1p y1p x2p y2p : float) :
  Geometry.all_finite pageW pageH (x1p, y1p, x2p, y2p) = true ->
  is_finite x1p = true /\ is_finite y1p = true /\ is_finite x2p = true
  /\ is_finite y2p = true /\ is_finite pageW = true /\ is_finite pageH = true.
Proof.
  unfold Geometry.all_finite, Js.Number_isFinite. cbn [forallb].
  rewrite !andb_true_iff. tauto.
Qed.

(** A number that is not negative: [+0] or a positive finite number. *)
Lemma normalized_facts (pageW pageH : float) (u : string)
    (bb : float * float * float * float) :
  Geometry.all_finite pageW pageH bb = true →
  Geometry.bad_page_size pageW pageH = false →
  let b := Geometry.normalized pageW pageH u bb in
  ((0 <=? HitBox.x b)%float = true ∧ (0 <=? HitBox.y b)%float = true
   ∧ (HitBox.x b + HitBox.w b <=? 1)%float = true
   ∧ (HitBox.y b + HitBox.h b <=? 1)%float = true)
  ∧ (Prim2SF (HitBox.w b) = S754_zero false
     ∨ ∃ m e, Prim2SF (HitBox.w b) = S754_finite false m e)
  ∧ (Prim2SF (HitBox.h b) = S754_zero false
     ∨ ∃ m e, Prim2SF (HitBox.h b) = S754_finite false m e)
  ∧ HitBox.area b = (HitBox.w b * HitBox.h b)%float.
Proof.
  destruct bb as [[[x1p y1p] x2p] y2p]. intros Hfin Hsize.
  apply all_finite_inv in Hfin. destruct Hfin as (F1 & F2 & F3 & F4 & FW & FH).
  unfold Geometry.bad_page_size in Hsize. apply orb_false_iff in Hsize as [PW PH].
  unfold Geometry.normalized.
  pose proof (clamp01_in_unit _ (div_not_nan x1p pageW F1 FW PW)) as U1.
  pose proof (clamp01_in_unit _ (div_not_nan x2p pageW F3 FW PW)) as U2.
  pose proof (clamp01_in_unit _ (div_not_nan y1p pageH F2 FH PH)) as V1.
  pose proof (clamp01_in_unit _ (div_not_nan y2p pageH F4 FH PH)) as V2.
  pose proof (ordered_corners _ _ U1 U2) as HX.
  pose proof (ordered_corners _ _ V1 V2) as HY.
  destruct (if (Geometry.clamp01 (x2p / pageW) <? Geometry.clamp01 (x1p / pageW))%float
            then _ else _) as [xlo xhi].
  destruct (if (Geometry.clamp01 (y2p / pageH) <? Geometry.clamp01 (y1p / pageH))%float
            then _ else _) as [ylo yhi].
  destruct HX as (Ux1 & Ux2 & Hx). destruct HY as (Uy1 & Uy2 & Hy).
  destruct (extent_bound xlo xhi Ux1 Ux2 Hx) as (A1 & A2 & A3).
  destruct (extent_bound ylo yhi Uy1 Uy2 Hy) as (B1 & B2 & B3).
  cbn [HitBox.x HitBox.y HitBox.w HitBox.h HitBox.area]. auto 10.
Qed.

(** ** [Array.prototype.sort] *)

Section Sort_facts.
Context {A : Type} (gt : A → A → bool).

Lemma sort_insert_perm (a : A) (l : list A) : Js.sort_insert gt a l ≡ₚ a :: l.
Proof.
  induction l as [|b l IH]; cbn [Js.sort_insert]; [reflexivity|].
  destruct (gt a b); [|reflexivity].
  rewrite IH. apply Permutation_swap.
Qed.

Lemma sort_perm (l : list A) : Js.sort gt l ≡ₚ l.
Proof.
  induction l as [|a l IH]; [reflexivity|].
  cbn [Js.sort foldr]. rewrite sort_insert_perm. fold (Js.sort gt l).
  rewrite IH. reflexivity.
Qed.

Lemma sort_elem_of (a : A) (l : list A) : a ∈ Js.sort gt l ↔ a ∈ l.
Proof. rewrite sort_perm. reflexivity. Qed.

(** On elements ([P]) on which the comparator is an ordering, the
    result is sorted: no element is moved in front of a later one. *)
Section Sorted.
Variable P : A → Prop.
Hypothesis gt_asym : ∀ a b, P a → P b → gt a b = true → gt b a = false.
Hypothesis le_trans :
  ∀ a b c, P a → P b → P c → gt a b = false → gt b c = false → gt a c = false.

Lemma sort_insert_sorted (a : A) (l : list A) :
  P a → Forall P l →
  StronglySorted (λ x y, gt x y = false) l →
  StronglySorted (λ x y, gt x y = false) (Js.sort_insert gt a l).
Proof using gt_asym le_trans.
  intros Pa Pl Hs. induction Hs as [|b l Hs IH Hb]; cbn [Js.sort_insert].
  - repeat constructor.
  - apply Forall_cons in Pl as [Pb Pl].
    destruct (gt a b) eqn:E.
    + constructor; [apply IH; assumption|].
      rewrite (sort_insert_perm a l). constructor; [|assumption].
      apply gt_asym; assumption.
    + constructor; [constructor; assumption|].
      constructor; [assumption|].
      rewrite Forall_forall in Hb, Pl |- *. intros c Hc.
      apply (le_trans a b c); auto.
Qed.

Lemma sort_sorted (l : list A) :
  Forall P l → StronglySorted (λ x y, gt x y = false) (Js.sort gt l).
Proof using gt_asym le_trans.
  induction l as [|a l IH]; intros Pl; [constructor|].
  apply Forall_cons in Pl as [Pa Pl]. cbn [Js.sort foldr]. fold (Js.sort gt l).
  apply sort_insert_sorted; [assumption| |apply IH; assumption].
  rewrite (sort_perm l). assumption.
Qed.

End Sorted.

End Sort_facts.

(** ** The order of binary64 numbers *)

Lemma ltb_leb_asym (a b : float) : (a <? b)%float = true → (b <=? a)%float = false.
Proof.
  rewrite ltb_spec, leb_spec. unfold SFltb, SFleb.
  rewrite (SFcompare_antisym (Prim2SF a) (Prim2SF b)).
  destruct (SFcompare (Prim2SF a) (Prim2SF b)) as [[]|]; cbn; congruence.
Qed.

Lemma ltb_leb_refl (a b : float) : (a <? b)%float = true → (a <=? a)%float = true.
Proof.
  rewrite ltb_spec, leb_spec. unfold SFltb, SFleb. intros H.
  rewrite SFcompare_refl; [reflexivity|].
  intros E. rewrite E in H. discriminate.
Qed.

Lemma sorted_by_area_cons (a : HitBox.t) (l : list HitBox.t) :
  sorted_by_area (a :: l) = true ↔
  Forall (λ b, (HitBox.area a <=? HitBox.area b)%float = true) l
  ∧ sorted_by_area l = true.
Proof.
  cbn [sorted_by_area]. rewrite andb_true_iff, forallb_forall, Forall_forall.
  setoid_rewrite list_elem_of_In. reflexivity.
Qed.

(** ** Hit-testing *)

Lemma pickBoxAt_Some (hitBoxes : list HitBox.t) (u v : float) (b : HitBox.t) :
  Highlight.pickBoxAt hitBoxes u v = Some b →
  ∃ before after, hitBoxes = before ++ b :: after
    ∧ Highlight.contains b u v = true
    ∧ Forall (λ b', Highlight.contains b' u v = false) before.
Proof.
  induction hitBoxes as [|a l IH]; cbn [Highlight.pickBoxAt]; [discriminate|].
  destruct (Highlight.contains a u v) eqn:E.
  - intros [= ->]. exists [], l. repeat split; [assumption|constructor].
  - intros H. destruct (IH H) as (before & after & -> & Hb & Hn).
    exists (a :: before), after. repeat split; [assumption|].
    constructor; assumption.
Qed.

Lemma pickBoxAt_None (hitBoxes : list HitBox.t) (u v : float) :
  Highlight.pickBoxAt hitBoxes u v = None ↔
  Forall (λ b', Highlight.contains b' u v = false) hitBoxes.
Proof.
  induction hitBoxes as [|a l IH]; cbn [Highlight.pickBoxAt].
  - split; [constructor|reflexivity].
  - rewrite Forall_cons. destruct (Highlight.contains a u v); [|tauto].
    split; [discriminate|intros [? _]; discriminate].
Qed.

(** In a sorted index the box picked is no larger than any box that
    contains the point. *)
Lemma pickBoxAt_smallest (hitBoxes : list HitBox.t) (u v : float) (b b' : HitBox.t) :
  sorted_by_area hitBoxes = true →
  Highlight.pickBoxAt hitBoxes u v = Some b →
  b' ∈ hitBoxes → Highlight.contains b' u v = true →
  b = b' ∨ (HitBox.area b <=? HitBox.area b')%float = true.
Proof.
  induction hitBoxes as [|a l IH]; cbn [Highlight.pickBoxAt]; [discriminate|].
  rewrite sorted_by_area_cons. intros [Ha Hs] Hp Hin Hc.
  apply elem_of_cons in Hin as [->|Hin].
  - rewrite Hc in Hp. left. congruence.
  - destruct (Highlight.contains a u v).
    + injection Hp as ->. right. rewrite Forall_forall in Ha. auto.
    + eauto.
Qed.

Lemma pickBoxAt_is_Some (hitBoxes : list HitBox.t) (u v : float) (b' : HitBox.t) :
  b' ∈ hitBoxes → Highlight.contains b' u v = true →
  is_Some (Highlight.pickBoxAt hitBoxes u v).
Proof.
  intros Hin Hc. destruct (Highlight.pickBoxAt hitBoxes u v) eqn:E; [eauto|].
  rewrite pickBoxAt_None, Forall_forall in E. rewrite (E _ Hin) in Hc. discriminate.
Qed.

Lemma contains_in_rectangle (b : HitBox.t) (u v : float) :
  Highlight.contains b u v = true ↔ in_rectangle b u v.
Proof.
  unfold Highlight.contains, in_rectangle. rewrite !andb_true_iff. tauto.
Qed.

Lemma contains_not_in_rectangle (l : list HitBox.t) (u v : float) :
  Forall (λ b, Highlight.contains b u v = false) l ↔
  Forall (λ b, ¬ in_rectangle b u v) l.
Proof.
  apply Forall_iff. intros b. rewrite <- contains_in_rectangle.
  destruct (Highlight.contains b u v); split; congruence.
Qed.

(** C1. [pickBoxAt(u, v)] returns the first box, in the order of the
    index, whose rectangle contains the point, bounds included: the box
    returned contains the point and no box before it does; it returns
    [null] exactly when no box of the index contains the point.  When
    the index is in ascending order of area and two of its boxes contain
    the point, one of an area strictly smaller than the other, the box
    returned is no larger than the smaller one and is not the larger
    one; when these two boxes are the whole index the smaller one is
    returned. *)
Theorem pickBoxAt_first_smallest (hitBoxes : list HitBox.t) (u v : float) :
  sorted_by_area hitBoxes = true →
  match Highlight.pickBoxAt hitBoxes u v with
  | Some b =>
      ∃ before after, hitBoxes = before ++ b :: after
        ∧ in_rectangle b u v
        ∧ Forall (λ b', ¬ in_rectangle b' u v) before
  | None => Forall (λ b', ¬ in_rectangle b' u v) hitBoxes
  end
  ∧ (∀ b1 b2,
       b1 ∈ hitBoxes → b2 ∈ hitBoxes →
       in_rectangle b1 u v → in_rectangle b2 u v →
       (HitBox.area b1 <? HitBox.area b2)%float = true →
       ∃ b, Highlight.pickBoxAt hitBoxes u v = Some b
            ∧ (HitBox.area b <=? HitBox.area b1)%float = true
            ∧ b ≠ b2
            ∧ (hitBoxes ≡ₚ [b1; b2] → b = b1)).
Proof.
  intros Hs. split.
  - destruct (Highlight.pickBoxAt hitBoxes u v) as [b|] eqn:E.
    + destruct (pickBoxAt_Some _ _ _ _ E) as (before & after & -> & Hc & Hn).
      exists before, after. split; [reflexivity|].
      split; [apply contains_in_rectangle, Hc|apply contains_not_in_rectangle, Hn].
    + apply contains_not_in_rectangle, pickBoxAt_None. assumption.
  - intros b1 b2 H1 H2 C1 C2 Hlt.
    apply contains_in_rectangle in C1, C2.
    destruct (pickBoxAt_is_Some _ u v b1 H1 C1) as [b E]. exists b.
    assert (Hb1 : (HitBox.area b <=? HitBox.area b1)%float = true).
    { destruct (pickBoxAt_smallest _ _ _ _ _ Hs E H1 C1) as [->|H]; [|assumption].
      apply (ltb_leb_refl _ _ Hlt). }
    assert (Hne : b ≠ b2).
    { intros ->. apply ltb_leb_asym in Hlt. congruence. }
    repeat split; try assumption.
    intros Hp.
    assert (Hin : b ∈ hitBoxes).
    { destruct (pickBoxAt_Some _ _ _ _ E) as (before & after & -> & _).
      apply elem_of_app. right. apply elem_of_cons. left. reflexivity. }
    rewrite Hp in Hin. apply elem_of_cons in Hin as [->|Hin]; [reflexivity|].
    apply list_elem_of_singleton in Hin. contradiction.
Qed.

(** ** The index built by the page-render effect *)

Lemma classify_Keep (pageW pageH : float) (l : LineWithUid.t) (b : HitBox.t) :
  Geometry.classify pageW pageH l = Geometry.Keep b ↔
  Geometry.all_finite pageW pageH (LineWithUid.bbox l) = true
  ∧ Geometry.bad_page_size pageW pageH = false
  ∧ b = Geometry.normalized pageW pageH (LineWithUid.uid l) (LineWithUid.bbox l)
  ∧ Geometry.degenerate b = false
  ∧ Geometry.too_tall b = false
  ∧ Geometry.too_large b = false
  ∧ Geometry.wide_and_tall b = false
  ∧ Geometry.page_sized b = false
  ∧ Geometry.full_extent b = false.
Proof.
  unfold Geometry.classify.
  set (b0 := Geometry.normalized pageW pageH (LineWithUid.uid l) (LineWithUid.bbox l)).
  destruct (Geometry.all_finite pageW pageH (LineWithUid.bbox l)); cbn [negb];
    [|split; [discriminate|intros [? _]; discriminate]].
  destruct (Geometry.bad_page_size pageW pageH);
    [split; [discriminate|intros (_ & ? & _); discriminate]|].
  split.
  - repeat match goal with
           | |- (if ?c then _ else _) = _ → _ => destruct c eqn:?; [discriminate|]
           end.
    intros [= <-]. repeat split; assumption.
  - intros (_ & _ & -> & -> & -> & -> & -> & -> & ->). reflexivity.
Qed.

Lemma mul_nonneg (w h : float) :
  (Prim2SF w = S754_zero false ∨ ∃ m e, Prim2SF w = S754_finite false m e) →
  (Prim2SF h = S754_zero false ∨ ∃ m e, Prim2SF h = S754_finite false m e) →
  has_sign false (Prim2SF (w * h)).
Proof.
  intros Hw Hh. rewrite mul_spec. unfold SF64mul.
  destruct Hw as [->|(mw & ew & ->)], Hh as [->|(mh & eh & ->)]; try reflexivity.
  cbn [SFmul xorb]. apply (binary_round_aux_sign false). lia.
Qed.

Lemma kept_area_nonneg (pageW pageH : float) (l : LineWithUid.t) (b : HitBox.t) :
  Geometry.classify pageW pageH l = Geometry.Keep b →
  has_sign false (Prim2SF (HitBox.area b)).
Proof.
  rewrite classify_Keep. intros (Hf & Hs & -> & _).
  destruct (normalized_facts pageW pageH (LineWithUid.uid l) (LineWithUid.bbox l) Hf Hs)
    as (_ & Hw & Hh & ->).
  apply mul_nonneg; assumption.
Qed.

Lemma loop_body_skip (production : bool) (pageObj : PageObj.t)
    (a : Render.acc) (l : LineWithUid.t) :
  kept_box pageObj l = None → Render.loop_body production pageObj a l = a.
Proof.
  unfold kept_box, Render.loop_body.
  destruct (Geometry.classify _ _ l); (reflexivity || discriminate).
Qed.

Lemma loop_body_keep (production : bool) (pageObj : PageObj.t)
    (a : Render.acc) (l : LineWithUid.t) (b : HitBox.t) :
  kept_box pageObj l = Some b →
  Render.nextHitBoxes (Render.loop_body production pageObj a l)
  = Render.nextHitBoxes a ++ [b]
  ∧ Render.console (Render.loop_body production pageObj a l)
    = Render.console a ++ option_list (warning_of production pageObj l).
Proof.
  unfold kept_box, warning_of, Render.loop_body.
  destruct (Geometry.classify _ _ l); try discriminate.
  intros [= ->]. cbn [Render.nextHitBoxes Render.console]. split; [reflexivity|].
  destruct (negb production && Geometry.large_bbox b); cbn [option_list];
    [reflexivity|rewrite app_nil_r; reflexivity].
Qed.

Lemma loop_fold (production : bool) (pageObj : PageObj.t)
    (lines : list LineWithUid.t) (a : Render.acc) :
  Render.nextHitBoxes (foldl (Render.loop_body production pageObj) a lines)
  = Render.nextHitBoxes a ++ omap (kept_box pageObj) lines
  ∧ Render.console (foldl (Render.loop_body production pageObj) a lines)
    = Render.console a ++ omap (warning_of production pageObj) lines.
Proof.
  revert a. induction lines as [|l lines IH]; intros a; cbn [foldl omap list_omap].
  - rewrite !app_nil_r. split; reflexivity.
  - destruct (IH (Render.loop_body production pageObj a l)) as [-> ->].
    destruct (kept_box pageObj l) as [b|] eqn:E.
    + destruct (loop_body_keep production pageObj a l b E) as [-> ->].
      rewrite <- !app_assoc. split; [reflexivity|].
      destruct (warning_of production pageObj l); reflexivity.
    + rewrite (loop_body_skip production pageObj a l E).
      assert (warning_of production pageObj l = None) as ->; [|split; reflexivity].
      unfold kept_box in E. unfold warning_of.
      destruct (Geometry.classify _ _ l); (reflexivity || discriminate).
Qed.

Lemma loop_nextHitBoxes (production : bool) (pageObj : PageObj.t) :
  Render.nextHitBoxes (Render.loop production pageObj)
  = omap (kept_box pageObj) (getAllLinesForPage pageObj).
Proof. unfold Render.loop. rewrite (proj1 (loop_fold _ _ _ _)). reflexivity. Qed.

Lemma loop_console (production : bool) (pageObj : PageObj.t) :
  Render.console (Render.loop production pageObj)
  = omap (warning_of production pageObj) (getAllLinesForPage pageObj).
Proof. unfold Render.loop. rewrite (proj2 (loop_fold _ _ _ _)). reflexivity. Qed.

Lemma area_gt_rank (a b : HitBox.t) :
  has_sign false (Prim2SF (HitBox.area a)) →
  has_sign false (Prim2SF (HitBox.area b)) →
  Render.area_gt a b
  = (rank (Prim2SF (HitBox.area b)) <? rank (Prim2SF (HitBox.area a))).
Proof.
  intros Ha Hb. unfold Render.area_gt.
  rewrite ltb_spec, sub_spec, Prim2SF_zero.
  apply sub_sign; auto using Prim2SF_valid.
Qed.

Lemma leb_rank (a b : float) :
  has_sign false (Prim2SF a) → has_sign false (Prim2SF b) →
  (a <=? b)%float = (rank (Prim2SF a) <=? rank (Prim2SF b)).
Proof.
  intros Ha Hb. rewrite leb_spec. unfold SFleb.
  rewrite (nonneg_compare _ _ (Prim2SF_valid a) (Prim2SF_valid b) Ha Hb).
  unfold Z.leb. destruct (_ ?= _); reflexivity.
Qed.

Lemma sorted_by_area_of_sort (l : list HitBox.t) :
  Forall (λ b, has_sign false (Prim2SF (HitBox.area b))) l →
  sorted_by_area (Js.sort Render.area_gt l) = true.
Proof.
  intros Hl.
  pose (P := λ b : HitBox.t, has_sign false (Prim2SF (HitBox.area b))).
  assert (Hs : StronglySorted (λ x y, Render.area_gt x y = false) (Js.sort Render.area_gt l)).
  { apply (sort_sorted Render.area_gt P); [| |exact Hl].
    - intros a b Pa Pb. rewrite (area_gt_rank a b Pa Pb), (area_gt_rank b a Pb Pa). lia.
    - intros a b c Pa Pb Pc.
      rewrite (area_gt_rank a b Pa Pb), (area_gt_rank b c Pb Pc), (area_gt_rank a c Pa Pc).
      lia. }
  assert (HP : Forall P (Js.sort Render.area_gt l)) by (rewrite sort_perm; exact Hl).
  induction Hs as [|a l' Hs IH Ha]; [reflexivity|].
  apply Forall_cons in HP as [Pa HP].
  apply sorted_by_area_cons. split; [|apply IH; assumption].
  rewrite Forall_forall in Ha, HP |- *. intros b Hb.
  specialize (Ha b Hb). rewrite (area_gt_rank a b Pa (HP b Hb)) in Ha.
  rewrite (leb_rank _ _ Pa (HP b Hb)). lia.
Qed.

(** The index that the effect stores is in ascending order of area. *)
Lemma hitBoxes_of_sorted (production : bool) (pageObj : PageObj.t) :
  sorted_by_area (Render.hitBoxes_of production pageObj) = true.
Proof.
  unfold Render.hitBoxes_of. apply sorted_by_area_of_sort.
  rewrite loop_nextHitBoxes, Forall_forall. intros b Hb.
  apply list_elem_of_omap in Hb as (l & _ & Hk). unfold kept_box in Hk.
  destruct (Geometry.classify _ _ l) eqn:E; try discriminate.
  injection Hk as ->. eapply kept_area_nonneg. exact E.
Qed.

Lemma pickBoxAt_first_smallest_witness :
  sorted_by_area (Render.hitBoxes_of false Example.page) = true
  ∧ ∃ b, Highlight.pickBoxAt (Render.hitBoxes_of false Example.page) 0.1 0.025 = Some b
         ∧ HitBox.uid b = "0-0"
         ∧ (HitBox.x b =? 0.1)%float = true ∧ (HitBox.y b =? 0.025)%float = true
         ∧ in_rectangle b 0.1 0.025.
Proof.
  split; [vm_compute; reflexivity|].
  pose proof (pickBoxAt_first_smallest (Render.hitBoxes_of false Example.page)
                0.1 0.025 ltac:(vm_compute; reflexivity)) as [H _].
  destruct (Highlight.pickBoxAt _ _ _) as [b|] eqn:E.
  - destruct H as (_ & _ & _ & Hin & _).
    exists b. split; [reflexivity|].
    vm_compute in E. injection E as <-.
    split; [reflexivity|]. split; [reflexivity|]. split; [reflexivity|exact Hin].
  - vm_compute in E. discriminate E.
Defined.

(** ** The normalised box *)

(** C2 as it is stated fails on the example: the width and the height of
    the box of [(100, 50, 300, 90)] on a page of 1000 by 2000 are not the
    numbers [0.20] and [0.02]. *)
Lemma example_box_not_exact :
  let b := Geometry.normalized 1000 2000 "0-0" (100, 50, 300, 90)%float in
  ¬ ((HitBox.x b =? 0.10)%float && (HitBox.y b =? 0.025)%float
     && (HitBox.w b =? 0.20)%float && (HitBox.h b =? 0.02)%float = true).
Proof. vm_compute. discriminate. Qed.

(** C2, amended.  When the four coordinates and the two page dimensions
    are finite and the dimensions positive, the box computed from them
    (division by the page size, clamping to [0, 1], ordering of the
    corners, [w = x2 - x1], [h = y2 - y1]) has [0 <= x], [0 <= y],
    [x + w <= 1] and [y + h <= 1], each evaluated in the arithmetic of
    the program.  The box of [(100, 50, 300, 90)] on a page of 1000 by
    2000 has [x = 0.10], [y = 0.025], and for [w] and [h] the binary64
    numbers just below [0.20] and [0.02]. *)
Theorem normalized_in_unit_square (pageW pageH : float) (u : string)
    (bb : float * float * float * float) :
  Geometry.all_finite pageW pageH bb = true →
  Geometry.bad_page_size pageW pageH = false →
  let b := Geometry.normalized pageW pageH u bb in
  let e := Geometry.normalized 1000 2000 u (100, 50, 300, 90)%float in
  ((0 <=? HitBox.x b)%float = true ∧ (0 <=? HitBox.y b)%float = true
   ∧ (HitBox.x b + HitBox.w b <=? 1)%float = true
   ∧ (HitBox.y b + HitBox.h b <=? 1)%float = true)
  ∧ (HitBox.x e = 0.10%float ∧ HitBox.y e = 0.025%float
     ∧ HitBox.w e = 0.19999999999999998%float
     ∧ HitBox.h e = 0.019999999999999997%float
     ∧ next_up (HitBox.w e) = 0.20%float
     ∧ next_up (HitBox.h e) = 0.02%float).
Proof.
  intros Hf Hs. split.
  - apply (normalized_facts pageW pageH u bb Hf Hs).
  - vm_compute. repeat split.
Qed.

Lemma normalized_in_unit_square_witness :
  Geometry.all_finite 1000 2000 (0, 0, 999, 1999)%float = true
  ∧ Geometry.bad_page_size 1000 2000 = false
  ∧ (let b := Geometry.normalized 1000 2000 "0-1" (0, 0, 999, 1999)%float in
     (HitBox.x b + HitBox.w b <=? 1)%float = true
     ∧ (HitBox.y b + HitBox.h b <=? 1)%float = true).
Proof.
  split; [vm_compute; reflexivity|]. split; [vm_compute; reflexivity|].
  pose proof (normalized_in_unit_square 1000 2000 "0-1" (0, 0, 999, 1999)%float
                ltac:(vm_compute; reflexivity) ltac:(vm_compute; reflexivity))
    as [(_ & _ & Hx & Hy) _].
  split; assumption.
Defined.

(** ** The size filters *)

Lemma spec_rejected_filters (b : HitBox.t) :
  spec_rejected b
  = Geometry.too_tall b || Geometry.too_large b || Geometry.wide_and_tall b
    || Geometry.page_sized b || Geometry.full_extent b.
Proof.
  unfold spec_rejected, Geometry.too_tall, Geometry.too_large, Geometry.wide_and_tall,
    Geometry.page_sized, Geometry.full_extent,
    Geometry.t_0_20, Geometry.t_0_25, Geometry.t_0_98, Geometry.t_0_50,
    Geometry.t_0_95, Geometry.t_0_999.
  rewrite !orb_assoc. reflexivity.
Qed.

Lemma positive_not_degenerate (b : HitBox.t) :
  (0 <? HitBox.w b)%float = true → (0 <? HitBox.h b)%float = true →
  Geometry.degenerate b = false.
Proof.
  intros Hw Hh. unfold Geometry.degenerate.
  rewrite (ltb_leb_asym _ _ Hw), (ltb_leb_asym _ _ Hh). reflexivity.
Qed.

(** A line with a box of positive width and height is kept exactly when
    no rejection condition holds. *)
Lemma kept_iff_not_rejected (pageObj : PageObj.t) (l : LineWithUid.t) :
  let b := Geometry.normalized (PageObj.width pageObj) (PageObj.height pageObj)
             (LineWithUid.uid l) (LineWithUid.bbox l) in
  Geometry.all_finite (PageObj.width pageObj) (PageObj.height pageObj)
    (LineWithUid.bbox l) = true →
  Geometry.bad_page_size (PageObj.width pageObj) (PageObj.height pageObj) = false →
  (0 <? HitBox.w b)%float = true → (0 <? HitBox.h b)%float = true →
  kept_box pageObj l = (if spec_rejected b then None else Some b).
Proof.
  intros b Hf Hs Hw Hh. unfold kept_box.
  pose proof (positive_not_degenerate b Hw Hh) as Hd.
  rewrite spec_rejected_filters.
  destruct (Geometry.classify _ _ l) as [| | | | | | | |b'] eqn:E.
  9: { apply classify_Keep in E as (_ & _ & Eb & _ & T1 & T2 & T3 & T4 & T5).
       fold b in Eb. subst b'. rewrite T1, T2, T3, T4, T5. reflexivity. }
  all: unfold Geometry.classify in E; fold b in E; rewrite Hf, Hs, Hd in E;
    cbn [negb] in E;
    repeat match type of E with
           | (if ?c then _ else _) = _ => destruct c eqn:?; try discriminate E
           end;
    rewrite ?orb_true_r; reflexivity.
Qed.

(** Every box of the stored index is the box of a line of the page and
    meets none of the rejection conditions. *)
Lemma indexed_not_rejected (production : bool) (pageObj : PageObj.t) (h : HitBox.t) :
  h ∈ Render.hitBoxes_of production pageObj →
  spec_rejected h = false
  ∧ ∃ l, l ∈ getAllLinesForPage pageObj
      ∧ h = Geometry.normalized (PageObj.width pageObj) (PageObj.height pageObj)
              (LineWithUid.uid l) (LineWithUid.bbox l).
Proof.
  unfold Render.hitBoxes_of.
  rewrite sort_elem_of, loop_nextHitBoxes, list_elem_of_omap.
  intros (l & Hl & Hk). unfold kept_box in Hk.
  destruct (Geometry.classify _ _ l) as [| | | | | | | |b'] eqn:E; try discriminate.
  injection Hk as ->.
  apply classify_Keep in E as (_ & _ & Eb & _ & T1 & T2 & T3 & T4 & T5).
  split; [|eauto].
  rewrite spec_rejected_filters, T1, T2, T3, T4, T5. reflexivity.
Qed.

(** C3.  For a line whose normalised box has positive width and height,
    the turn of the loop for that line appends the box to the index
    exactly when none of the rejection conditions holds, and otherwise
    changes nothing; a line of the page that passes is in the index that
    the effect stores, and every box of that index passes.  The box of [(0, 0, 999, 1999)] on a page of 1000
    by 2000 has the width [0.999] and a height of about [0.9995] and is
    rejected. *)
Theorem included_iff_not_rejected (production : bool) (pageObj : PageObj.t)
    (a : Render.acc) (l : LineWithUid.t) :
  let b := Geometry.normalized (PageObj.width pageObj) (PageObj.height pageObj)
             (LineWithUid.uid l) (LineWithUid.bbox l) in
  Geometry.all_finite (PageObj.width pageObj) (PageObj.height pageObj)
    (LineWithUid.bbox l) = true →
  Geometry.bad_page_size (PageObj.width pageObj) (PageObj.height pageObj) = false →
  (0 <? HitBox.w b)%float = true → (0 <? HitBox.h b)%float = true →
  (Render.nextHitBoxes (Render.loop_body production pageObj a l)
     = Render.nextHitBoxes a ++ [b]
   ↔ spec_rejected b = false)
  ∧ (spec_rejected b = true → Render.loop_body production pageObj a l = a)
  ∧ (spec_rejected b = false → l ∈ getAllLinesForPage pageObj →
     b ∈ Render.hitBoxes_of production pageObj)
  ∧ (b ∈ Render.hitBoxes_of production pageObj → spec_rejected b = false)
  ∧ (let h := Geometry.normalized 1000 2000 "0-1" (0, 0, 999, 1999)%float in
     HitBox.w h = 0.999%float ∧ HitBox.h h = 0.99950000000000006%float
     ∧ spec_rejected h = true
     ∧ kept_box Example.page Example.huge = None).
Proof.
  intros b Hf Hs Hw Hh.
  pose proof (kept_iff_not_rejected pageObj l Hf Hs Hw Hh) as Hk. fold b in Hk.
  split; [|split; [|split; [|split]]].
  - destruct (spec_rejected b).
    + rewrite (loop_body_skip production pageObj a l Hk). split; [|discriminate].
      intros E. apply (f_equal length) in E. rewrite length_app in E.
      cbn [length] in E. lia.
    + split; [reflexivity|]. intros _.
      apply (loop_body_keep production pageObj a l b Hk).
  - intros Hr. rewrite Hr in Hk. apply loop_body_skip. exact Hk.
  - intros Hr Hin. rewrite Hr in Hk. unfold Render.hitBoxes_of.
    rewrite sort_elem_of, loop_nextHitBoxes, list_elem_of_omap. eauto.
  - intros Hin. apply (indexed_not_rejected production pageObj b Hin).
  - vm_compute. repeat split.
Qed.

Lemma included_iff_not_rejected_witness :
  let b := Geometry.normalized 1000 2000 "0-0" (100, 50, 300, 90)%float in
  Geometry.all_finite 1000 2000 (100, 50, 300, 90)%float = true
  ∧ Geometry.bad_page_size 1000 2000 = false
  ∧ (0 <? HitBox.w b)%float = true ∧ (0 <? HitBox.h b)%float = true
  ∧ (spec_rejected b = false → Example.thin ∈ getAllLinesForPage Example.page →
     b ∈ Render.hitBoxes_of true Example.page).
Proof.
  intros b. repeat (split; [vm_compute; reflexivity|]).
  apply (included_iff_not_rejected true Example.page (Render.mk_acc ∅ [] []) Example.thin);
    vm_compute; reflexivity.
Defined.

(** ** Rejected lines *)

(** C4 as it is stated fails: the page of the examples has a rejected
    line and the console stays empty. *)
Lemma rejection_is_not_logged : ¬ every_rejection_logged.
Proof.
  intros H.
  destruct (H false Example.page Example.huge) as (m & Hm & _).
  - vm_compute. apply list_elem_of_further, list_elem_of_here.
  - vm_compute. reflexivity.
  - vm_compute in Hm. inversion Hm.
Qed.

Lemma effect_indexed (production : bool) (doc : DocJson) (numPages : Z)
    (pageKey : string) (n : Z) (pageObj : PageObj.t) :
  pageKey ≠ "" →
  pageKeyToNumber pageKey = Some n → 1 ≤ n ≤ numPages →
  doc_get doc pageKey = Some pageObj →
  Render.effect production (Some doc) (Some numPages) pageKey Render.Raster_done
  = Render.Indexed (Render.hitBoxes_of production pageObj)
      (Render.boxByUid (Render.loop production pageObj))
      (Render.console (Render.loop production pageObj)).
Proof.
  intros Hk Hn Hr Hd. unfold Render.effect. rewrite Hn, Hd.
  destruct (String.eqb_spec pageKey ""); [contradiction|].
  destruct (Z.eqb_spec n 0); [lia|].
  destruct (Z.ltb_spec n 1); [lia|].
  destruct (Z.ltb_spec numPages n); [lia|]. reflexivity.
Qed.

(** C4, amended.  A line that the validity checks or the size filters
    reject is skipped without a diagnostic: its turn of the loop leaves
    the box table, the index and the console as they were, and every
    message on the console is the development-build warning for a line
    that was kept with a large box.  The rejected line is still among the
    lines of the transcript pane, and the effect ends with the index, not
    with an error. *)
Theorem rejected_line_skipped_silently (production : bool) (doc : DocJson)
    (numPages n : Z) (pageKey : string) (pageObj : PageObj.t)
    (a : Render.acc) (l : LineWithUid.t) :
  doc_get doc pageKey = Some pageObj → pageKey ≠ "" →
  pageKeyToNumber pageKey = Some n → 1 ≤ n ≤ numPages →
  l ∈ getAllLinesForPage pageObj →
  kept_box pageObj l = None →
  Render.loop_body production pageObj a l = a
  ∧ (∀ m, m ∈ Render.console (Render.loop production pageObj) →
       production = false
       ∧ ∃ l' b', l' ∈ getAllLinesForPage pageObj
           ∧ kept_box pageObj l' = Some b'
           ∧ Geometry.large_bbox b' = true
           ∧ m = Render.Large_bbox (LineWithUid.uid l') (LineWithUid.bbox l')
                   (HitBox.w b') (HitBox.h b') (HitBox.area b'))
  ∧ l ∈ Render.transcript doc pageKey
  ∧ ∃ hitBoxes boxes log,
      Render.effect production (Some doc) (Some numPages) pageKey Render.Raster_done
      = Render.Indexed hitBoxes boxes log.
Proof.
  intros Hd Hk Hn Hr Hl Hrej. split; [|split; [|split]].
  - apply loop_body_skip. exact Hrej.
  - intros m Hm. rewrite loop_console, list_elem_of_omap in Hm.
    destruct Hm as (l' & Hl' & Hw). unfold warning_of in Hw.
    destruct (Geometry.classify _ _ l') as [| | | | | | | |b'] eqn:E; try discriminate.
    destruct production; cbn [negb andb] in Hw; [discriminate|].
    destruct (Geometry.large_bbox b') eqn:Hlarge; [|discriminate].
    injection Hw as <-. split; [reflexivity|].
    exists l', b'. unfold kept_box. rewrite E. auto.
  - unfold Render.transcript. rewrite Hd.
    destruct (String.eqb_spec pageKey ""); [contradiction|assumption].
  - rewrite (effect_indexed production doc numPages pageKey n pageObj Hk Hn Hr Hd). eauto.
Qed.

Lemma rejected_line_skipped_silently_witness :
  doc_get Example.doc "doc_page_1" = Some Example.page
  ∧ kept_box Example.page Example.huge = None
  ∧ Example.huge ∈ Render.transcript Example.doc "doc_page_1".
Proof.
  split; [reflexivity|]. split; [vm_compute; reflexivity|].
  apply (rejected_line_skipped_silently false Example.doc 1 1 "doc_page_1" Example.page
           (Render.mk_acc ∅ [] []) Example.huge).
  - reflexivity.
  - discriminate.
  - vm_compute. reflexivity.
  - lia.
  - vm_compute. apply list_elem_of_further, list_elem_of_here.
  - vm_compute. reflexivity.
Defined.

(** ** Ranking of suggestions *)

Section Ranking_facts.
Variable getTime : string → option Z.

Lemma newest_gt_spec (a b : SuggestionRow.t) :
  dated_by getTime a → dated_by getTime b →
  Suggestions.newest_gt getTime a b
  = bool_decide (time_of getTime a < time_of getTime b).
Proof using Type.
  unfold dated_by, Suggestions.newest_gt, time_of. intros [ta ->] [tb ->]. cbn [default from_option id].
  destruct (Z.ltb_spec 0 (tb - ta)); symmetry;
    [apply bool_decide_eq_true|apply bool_decide_eq_false]; lia.
Qed.

Lemma top_gt_spec (a b : SuggestionRow.t) :
  dated_by getTime a → dated_by getTime b →
  Suggestions.top_gt getTime a b
  = bool_decide (votes a < votes b
                 ∨ (votes a = votes b ∧ time_of getTime a < time_of getTime b)).
Proof using Type.
  intros Ha Hb. unfold Suggestions.top_gt. fold (votes a) (votes b).
  destruct (Z.eqb_spec (votes b) (votes a)) as [E|E]; cbn [negb].
  - rewrite (newest_gt_spec a b Ha Hb). apply bool_decide_ext. lia.
  - destruct (Z.ltb_spec 0 (votes b - votes a)); symmetry;
      [apply bool_decide_eq_true|apply bool_decide_eq_false]; lia.
Qed.

Lemma newest_sorted (l : list SuggestionRow.t) :
  Forall (dated_by getTime) l →
  StronglySorted (λ a b, time_of getTime b ≤ time_of getTime a)
    (Js.sort (Suggestions.newest_gt getTime) l).
Proof using Type.
  intros Hl.
  assert (Hs : StronglySorted (λ a b, Suggestions.newest_gt getTime a b = false)
                 (Js.sort (Suggestions.newest_gt getTime) l)).
  { apply (sort_sorted _ (dated_by getTime)); [| |exact Hl].
    - intros a b Pa Pb. rewrite (newest_gt_spec a b Pa Pb), (newest_gt_spec b a Pb Pa).
      rewrite bool_decide_eq_true, bool_decide_eq_false. lia.
    - intros a b c Pa Pb Pc.
      rewrite (newest_gt_spec a b Pa Pb), (newest_gt_spec b c Pb Pc),
        (newest_gt_spec a c Pa Pc), !bool_decide_eq_false. lia. }
  assert (HP : Forall (dated_by getTime) (Js.sort (Suggestions.newest_gt getTime) l))
    by (rewrite sort_perm; exact Hl).
  induction Hs as [|a l' Hs IH Ha]; [constructor|].
  apply Forall_cons in HP as [Pa HP]. constructor; [apply IH; assumption|].
  rewrite Forall_forall in Ha, HP |- *. intros b Hb. specialize (Ha b Hb).
  rewrite (newest_gt_spec a b Pa (HP b Hb)), bool_decide_eq_false in Ha. lia.
Qed.

Lemma top_sorted (l : list SuggestionRow.t) :
  Forall (dated_by getTime) l →
  StronglySorted
    (λ a b, votes b < votes a
            ∨ (votes b = votes a ∧ time_of getTime b ≤ time_of getTime a))
    (Js.sort (Suggestions.top_gt getTime) l).
Proof using Type.
  intros Hl.
  assert (Hs : StronglySorted (λ a b, Suggestions.top_gt getTime a b = false)
                 (Js.sort (Suggestions.top_gt getTime) l)).
  { apply (sort_sorted _ (dated_by getTime)); [| |exact Hl].
    - intros a b Pa Pb. rewrite (top_gt_spec a b Pa Pb), (top_gt_spec b a Pb Pa).
      rewrite bool_decide_eq_true, bool_decide_eq_false. lia.
    - intros a b c Pa Pb Pc.
      rewrite (top_gt_spec a b Pa Pb), (top_gt_spec b c Pb Pc),
        (top_gt_spec a c Pa Pc), !bool_decide_eq_false. lia. }
  assert (HP : Forall (dated_by getTime) (Js.sort (Suggestions.top_gt getTime) l))
    by (rewrite sort_perm; exact Hl).
  induction Hs as [|a l' Hs IH Ha]; [constructor|].
  apply Forall_cons in HP as [Pa HP]. constructor; [apply IH; assumption|].
  rewrite Forall_forall in Ha, HP |- *. intros b Hb. specialize (Ha b Hb).
  rewrite (top_gt_spec a b Pa (HP b Hb)), bool_decide_eq_false in Ha. lia.
Qed.

End Ranking_facts.

(** C5.  The suggestions of a line whose time stamps are dates come out
    of [getSortedSuggestions] as a rearrangement of the stored list: in
    ["top"] mode in descending order of vote count, equal counts in
    descending order of creation time; in ["newest"] mode in descending
    order of creation time whatever the counts.  Suggestions A (3 votes,
    10:00), B (3 votes, 10:05) and C (1 vote, 10:10), stored in any
    order, come out as [[B; A; C]] in ["top"] mode, which is also the
    default mode. *)
Theorem getSortedSuggestions_ranked (getTime : string → option Z)
    (suggestionsByUid : gmap string (list SuggestionRow.t))
    (sortModeByUid : gmap string Suggestions.sort_mode) (uid : string) :
  let stored := default [] (suggestionsByUid !! uid) in
  let ranked := Suggestions.getSortedSuggestions getTime suggestionsByUid sortModeByUid uid in
  Forall (dated_by getTime) stored →
  ranked ≡ₚ stored
  ∧ match default Suggestions.Top (sortModeByUid !! uid) with
    | Suggestions.Top =>
        StronglySorted
          (λ a b, votes b < votes a
                  ∨ (votes b = votes a ∧ time_of getTime b ≤ time_of getTime a))
          ranked
    | Suggestions.Newest =>
        StronglySorted (λ a b, time_of getTime b ≤ time_of getTime a) ranked
    end
  ∧ Forall
      (λ l, ∀ modes,
         modes !! "2-5" = None ∨ modes !! "2-5" = Some Suggestions.Top →
         Suggestions.getSortedSuggestions Example_suggestions.getTime
           {["2-5" := l]} modes "2-5"
         = [Example_suggestions.B; Example_suggestions.A; Example_suggestions.C])
      (permutations
         [Example_suggestions.A; Example_suggestions.B; Example_suggestions.C]).
Proof.
  intros stored ranked Hd. unfold ranked, Suggestions.getSortedSuggestions.
  fold stored. split; [|split].
  - destruct (default Suggestions.Top (sortModeByUid !! uid)); apply sort_perm.
  - destruct (default Suggestions.Top (sortModeByUid !! uid)).
    + apply top_sorted. exact Hd.
    + apply newest_sorted. exact Hd.
  - assert (Hl : ∀ l,
        Js.sort (Suggestions.top_gt Example_suggestions.getTime) l
        = [Example_suggestions.B; Example_suggestions.A; Example_suggestions.C] →
        ∀ modes : gmap string Suggestions.sort_mode,
          modes !! "2-5" = None ∨ modes !! "2-5" = Some Suggestions.Top →
          Suggestions.getSortedSuggestions Example_suggestions.getTime
            {["2-5" := l]} modes "2-5"
          = [Example_suggestions.B; Example_suggestions.A; Example_suggestions.C]).
    { intros l Hl modes Hm. unfold Suggestions.getSortedSuggestions.
      rewrite lookup_singleton_eq. cbn [default from_option id].
      destruct Hm as [-> | ->]; exact Hl. }
    cbn [permutations]. repeat constructor; apply Hl; vm_compute; reflexivity.
Qed.

Lemma getSortedSuggestions_ranked_witness :
  let stored := [Example_suggestions.C; Example_suggestions.A; Example_suggestions.B] in
  Forall (λ s, is_Some (Example_suggestions.getTime (SuggestionRow.created_at s))) stored
  ∧ Suggestions.getSortedSuggestions Example_suggestions.getTime
      {["2-5" := stored]} {["2-5" := Suggestions.Newest]} "2-5"
    ≡ₚ stored.
Proof.
  intros stored. split.
  - repeat constructor; eexists; vm_compute; reflexivity.
  - pose proof (getSortedSuggestions_ranked Example_suggestions.getTime
                  {["2-5" := stored]} {["2-5" := Suggestions.Newest]} "2-5") as H.
    rewrite lookup_singleton_eq in H. cbn [default from_option id] in H.
    apply H. repeat constructor; eexists; vm_compute; reflexivity.
Defined.

(** ** Clicks on the rendered page *)

Lemma onHitSvgClick_target (st : Highlight.state) (e : Highlight.mouse) :
  Highlight.onHitSvgClick st e =
  match click_target st e with
  | None => st
  | Some picked =>
      let uid := HitBox.uid picked in
      Highlight.mk_state (Highlight.doc st) (Highlight.pageKey st)
        (Highlight.hitBoxes st) (Highlight.boxByUid st)
        (Some Highlight.Src_left) (Some uid) (Highlight.boxByUid st !! uid)
        false
        (Highlight.toggle (bool_decide (Highlight.activeId st = Some uid)) uid
           (Highlight.collapsedUid st))
        None
        (Highlight.isDragging st) (Highlight.hoverRaf st) (Highlight.hoverPt st)
  end.
Proof.
  unfold Highlight.onHitSvgClick, click_target.
  destruct (Highlight.isDragging st); [reflexivity|].
  destruct (Highlight.no_transcription st); [reflexivity|].
  destruct (Highlight.bad_rect e); [reflexivity|].
  destruct (Highlight.point_of e) as [u v]. reflexivity.
Qed.

Lemma toggle_lookup (wasSame : bool) (uid : string) (prev : gmap string bool) :
  Highlight.toggle wasSame uid prev !! uid
  = Some (if wasSame then negb (default false (prev !! uid)) else false).
Proof.
  unfold Highlight.toggle. destruct wasSame; cbn [negb]; rewrite lookup_insert_eq.
  - destruct (default false (prev !! uid)); reflexivity.
  - reflexivity.
Qed.

Lemma toggle_lookup_ne (wasSame : bool) (uid uid' : string) (prev : gmap string bool) :
  uid ≠ uid' → Highlight.toggle wasSame uid prev !! uid' = prev !! uid'.
Proof.
  intros Hne. unfold Highlight.toggle.
  destruct wasSame; cbn [negb]; rewrite lookup_insert_ne by assumption; reflexivity.
Qed.

(** C7 as it is stated fails: after two clicks in the box of a line the
    line is active and its suggestions are collapsed, and a third click
    expands them. *)
Lemma click_on_collapsed_active_expands : ¬ click_collapses_iff_active.
Proof.
  intros H.
  pose proof (H Example_clicks.collapsed_active Example_clicks.inside) as H1.
  vm_compute in H1. specialize (H1 _ eq_refl). discriminate H1.
Qed.

(** C7, amended.  A click that picks the box of line [uid] makes [uid]
    the active line with the page as source, sets the highlight box of
    [uid], reveals the suggestions, and sets the flag of [uid]: expanded
    if [uid] was not the active line, the opposite of what it was if it
    was; the flags of the other lines stay.  A second click at the same
    point picks the same box and flips the flag that the first click
    left; when [uid] was not active before the first click the flag is
    expanded after the first click and collapsed after the second. *)
Theorem click_toggles (st : Highlight.state) (e : Highlight.mouse) (b : HitBox.t) :
  click_target st e = Some b →
  let uid := HitBox.uid b in
  let st1 := Highlight.onHitSvgClick st e in
  let st2 := Highlight.onHitSvgClick st1 e in
  (Highlight.activeId st1 = Some uid
   ∧ Highlight.activeSource st1 = Some Highlight.Src_left
   ∧ Highlight.activeBox st1 = Highlight.boxByUid st !! uid
   ∧ Highlight.collapseSuggestions st1 = false)
  ∧ collapsed st1 uid
    = (if bool_decide (Highlight.activeId st = Some uid)
       then negb (collapsed st uid) else false)
  ∧ (∀ uid', uid ≠ uid' →
       Highlight.collapsedUid st1 !! uid' = Highlight.collapsedUid st !! uid')
  ∧ click_target st1 e = Some b
  ∧ collapsed st2 uid = negb (collapsed st1 uid)
  ∧ (Highlight.activeId st ≠ Some uid →
     collapsed st1 uid = false ∧ collapsed st2 uid = true).
Proof.
  intros Ht uid st1 st2.
  assert (E1 : st1 = _) by (unfold st1; rewrite onHitSvgClick_target, Ht; reflexivity).
  cbv zeta in E1. fold uid in E1.
  assert (Ht1 : click_target st1 e = Some b).
  { rewrite <- Ht. rewrite E1. unfold click_target, Highlight.no_transcription.
    reflexivity. }
  assert (E2 : st2 = _) by (unfold st2; rewrite onHitSvgClick_target, Ht1; reflexivity).
  cbv zeta in E2. fold uid in E2.
  assert (A1 : Highlight.activeId st1 = Some uid) by (rewrite E1; reflexivity).
  assert (C1 : collapsed st1 uid
               = (if bool_decide (Highlight.activeId st = Some uid)
                  then negb (collapsed st uid) else false)).
  { unfold collapsed. rewrite E1. cbn [Highlight.collapsedUid].
    rewrite toggle_lookup. reflexivity. }
  assert (C2 : collapsed st2 uid = negb (collapsed st1 uid)).
  { unfold collapsed at 1. rewrite E2. cbn [Highlight.collapsedUid].
    rewrite toggle_lookup, bool_decide_eq_true_2 by exact A1. reflexivity. }
  split; [|split; [|split; [|split; [|split]]]].
  - rewrite E1. repeat split.
  - exact C1.
  - intros uid' Hne. rewrite E1. cbn [Highlight.collapsedUid].
    apply toggle_lookup_ne. exact Hne.
  - exact Ht1.
  - exact C2.
  - intros Hna. rewrite C2, C1, bool_decide_eq_false_2 by exact Hna. split; reflexivity.
Qed.

Lemma click_toggles_witness :
  (∃ b, click_target Example_clicks.idle Example_clicks.inside = Some b
        ∧ HitBox.uid b = "0-0")
  ∧ collapsed (Highlight.onHitSvgClick
                 (Highlight.onHitSvgClick Example_clicks.idle Example_clicks.inside)
                 Example_clicks.inside) "0-0" = true.
Proof.
  assert (H : ∃ b, click_target Example_clicks.idle Example_clicks.inside = Some b
                   ∧ HitBox.uid b = "0-0").
  { eexists. split; vm_compute; reflexivity. }
  split; [exact H|].
  destruct H as (b & Hb & Hu).
  pose proof (click_toggles Example_clicks.idle Example_clicks.inside b Hb) as H.
  cbv zeta in H. rewrite Hu in H.
  apply H. discriminate.
Defined.

(** ** Pointer moves over the rendered page *)

Lemma hover_frame_miss (c : Highlight.seen) (st : Highlight.state) (px py : float) :
  Highlight.hoverPt st = Some (px, py) →
  Highlight.pickBoxAt (Highlight.seen_hitBoxes c)
    (Geometry.clamp01 px) (Geometry.clamp01 py) = None →
  Highlight.highlight (Highlight.hover_frame c st) = Highlight.highlight st.
Proof.
  intros Hp Hm. unfold Highlight.hover_frame. rewrite Hp, Hm. reflexivity.
Qed.

Lemma onHitSvgClick_active (st : Highlight.state) (e : Highlight.mouse) :
  Highlight.highlight (Highlight.onHitSvgClick st e) = Highlight.highlight st
  ∨ is_Some (Highlight.activeId (Highlight.onHitSvgClick st e)).
Proof.
  rewrite onHitSvgClick_target. destruct (click_target st e); [right; eauto|left; reflexivity].
Qed.

Lemma hover_frame_active (c : Highlight.seen) (st : Highlight.state) :
  Highlight.highlight (Highlight.hover_frame c st) = Highlight.highlight st
  ∨ is_Some (Highlight.activeId (Highlight.hover_frame c st)).
Proof.
  unfold Highlight.hover_frame.
  destruct (Highlight.hoverPt st) as [[px py]|]; [|left; reflexivity].
  destruct (Highlight.pickBoxAt _ _ _); [|left; reflexivity].
  destruct (_ && _); [left; reflexivity|right; eauto].
Qed.

(** A line of the transcript pane clears the highlight too when the
    pointer leaves it; the events of that pane are not among the
    [page_event]s. *)
Remark onLineLeave_clears (st : Highlight.state) :
  Highlight.highlight (Highlight.onLineLeave st) = (None, None, None).
Proof. reflexivity. Qed.

(** C10 as it is stated fails when a callback outlives its render: the
    pointer moves over line ["0-0"] of the first page, the second page,
    which has no transcription, is selected and rendered before the
    animation frame, and the pointer moves again.  The point is in no
    box of the index, which is empty, yet the frame makes ["0-0"] the
    active line, because the callback scans the index of the render that
    requested it. *)
Lemma stale_callback_sets_highlight : ¬ miss_keeps_highlight.
Proof.
  intros H.
  pose proof (H Example_stale.rerendered Example_clicks.inside) as H1.
  vm_compute in H1. specialize (H1 eq_refl eq_refl). discriminate H1.
Qed.

(** C10, amended.  The handler of a pointer move on the rendered page
    never changes the highlight, and when the point is in no box of the
    index that the callback scans, the callback leaves the active line,
    its source and the highlight box as they were; the index scanned is
    the one of the state when the move finds no callback pending.
    Leaving the rendered page clears all three, and so does leaving a
    line of the transcript pane; these two are the only pointer events
    of the two panes after which a highlight that was set is cleared. *)
Theorem move_over_no_box_keeps_highlight (st : Highlight.state) (e : Highlight.mouse) :
  Highlight.highlight (Highlight.onHitSvgMouseMove st e) = Highlight.highlight st
  ∧ (Highlight.bad_rect e = false →
     Highlight.pickBoxAt (scanned_index st)
       (Geometry.clamp01 (Highlight.point_of e).1)
       (Geometry.clamp01 (Highlight.point_of e).2) = None →
     Highlight.highlight
       (Highlight.step (Highlight.step st (Highlight.Move e)) Highlight.Frame)
     = Highlight.highlight st)
  ∧ (Highlight.bad_rect e = false →
     Highlight.hoverRaf st = None →
     Highlight.pickBoxAt (Highlight.hitBoxes st)
       (Geometry.clamp01 (Highlight.point_of e).1)
       (Geometry.clamp01 (Highlight.point_of e).2) = None →
     Highlight.highlight
       (Highlight.step (Highlight.step st (Highlight.Move e)) Highlight.Frame)
     = Highlight.highlight st)
  ∧ Highlight.highlight (Highlight.onHitSvgMouseLeave st) = (None, None, None)
  ∧ Highlight.highlight (Highlight.onLineLeave st) = (None, None, None)
  ∧ (∀ ev,
       Highlight.activeId (pointer_step st ev) = None →
       Highlight.activeSource (pointer_step st ev) = None →
       Highlight.activeId st ≠ None ∨ Highlight.activeSource st ≠ None →
       ev = On_page Highlight.Leave ∨ ev = Line_leave).
Proof.
  assert (Hmiss : Highlight.bad_rect e = false →
                  Highlight.pickBoxAt (scanned_index st)
                    (Geometry.clamp01 (Highlight.point_of e).1)
                    (Geometry.clamp01 (Highlight.point_of e).2) = None →
                  Highlight.highlight
                    (Highlight.step (Highlight.step st (Highlight.Move e)) Highlight.Frame)
                  = Highlight.highlight st).
  { intros Hr Hm. cbn [Highlight.step]. unfold Highlight.onHitSvgMouseMove.
    rewrite Hr. cbn [Highlight.hoverRaf].
    destruct (Highlight.point_of e) as [px py] eqn:Ep.
    unfold scanned_index in Hm.
    destruct (Highlight.hoverRaf st) as [c|];
      (rewrite (hover_frame_miss _ _ px py); [reflexivity|reflexivity|exact Hm]). }
  split; [|split; [exact Hmiss|split; [|split; [|split]]]].
  - unfold Highlight.onHitSvgMouseMove. destruct (Highlight.bad_rect e); reflexivity.
  - intros Hr Hraf Hm. apply (Hmiss Hr). unfold scanned_index. rewrite Hraf. exact Hm.
  - reflexivity.
  - reflexivity.
  - intros ev Hid Hsrc Hwas.
    assert (Hkeep : Highlight.highlight (pointer_step st ev) = Highlight.highlight st
                    ∨ is_Some (Highlight.activeId (pointer_step st ev))
                    → False).
    { intros [Hh|[u Hu]]; [|congruence].
      unfold Highlight.highlight in Hh. injection Hh as H1 H2 _.
      rewrite Hid in H1. rewrite Hsrc in H2. destruct Hwas; congruence. }
    destruct ev as [[e'| | |e']|uid|uid|]; [| |left; reflexivity| | | |right; reflexivity];
      exfalso; apply Hkeep; cbn [pointer_step Highlight.step].
    + left. unfold Highlight.onHitSvgMouseMove.
      destruct (Highlight.bad_rect e'); reflexivity.
    + destruct (Highlight.hoverRaf st); [apply hover_frame_active|left; reflexivity].
    + apply onHitSvgClick_active.
    + right. cbn. eauto.
    + right. cbn. eauto.
Qed.

Lemma move_over_no_box_keeps_highlight_witness :
  Highlight.bad_rect Example_clicks.outside = false
  ∧ Highlight.highlight
      (Highlight.step
         (Highlight.step Example_clicks.collapsed_active
            (Highlight.Move Example_clicks.outside))
         Highlight.Frame)
    = Highlight.highlight Example_clicks.collapsed_active
  ∧ Highlight.activeId Example_clicks.collapsed_active = Some "0-0".
Proof.
  split; [vm_compute; reflexivity|].
  pose proof (move_over_no_box_keeps_highlight Example_clicks.collapsed_active
                Example_clicks.outside) as (_ & _ & H & _).
  split; [|vm_compute; reflexivity].
  apply H; vm_compute; reflexivity.
Defined.

(** ** Page keys *)

Lemma list_ascii_of_string_app (s1 s2 : string) :
  String.list_ascii_of_string (s1 +:+ s2)
  = String.list_ascii_of_string s1 ++ String.list_ascii_of_string s2.
Proof.
  induction s1 as [|c s1 IH]; [reflexivity|].
  simpl. f_equal. exact IH.
Qed.

Lemma string_of_uint_digits (d : Decimal.uint) :
  Forall (λ c, Js.is_digit c = true)
    (String.list_ascii_of_string (NilEmpty.string_of_uint d)).
Proof.
  induction d; cbn [NilEmpty.string_of_uint String.list_ascii_of_string];
    constructor; (reflexivity || assumption).
Qed.

Lemma N_to_uint_nonnil (n : N) : N.to_uint n ≠ Decimal.Nil.
Proof.
  destruct n as [|p]; [discriminate|]. apply Unsigned.to_uint_nonnil.
Qed.

Lemma span_digits_app (ds rest : list ascii) :
  Forall (λ c, Js.is_digit c = true) ds →
  match rest with c :: _ => Js.is_digit c = false | [] => True end →
  span_digits (ds ++ rest) = (ds, rest).
Proof.
  intros Hd Hr. induction Hd as [|c ds Hc Hd IH]; cbn [app span_digits].
  - destruct rest as [|c rest]; cbn [span_digits]; [reflexivity|].
    rewrite Hr. reflexivity.
  - rewrite Hc, IH. reflexivity.
Qed.

Lemma parseInt10_string_of_N (n : N) : Js.parseInt10 (Js.string_of_N n) = Z.of_N n.
Proof.
  unfold Js.parseInt10, Js.string_of_N.
  rewrite NilEmpty.usu, DecimalN.Unsigned.of_to. reflexivity.
Qed.

(** A key that ends in [_page_] and the digits of [n] has the page
    number [n]. *)
Lemma pageKeyToNumber_suffix (stem : string) (n : N) :
  pageKeyToNumber (stem +:+ "_page_" +:+ Js.string_of_N n) = Some (Z.of_N n).
Proof.
  unfold pageKeyToNumber, match_page_suffix.
  rewrite !list_ascii_of_string_app, !rev_app_distr, <- !app_assoc.
  set (ds := String.list_ascii_of_string (Js.string_of_N n)).
  assert (Hd : Forall (λ c, Js.is_digit c = true) (rev ds)).
  { apply Forall_rev, string_of_uint_digits. }
  assert (Hne : ds ≠ []).
  { unfold ds, Js.string_of_N. pose proof (N_to_uint_nonnil n) as Hn.
    destruct (N.to_uint n); (contradiction || discriminate). }
  rewrite (span_digits_app (rev ds)); [|exact Hd|reflexivity].
  destruct (rev ds) as [|c r] eqn:Er.
  - apply (f_equal (@rev ascii)) in Er. rewrite rev_involutive in Er. contradiction.
  - rewrite <- Er, rev_involutive. cbn [rev String.list_ascii_of_string app].
    unfold ds. rewrite String.string_of_list_ascii_of_string.
    rewrite parseInt10_string_of_N. reflexivity.
Qed.

Lemma pageKeyToNumber_pdf_only_page (n : Z) :
  0 ≤ n → pageKeyToNumber (pdf_only_page n) = Some n.
Proof.
  intros Hn. rewrite <- (Z2N.id n) at 2 by exact Hn.
  exact (pageKeyToNumber_suffix "pdf_only" (Z.to_N n)).
Qed.

Lemma docKeyByNum_number (doc : DocJson) (n : Z) (k : string) :
  docKeyByNum doc !! n = Some k → pageKeyToNumber k = Some n ∧ k ∈ Object_keys doc.
Proof.
  unfold docKeyByNum.
  assert (H : ∀ keys (m : gmap Z string),
            (∀ n k, m !! n = Some k → pageKeyToNumber k = Some n ∧ k ∈ Object_keys doc) →
            (∀ k, k ∈ keys → k ∈ Object_keys doc) →
            ∀ n k,
              foldl (λ m k, match pageKeyToNumber k with
                            | Some n => <[n:=k]> m
                            | None => m
                            end) m keys !! n = Some k →
              pageKeyToNumber k = Some n ∧ k ∈ Object_keys doc).
  { induction keys as [|k0 keys IH]; intros m Hm Hk n' k'; cbn [foldl]; [apply Hm|].
    apply IH.
    - intros n1 k1. destruct (pageKeyToNumber k0) as [n0|] eqn:E0; [|apply Hm].
      rewrite lookup_insert. case_decide as Hd; [|apply Hm].
      intros [= <-]. subst n1. split; [exact E0|]. apply Hk, list_elem_of_here.
    - intros k1 Hk1. apply Hk, list_elem_of_further, Hk1. }
  apply H; [|auto]. intros n1 k1. rewrite lookup_empty. discriminate.
Qed.

Lemma page_gt_rank (a b : string) : page_gt a b = (page_rank b <? page_rank a).
Proof.
  unfold page_gt, page_rank.
  destruct (Z.ltb_spec 0 (default 0 (pageKeyToNumber a) - default 0 (pageKeyToNumber b)));
    symmetry; [apply Z.ltb_lt|apply Z.ltb_ge]; lia.
Qed.

Lemma sorted_page_keys (keys : list string) :
  StronglySorted (λ a b, page_rank a ≤ page_rank b) (Js.sort page_gt keys).
Proof.
  assert (Hs : StronglySorted (λ a b, page_gt a b = false) (Js.sort page_gt keys)).
  { apply (sort_sorted page_gt (λ _, True)).
    - intros a b _ _. rewrite !page_gt_rank. lia.
    - intros a b c _ _ _. rewrite !page_gt_rank. lia.
    - apply Forall_forall. auto. }
  induction Hs as [|a l Hs IH Ha]; constructor; [assumption|].
  eapply Forall_impl; [exact Ha|]. intros b. cbv beta. rewrite page_gt_rank. lia.
Qed.

Lemma StronglySorted_lookup_lt {A : Type} (R : A → A → Prop) (l : list A)
    (i j : nat) (a b : A) :
  StronglySorted R l → l !! i = Some a → l !! j = Some b → (i < j)%nat → R a b.
Proof.
  intros Hs. revert i j. induction Hs as [|x l Hs IH Hx]; intros i j Hi Hj Hlt.
  - discriminate Hi.
  - destruct j as [|j]; [lia|]. cbn in Hj. destruct i as [|i].
    + injection Hi as <-. rewrite Forall_forall in Hx.
      apply Hx. eapply list_elem_of_lookup_2. exact Hj.
    + cbn in Hi. apply (IH i j); [assumption..|lia].
Qed.

Lemma pageKeyToNumber_nonneg (k : string) (n : Z) : pageKeyToNumber k = Some n → 0 ≤ n.
Proof.
  unfold pageKeyToNumber. destruct (match_page_suffix k) as [ds|]; [|discriminate].
  intros [= <-]. unfold Js.parseInt10. destruct (NilEmpty.uint_of_string ds); lia.
Qed.

(** C8 as it is stated fails: the key ["x"] has no page number and is
    sorted before ["a_page_1"]. *)
Lemma unnumbered_key_sorted_first : ¬ unnumbered_sorted_last.
Proof.
  intros H.
  pose proof (H [("a_page_1", Example.page); ("x", Example.page)] 0%nat 1%nat
                "x" "a_page_1") as H1.
  vm_compute in H1. specialize (H1 eq_refl eq_refl eq_refl (ex_intro _ _ eq_refl)).
  lia.
Qed.

(** C8, amended.  The sort of the page keys reads a key without a page
    number as page 0: in the sorted list, of the viewer without a PDF and
    of the ingestion script, such a key comes before every key with a
    positive page number.  With a PDF of [numPages] pages the list of the
    viewer has one key for each page number from 1 to [numPages], in that
    order, each with that page number: a key of the document without a
    page number is not in it. *)
Theorem unnumbered_keys_sorted_first (doc : DocJson) (numPages : Z) :
  numPages ≠ 0 →
  (pageKeys (Some doc) None = ingest_pageKeys doc
   ∧ ∀ (i j : nat) (ki kj : string) (n : Z),
       ingest_pageKeys doc !! i = Some ki →
       ingest_pageKeys doc !! j = Some kj →
       pageKeyToNumber ki = None →
       pageKeyToNumber kj = Some n → 0 < n →
       (i < j)%nat)
  ∧ (∀ (i : nat) (k : string),
       pageKeys (Some doc) (Some numPages) !! i = Some k →
       pageKeyToNumber k = Some (Z.of_nat i + 1) ∧ Z.of_nat i + 1 ≤ numPages)
  ∧ (∀ k, k ∈ pageKeys (Some doc) (Some numPages) → pageKeyToNumber k ≠ None).
Proof.
  intros Hnp.
  assert (Hpdf : ∀ (i : nat) (k : string),
             pageKeys (Some doc) (Some numPages) !! i = Some k →
             pageKeyToNumber k = Some (Z.of_nat i + 1) ∧ Z.of_nat i + 1 ≤ numPages).
  { intros i k. cbn [pageKeys]. destruct (Z.eqb_spec numPages 0); [contradiction|].
    rewrite list_lookup_fmap. intros Hk.
    destruct (seqZ 1 numPages !! i) as [m|] eqn:Em; [|discriminate].
    apply lookup_seqZ in Em as [-> Hi]. cbn in Hk. injection Hk as <-.
    split; [|lia].
    replace (1 + Z.of_nat i) with (Z.of_nat i + 1) by lia.
    destruct (docKeyByNum doc !! (Z.of_nat i + 1)) as [k|] eqn:Ek; cbn [default from_option id].
    - apply (docKeyByNum_number doc _ _ Ek).
    - apply pageKeyToNumber_pdf_only_page. lia. }
  split; [split; [reflexivity|]|split; [exact Hpdf|]].
  - intros i j ki kj n Hi Hj Hnone Hsome Hpos.
    pose proof (sorted_page_keys (Object_keys doc)) as Hs. fold (ingest_pageKeys doc) in Hs.
    destruct (Nat.lt_trichotomy i j) as [?|[->|Hji]]; [assumption|congruence|].
    pose proof (StronglySorted_lookup_lt _ _ j i kj ki Hs Hj Hi Hji) as Hle.
    unfold page_rank in Hle. rewrite Hnone, Hsome in Hle. cbn in Hle. lia.
  - intros k Hk. apply list_elem_of_lookup in Hk as [i Hi].
    destruct (Hpdf i k Hi) as [-> _]. discriminate.
Qed.

Lemma unnumbered_keys_sorted_first_witness :
  (2 : Z) ≠ 0
  ∧ pageKeys (Some [("a_page_2", Example.page); ("x", Example.page)]) (Some 2)
    = ["pdf_only_page_1"; "a_page_2"]
  ∧ ∀ k, k ∈ pageKeys (Some [("a_page_2", Example.page); ("x", Example.page)]) (Some 2) →
         pageKeyToNumber k ≠ None.
Proof.
  split; [discriminate|]. split; [vm_compute; reflexivity|].
  apply (unnumbered_keys_sorted_first
           [("a_page_2", Example.page); ("x", Example.page)] 2).
  discriminate.
Defined.

(** ** The leaderboard *)

Lemma truthy_false (s : string) : Js.truthy s = false → s = "".
Proof.
  unfold Js.truthy. rewrite negb_false_iff. apply String.eqb_eq.
Qed.

Lemma truthy_true (s : string) : Js.truthy s = true ↔ s ≠ "".
Proof.
  unfold Js.truthy. rewrite negb_true_iff. apply String.eqb_neq.
Qed.

Lemma or_else_truthy (a b : string) : Js.truthy b = true → Js.truthy (Js.or_else a b) = true.
Proof. unfold Js.or_else. destruct (Js.truthy a) eqn:E; auto. Qed.

Lemma counted_for_author (k : string) (v : Leaderboard.vote_row) :
  counted_for k v = true → Leaderboard.author_of v = k ∧ Js.truthy k = true.
Proof.
  unfold counted_for. rewrite !andb_true_iff. intros [[_ Ht] He].
  apply String.eqb_eq in He. subst k. auto.
Qed.

Lemma upvotes_received_snoc (p : list Leaderboard.vote_row) (r : Leaderboard.vote_row)
    (k : string) :
  upvotes_received (p ++ [r]) k
  = upvotes_received p k + (if counted_for k r then 1 else 0).
Proof.
  unfold upvotes_received. rewrite filter_app, length_app, filter_cons, filter_nil.
  destruct (counted_for k r); case_decide; try congruence; cbn [length]; lia.
Qed.

Lemma upvotes_received_nonneg (p : list Leaderboard.vote_row) (k : string) :
  0 ≤ upvotes_received p k.
Proof. unfold upvotes_received. lia. Qed.

Lemma head_filter_snoc {A : Type} (P : A → Prop) `{∀ x, Decision (P x)}
    (l : list A) (x : A) :
  head (filter P (l ++ [x]))
  = match head (filter P l) with
    | Some y => Some y
    | None => if decide (P x) then Some x else None
    end.
Proof.
  rewrite filter_app, filter_cons, filter_nil.
  destruct (filter P l) as [|y l']; cbn [head app]; [|reflexivity].
  case_decide; reflexivity.
Qed.

Lemma first_snapshot_truthy (p : list Leaderboard.vote_row) (k : string) :
  first_snapshot p k = ""
  ∨ (Js.truthy (first_snapshot p k) = true
     ∧ ∃ v, v ∈ p ∧ counted_for k v = true
            ∧ Leaderboard.snapshot_of v = first_snapshot p k).
Proof.
  unfold first_snapshot.
  destruct (head _) as [s|] eqn:E; [right|left; reflexivity].
  apply head_Some_elem_of, list_elem_of_filter in E as [Hs E].
  apply list_elem_of_fmap in E as (v & -> & Hv).
  apply list_elem_of_filter in Hv as [Hc Hv].
  cbn [default from_option id]. split; [exact Hs|]. eauto.
Qed.

Lemma first_snapshot_snoc (p : list Leaderboard.vote_row) (r : Leaderboard.vote_row)
    (k : string) :
  first_snapshot (p ++ [r]) k
  = if counted_for k r
    then Js.or_else (first_snapshot p k) (Leaderboard.snapshot_of r)
    else first_snapshot p k.
Proof.
  unfold first_snapshot at 1. rewrite filter_app, filter_cons, filter_nil.
  destruct (counted_for k r) eqn:Ec; case_decide; try congruence.
  - rewrite fmap_app. cbn [fmap list_fmap]. rewrite head_filter_snoc.
    unfold Js.or_else.
    destruct (first_snapshot_truthy p k) as [E|[Ht _]].
    + rewrite E. change (Js.truthy "") with false. cbv iota.
      unfold first_snapshot in E.
      destruct (head _) as [s|] eqn:Eh.
      * apply head_Some_elem_of, list_elem_of_filter in Eh as [Hs _].
        cbn [default from_option id] in E. subst s. discriminate Hs.
      * case_decide as Hd; cbn [default from_option id]; [reflexivity|].
        symmetry. apply truthy_false. destruct (Js.truthy _); congruence.
    + rewrite Ht. unfold first_snapshot in Ht |- *.
      destruct (head _) as [s|]; [reflexivity|discriminate Ht].
  - rewrite app_nil_r. reflexivity.
Qed.

Lemma first_snapshot_none (p : list Leaderboard.vote_row) (k : string) :
  upvotes_received p k = 0 → first_snapshot p k = "".
Proof.
  unfold upvotes_received, first_snapshot. intros H.
  destruct (filter _ p) as [|v l]; [reflexivity|]. cbn [length] in H. lia.
Qed.

Lemma totals_get_None (totals : list (string * Leaderboard.total)) (k : string) :
  Leaderboard.totals_get totals k = None ↔ k ∉ totals.*1.
Proof.
  induction totals as [|[k0 t0] totals IH]; cbn [Leaderboard.totals_get fmap list_fmap fst].
  - split; [intros _; apply not_elem_of_nil|reflexivity].
  - rewrite not_elem_of_cons. destruct (String.eqb_spec k0 k) as [->|Hne].
    + split; [discriminate|intros [? _]; contradiction].
    + rewrite IH. split; [auto|tauto].
Qed.

Lemma totals_get_Some (totals : list (string * Leaderboard.total)) (k : string)
    (t : Leaderboard.total) :
  NoDup totals.*1 → Leaderboard.totals_get totals k = Some t ↔ (k, t) ∈ totals.
Proof.
  induction totals as [|[k0 t0] totals IH];
    cbn [Leaderboard.totals_get fmap list_fmap fst]; intros Hnd.
  - split; [discriminate|intros H; inversion H].
  - apply NoDup_cons in Hnd as [Hk0 Hnd]. rewrite elem_of_cons.
    destruct (String.eqb_spec k0 k) as [->|Hne].
    + split; [intros [= ->]; left; reflexivity|].
      intros [[= ->]|Hin]; [reflexivity|].
      exfalso. apply Hk0. apply list_elem_of_fmap. exists (k, t). auto.
    + rewrite (IH Hnd). split; [auto|]. intros [[= ? ?]|?]; [congruence|assumption].
Qed.

Lemma totals_set_keys (totals : list (string * Leaderboard.total)) (k : string)
    (t : Leaderboard.total) :
  (Leaderboard.totals_set totals k t).*1
  = if decide (k ∈ totals.*1) then totals.*1 else totals.*1 ++ [k].
Proof.
  induction totals as [|[k0 t0] totals IH];
    cbn [Leaderboard.totals_set fmap list_fmap fst].
  - case_decide as H; [inversion H|reflexivity].
  - destruct (String.eqb_spec k0 k) as [->|Hne]; cbn [fmap list_fmap fst].
    + rewrite decide_True by apply list_elem_of_here. reflexivity.
    + rewrite IH. case_decide as H1; case_decide as H2; try reflexivity.
      * exfalso. apply H2. apply list_elem_of_further. exact H1.
      * exfalso. apply elem_of_cons in H2 as [?|?]; [congruence|contradiction].
Qed.

Lemma elem_of_totals_set (totals : list (string * Leaderboard.total)) (k : string)
    (t : Leaderboard.total) (k' : string) (t' : Leaderboard.total) :
  NoDup totals.*1 →
  (k', t') ∈ Leaderboard.totals_set totals k t
  ↔ (k' = k ∧ t' = t) ∨ (k' ≠ k ∧ (k', t') ∈ totals).
Proof.
  induction totals as [|[k0 t0] totals IH];
    cbn [Leaderboard.totals_set fmap list_fmap fst]; intros Hnd.
  - rewrite list_elem_of_singleton. split.
    + intros [= -> ->]. auto.
    + intros [[-> ->]|[_ H]]; [reflexivity|inversion H].
  - apply NoDup_cons in Hnd as [Hk0 Hnd].
    destruct (String.eqb_spec k0 k) as [->|Hne]; rewrite !elem_of_cons.
    + split.
      * intros [[= -> ->]|Hin]; [auto|].
        right. split; [|auto]. intros ->. apply Hk0.
        apply list_elem_of_fmap. exists (k, t'). auto.
      * intros [[-> ->]|[Hn [[= ? ?]|Hin]]]; [auto|congruence|auto].
    + rewrite (IH Hnd). split.
      * intros [[= -> ->]|[[-> ->]|[Hn Hin]]]; auto.
      * intros [[-> ->]|[Hn [[= -> ->]|Hin]]]; auto.
Qed.

Lemma count_row_skip (totals : list (string * Leaderboard.total))
    (r : Leaderboard.vote_row) :
  (default 0 (Leaderboard.vote r) =? 1) && Js.truthy (Leaderboard.author_of r) = false →
  Leaderboard.count_row totals r = totals ∧ ∀ k, counted_for k r = false.
Proof.
  intros H. split.
  - unfold Leaderboard.count_row. apply andb_false_iff in H as [-> | ->]; [reflexivity|].
    destruct (negb _); reflexivity.
  - intros k. unfold counted_for. rewrite H. reflexivity.
Qed.

Lemma count_row_ok (p : list Leaderboard.vote_row)
    (totals : list (string * Leaderboard.total)) (r : Leaderboard.vote_row) :
  totals_ok p totals → totals_ok (p ++ [r]) (Leaderboard.count_row totals r).
Proof.
  intros (Hnd & Hin & Hall).
  destruct ((default 0 (Leaderboard.vote r) =? 1) && Js.truthy (Leaderboard.author_of r))
    eqn:Hc.
  2: { destruct (count_row_skip totals r Hc) as [-> Hn].
       split; [exact Hnd|]. split.
       - intros k t Hk. rewrite upvotes_received_snoc, first_snapshot_snoc, Hn, Z.add_0_r.
         apply Hin, Hk.
       - intros k. rewrite upvotes_received_snoc, Hn, Z.add_0_r. apply Hall. }
  apply andb_true_iff in Hc as [Hv Ht].
  set (uid := Leaderboard.author_of r) in *.
  assert (Hcf : ∀ k, counted_for k r = bool_decide (k = uid)).
  { intros k. unfold counted_for. fold uid. rewrite Hv, Ht. cbn [andb].
    destruct (String.eqb_spec uid k) as [->|Hne]; symmetry;
      [apply bool_decide_eq_true|apply bool_decide_eq_false]; congruence. }
  unfold Leaderboard.count_row. fold uid. rewrite Hv, Ht. cbn [negb].
  set (snap := Leaderboard.snapshot_of r).
  set (t0 := default (Leaderboard.mk_total 0 snap) (Leaderboard.totals_get totals uid)).
  set (t2 := if negb (Js.truthy (Leaderboard.t_username t0)) && Js.truthy snap
             then Leaderboard.mk_total (Leaderboard.t_upvotes t0 + 1) snap
             else Leaderboard.mk_total (Leaderboard.t_upvotes t0 + 1)
                    (Leaderboard.t_username t0)).
  assert (Ht0 : Leaderboard.t_upvotes t0 = upvotes_received p uid
                ∧ Leaderboard.t_username t0
                  = (if decide (uid ∈ totals.*1) then first_snapshot p uid else snap)
                ∧ (uid ∉ totals.*1 → first_snapshot p uid = "")).
  { unfold t0. destruct (Leaderboard.totals_get totals uid) as [t|] eqn:Eg.
    - apply (totals_get_Some _ _ _ Hnd) in Eg.
      destruct (Hin _ _ Eg) as (_ & _ & Hu & Hn). cbn [default from_option id].
      assert (Hk : uid ∈ totals.*1) by (apply list_elem_of_fmap; exists (uid, t); auto).
      rewrite decide_True by exact Hk.
      split; [exact Hu|]. split; [exact Hn|]. intros Hno. contradiction.
    - apply totals_get_None in Eg. cbn [default from_option id Leaderboard.t_upvotes
                                        Leaderboard.t_username].
      rewrite decide_False by exact Eg.
      assert (Hz : upvotes_received p uid = 0).
      { pose proof (upvotes_received_nonneg p uid).
        destruct (Z.eq_dec (upvotes_received p uid) 0); [assumption|].
        exfalso. apply Eg, Hall. lia. }
      split; [symmetry; exact Hz|]. split; [reflexivity|].
      intros _. apply first_snapshot_none, Hz. }
  destruct Ht0 as (Hup & Hname & Hfirst).
  assert (Ht2 : Leaderboard.t_upvotes t2 = upvotes_received (p ++ [r]) uid
                ∧ Leaderboard.t_username t2 = first_snapshot (p ++ [r]) uid).
  { rewrite upvotes_received_snoc, first_snapshot_snoc, Hcf, bool_decide_eq_true_2
      by reflexivity.
    fold snap. split.
    - unfold t2. destruct (_ && _); cbn [Leaderboard.t_upvotes]; lia.
    - unfold t2, Js.or_else.
      case_decide as Hk.
      + rewrite <- Hname.
        destruct (Js.truthy (Leaderboard.t_username t0)) eqn:E1; cbn [negb andb];
          [reflexivity|].
        destruct (Js.truthy snap) eqn:E2; cbn [Leaderboard.t_username]; [reflexivity|].
        rewrite (truthy_false _ E1), (truthy_false _ E2). reflexivity.
      + rewrite (Hfirst Hk). change (Js.truthy "") with false. cbv iota.
        rewrite Hname. destruct (negb (Js.truthy snap) && Js.truthy snap); reflexivity. }
  destruct Ht2 as (Hup2 & Hname2).
  split; [|split].
  - rewrite totals_set_keys. case_decide as Hk; [exact Hnd|].
    apply NoDup_app. split; [exact Hnd|]. split; [|apply NoDup_singleton].
    intros k Hk1 Hk2. apply list_elem_of_singleton in Hk2. congruence.
  - intros k t Hk. apply (elem_of_totals_set _ _ _ _ _ Hnd) in Hk as [[-> ->]|[Hne Hk]].
    + split; [exact Ht|]. split; [|split; assumption].
      rewrite upvotes_received_snoc, Hcf, bool_decide_eq_true_2 by reflexivity.
      pose proof (upvotes_received_nonneg p uid). lia.
    + rewrite upvotes_received_snoc, first_snapshot_snoc, Hcf,
        bool_decide_eq_false_2, Z.add_0_r by exact Hne.
      apply Hin, Hk.
  - intros k. rewrite upvotes_received_snoc, Hcf, totals_set_keys.
    case_bool_decide as Hku.
    + subst k. intros _. case_decide as Hk; [exact Hk|].
      apply elem_of_app. right. apply list_elem_of_here.
    + rewrite Z.add_0_r. intros Hpos. specialize (Hall k Hpos).
      case_decide; [exact Hall|]. apply elem_of_app. left. exact Hall.
Qed.

Lemma totals_of_ok (data : list Leaderboard.vote_row) :
  totals_ok data (Leaderboard.totals_of data).
Proof.
  unfold Leaderboard.totals_of.
  assert (H : ∀ l p totals, totals_ok p totals →
                totals_ok (p ++ l) (foldl Leaderboard.count_row totals l)).
  { induction l as [|r l IH]; intros p totals Hok; cbn [foldl].
    - rewrite app_nil_r. exact Hok.
    - replace (p ++ r :: l) with ((p ++ [r]) ++ l) by (rewrite <- app_assoc; reflexivity).
      apply IH, count_row_ok, Hok. }
  apply (H data [] []). split; [constructor|]. split.
  - intros k t Hk. inversion Hk.
  - intros k Hk. unfold upvotes_received in Hk. cbn in Hk. lia.
Qed.

Lemma filter_bool_split {A : Type} (f : A → bool) (l : list A) :
  filter (λ x, f x = true) l ++ filter (λ x, f x = false) l ≡ₚ l.
Proof.
  induction l as [|x l IH]; [reflexivity|].
  rewrite !filter_cons. destruct (f x) eqn:E.
  - rewrite decide_True, decide_False by congruence. cbn [app]. rewrite IH. reflexivity.
  - rewrite decide_False, decide_True by congruence.
    rewrite <- Permutation_middle, IH. reflexivity.
Qed.

Lemma Object_entries_perm {V : Type} (o : list (string * V)) : Js.Object_entries o ≡ₚ o.
Proof.
  unfold Js.Object_entries. rewrite sort_perm. apply filter_bool_split.
Qed.

Lemma or_else_empty (a : string) : Js.or_else a "" = a.
Proof.
  unfold Js.or_else. destruct (Js.truthy a) eqn:E; [reflexivity|].
  symmetry. apply truthy_false, E.
Qed.

Lemma ranked_rows_perm (data : list Leaderboard.vote_row) :
  ranked_rows data
  ≡ₚ map (λ kv, Leaderboard.mk_row kv.1 (Leaderboard.t_upvotes kv.2)
                  (Leaderboard.t_username kv.2))
         (Leaderboard.totals_of data).
Proof.
  unfold ranked_rows. rewrite sort_perm, Object_entries_perm.
  apply eq_subrelation; [typeclasses eauto|]. apply map_ext.
  intros kv. rewrite or_else_empty. reflexivity.
Qed.

Lemma ranked_rows_sorted (data : list Leaderboard.vote_row) :
  StronglySorted (λ a b, Leaderboard.upvotes b ≤ Leaderboard.upvotes a) (ranked_rows data).
Proof.
  unfold ranked_rows. set (l := map _ _).
  assert (Hs : StronglySorted (λ a b, Leaderboard.upvotes_gt a b = false)
                 (Js.sort Leaderboard.upvotes_gt l)).
  { apply (sort_sorted Leaderboard.upvotes_gt (λ _, True)).
    - intros a b _ _. unfold Leaderboard.upvotes_gt. lia.
    - intros a b c _ _ _. unfold Leaderboard.upvotes_gt. lia.
    - apply Forall_forall. auto. }
  induction Hs as [|a l' Hs IH Ha]; constructor; [assumption|].
  eapply Forall_impl; [exact Ha|]. intros b. unfold Leaderboard.upvotes_gt. lia.
Qed.

Lemma ranked_rows_ok (data : list Leaderboard.vote_row) :
  NoDup (Leaderboard.user_id <$> ranked_rows data)
  ∧ (∀ r, r ∈ ranked_rows data →
       Js.truthy (Leaderboard.user_id r) = true
       ∧ 0 < upvotes_received data (Leaderboard.user_id r)
       ∧ Leaderboard.upvotes r = upvotes_received data (Leaderboard.user_id r)
       ∧ Leaderboard.username r = first_snapshot data (Leaderboard.user_id r))
  ∧ (∀ k, 0 < upvotes_received data k → k ∈ Leaderboard.user_id <$> ranked_rows data).
Proof.
  destruct (totals_of_ok data) as (Hnd & Hin & Hall).
  pose proof (ranked_rows_perm data) as Hp.
  assert (Hids : Leaderboard.user_id <$> ranked_rows data ≡ₚ (Leaderboard.totals_of data).*1).
  { rewrite Hp. apply eq_subrelation; [typeclasses eauto|].
    change (map ?f ?l) with (f <$> l). rewrite <- list_fmap_compose. reflexivity. }
  split; [rewrite Hids; exact Hnd|]. split.
  - intros r Hr. rewrite Hp in Hr. apply list_elem_of_fmap in Hr as ([k t] & -> & Hkt).
    cbn [Leaderboard.user_id Leaderboard.upvotes Leaderboard.username fst snd].
    apply Hin, Hkt.
  - intros k Hk. rewrite Hids. apply Hall, Hk.
Qed.

Lemma byId_of_lookup (profs : list Leaderboard.profile) (id : string) :
  match Leaderboard.byId_of profs !! id with
  | Some u =>
      Js.truthy u = true
      ∧ ∃ p, p ∈ profs ∧ default "" (Leaderboard.profile_id p) = id
             ∧ Js.trim (default "" (Leaderboard.profile_username p)) = u
  | None =>
      ∀ p, p ∈ profs → default "" (Leaderboard.profile_id p) = id →
           Js.truthy id = true →
           Js.truthy (Js.trim (default "" (Leaderboard.profile_username p))) = false
  end.
Proof.
  unfold Leaderboard.byId_of.
  set (f := λ (m : gmap string string) (p : Leaderboard.profile), _).
  set (good := λ (l : list Leaderboard.profile) (m : gmap string string),
         match m !! id with
         | Some u =>
             Js.truthy u = true
             ∧ ∃ p, p ∈ l ∧ default "" (Leaderboard.profile_id p) = id
                    ∧ Js.trim (default "" (Leaderboard.profile_username p)) = u
         | None =>
             ∀ p, p ∈ l → default "" (Leaderboard.profile_id p) = id →
                  Js.truthy id = true →
                  Js.truthy (Js.trim (default "" (Leaderboard.profile_username p))) = false
         end).
  assert (H : ∀ l done m, good done m → good (done ++ l) (foldl f m l)).
  { induction l as [|p l IH]; intros done m Hm; cbn [foldl].
    - rewrite app_nil_r. exact Hm.
    - replace (done ++ p :: l) with ((done ++ [p]) ++ l)
        by (rewrite <- app_assoc; reflexivity).
      apply IH. unfold good, f in *.
      destruct (Js.truthy (default "" (Leaderboard.profile_id p))
                && Js.truthy (Js.trim (default "" (Leaderboard.profile_username p))))
        eqn:E.
      + apply andb_true_iff in E as [E1 E2]. rewrite lookup_insert.
        case_decide as Hd.
        * split; [exact E2|]. exists p. split; [|auto].
          apply elem_of_app. right. apply list_elem_of_here.
        * destruct (m !! id) as [u|].
          -- destruct Hm as (Hu & q & Hq & Hq1 & Hq2). split; [exact Hu|].
             exists q. split; [|auto]. apply elem_of_app. left. exact Hq.
          -- intros q Hq Hq1 Hq2. apply elem_of_app in Hq as [Hq|Hq]; [auto|].
             apply list_elem_of_singleton in Hq. subst q. contradiction.
      + destruct (m !! id) as [u|].
        * destruct Hm as (Hu & q & Hq & Hq1 & Hq2). split; [exact Hu|].
          exists q. split; [|auto]. apply elem_of_app. left. exact Hq.
        * intros q Hq Hq1 Hq2. apply elem_of_app in Hq as [Hq|Hq]; [auto|].
          apply list_elem_of_singleton in Hq. subst q.
          rewrite Hq1, Hq2 in E. exact E. }
  apply (H profs [] ∅). unfold good. rewrite lookup_empty.
  intros p Hp. inversion Hp.
Qed.

Lemma fallback_name_truthy (user_id : string) :
  Js.truthy (Leaderboard.fallback_name user_id) = true.
Proof. reflexivity. Qed.

Lemma live_names_truthy (data : list Leaderboard.vote_row)
    (profiles : list string → option (list Leaderboard.profile)) (id u : string) :
  live_names data profiles !! id = Some u → Js.truthy u = true.
Proof.
  unfold live_names. destruct (map _ _); [rewrite lookup_empty; discriminate|].
  destruct (profiles _) as [profs|]; [|rewrite lookup_empty; discriminate].
  intros H. pose proof (byId_of_lookup profs id) as Hl. rewrite H in Hl. apply Hl.
Qed.

Lemma finish_enrich (m : gmap string string) (r : Leaderboard.row) :
  (∀ u, m !! Leaderboard.user_id r = Some u → Js.truthy u = true) →
  Leaderboard.finish (Leaderboard.enrich m r)
  = Leaderboard.mk_row (Leaderboard.user_id r) (Leaderboard.upvotes r)
      (display_name (m !! Leaderboard.user_id r) (Leaderboard.username r)
         (Leaderboard.user_id r)).
Proof.
  intros Hm. unfold Leaderboard.finish, Leaderboard.enrich, display_name.
  cbn [Leaderboard.user_id Leaderboard.upvotes Leaderboard.username]. f_equal.
  pose proof (fallback_name_truthy (Leaderboard.user_id r)) as Hf.
  destruct (m !! Leaderboard.user_id r) as [u|]; cbn [default from_option id].
  - unfold Js.or_else. repeat (rewrite (Hm u eq_refl); cbv iota). reflexivity.
  - unfold Js.or_else. change (Js.truthy "") with false. cbv iota.
    destruct (Js.truthy (Leaderboard.username r)) eqn:E; [rewrite E; reflexivity|].
    rewrite Hf. reflexivity.
Qed.

Lemma loadLeaderboard_rows (data : list Leaderboard.vote_row)
    (profiles : list string → option (list Leaderboard.profile)) :
  Leaderboard.loadLeaderboard (Some data) profiles
  = (λ r, Leaderboard.mk_row (Leaderboard.user_id r) (Leaderboard.upvotes r)
            (display_name (live_names data profiles !! Leaderboard.user_id r)
               (Leaderboard.username r) (Leaderboard.user_id r)))
    <$> Leaderboard.top_rows data.
Proof.
  unfold Leaderboard.loadLeaderboard.
  assert (Hfin : ∀ (m : gmap string string) l,
             (∀ id u, m !! id = Some u → Js.truthy u = true) →
             map Leaderboard.finish (map (Leaderboard.enrich m) l)
             = (λ r, Leaderboard.mk_row (Leaderboard.user_id r) (Leaderboard.upvotes r)
                       (display_name (m !! Leaderboard.user_id r)
                          (Leaderboard.username r) (Leaderboard.user_id r))) <$> l).
  { intros m l Hm. rewrite map_map. apply map_ext. intros r.
    apply finish_enrich. intros u. apply Hm. }
  assert (Hempty : ∀ l,
             map Leaderboard.finish l
             = (λ r, Leaderboard.mk_row (Leaderboard.user_id r) (Leaderboard.upvotes r)
                       (display_name ((∅ : gmap string string) !! Leaderboard.user_id r)
                          (Leaderboard.username r) (Leaderboard.user_id r))) <$> l).
  { intros l. apply map_ext. intros r. rewrite lookup_empty. reflexivity. }
  pose proof (live_names_truthy data profiles) as Ht.
  unfold live_names in *.
  destruct (map Leaderboard.user_id (Leaderboard.top_rows data)) as [|id ids]; [apply Hempty|].
  destruct (profiles (id :: ids)) as [profs|]; [|apply Hempty].
  apply Hfin. exact Ht.
Qed.

Lemma top_rows_ranked (data : list Leaderboard.vote_row) :
  Leaderboard.top_rows data = take 10 (ranked_rows data).
Proof. reflexivity. Qed.

(** C6.  The rows of the leaderboard are at most ten, in descending
    order of upvotes, one for an author; the upvotes of a row are the
    number of votes of value exactly [1] on the suggestions, however
    many, of the author of the row, counted by the author of the
    suggestion; an author with upvotes who has no row has no more
    upvotes than any of the ten rows.  An author with three upvotes on
    two suggestions has a row with 3 upvotes. *)
Theorem leaderboard_counts (data : list Leaderboard.vote_row)
    (profiles : list string → option (list Leaderboard.profile)) :
  let rows := Leaderboard.loadLeaderboard (Some data) profiles in
  (length rows ≤ 10)%nat
  ∧ StronglySorted (λ a b, Leaderboard.upvotes b ≤ Leaderboard.upvotes a) rows
  ∧ NoDup (Leaderboard.user_id <$> rows)
  ∧ (∀ r, r ∈ rows →
       Leaderboard.user_id r ≠ ""
       ∧ 0 < Leaderboard.upvotes r
       ∧ Leaderboard.upvotes r = upvotes_received data (Leaderboard.user_id r))
  ∧ (∀ uid, 0 < upvotes_received data uid →
       uid ∉ Leaderboard.user_id <$> rows →
       length rows = 10%nat
       ∧ ∀ r, r ∈ rows → upvotes_received data uid ≤ Leaderboard.upvotes r)
  ∧ upvotes_received Example_votes.data "X-0123456789" = 3
  ∧ Leaderboard.loadLeaderboard (Some Example_votes.data) Example_votes.no_profiles
    = [Leaderboard.mk_row "X-0123456789" 3 "xena";
       Leaderboard.mk_row "Y-0123456789" 1 "yan"].
Proof.
  intros rows. unfold rows. rewrite loadLeaderboard_rows, top_rows_ranked.
  set (name := λ r : Leaderboard.row, _).
  destruct (ranked_rows_ok data) as (Hnd & Hok & Hall).
  pose proof (ranked_rows_sorted data) as Hs.
  rewrite <- (take_drop 10 (ranked_rows data)) in Hs.
  apply StronglySorted_app in Hs as (Hcross & Hs1 & _).
  assert (Hid : Leaderboard.user_id <$> (name <$> take 10 (ranked_rows data))
                = Leaderboard.user_id <$> take 10 (ranked_rows data)).
  { rewrite <- list_fmap_compose. reflexivity. }
  split; [|split; [|split; [|split; [|split; [|split]]]]].
  - rewrite length_fmap, length_take. lia.
  - apply (StronglySorted_fmap name (λ a b, Leaderboard.upvotes b ≤ Leaderboard.upvotes a));
      [|exact Hs1].
    intros x y Hxy. exact Hxy.
  - rewrite Hid, fmap_take. eapply sublist_NoDup; [exact Hnd|apply sublist_take].
  - intros r Hr. apply list_elem_of_fmap in Hr as (r0 & -> & Hr0).
    unfold name. cbn [Leaderboard.user_id Leaderboard.upvotes].
    assert (Hin : r0 ∈ ranked_rows data).
    { apply elem_of_take in Hr0 as (i & Hi & _). eapply list_elem_of_lookup_2, Hi. }
    destruct (Hok r0 Hin) as (Ht & Hpos & Hup & _).
    split; [apply truthy_true, Ht|]. split; [lia|exact Hup].
  - intros uid Hpos Hnot. rewrite Hid in Hnot.
    apply Hall in Hpos. apply list_elem_of_fmap in Hpos as (r0 & -> & Hr0).
    rewrite <- (take_drop 10 (ranked_rows data)) in Hr0.
    apply elem_of_app in Hr0 as [Hr0|Hr0].
    { exfalso. apply Hnot. apply list_elem_of_fmap. eauto. }
    assert (Hlen : (10 < length (ranked_rows data))%nat).
    { destruct (Nat.le_gt_cases (length (ranked_rows data)) 10) as [Hle|?]; [|assumption].
      rewrite drop_ge in Hr0 by exact Hle. inversion Hr0. }
    split; [rewrite length_fmap, length_take; lia|].
    intros r Hr. apply list_elem_of_fmap in Hr as (r1 & -> & Hr1).
    unfold name. cbn [Leaderboard.upvotes].
    assert (Hin : r0 ∈ ranked_rows data).
    { rewrite <- (take_drop 10 (ranked_rows data)). apply elem_of_app. right. exact Hr0. }
    destruct (Hok r0 Hin) as (_ & _ & <- & _).
    apply (Hcross r1 r0 Hr1 Hr0).
  - vm_compute. reflexivity.
  - vm_compute. reflexivity.
Qed.

(** The stored name as the loop of [loadLeaderboard] reads it. *)
Lemma snapshot_of_stored (v : Leaderboard.vote_row) :
  Leaderboard.snapshot_of v = stored_username v.
Proof.
  unfold Leaderboard.snapshot_of, stored_username.
  destruct (Leaderboard.suggestion v) as [sug|]; [|reflexivity].
  destruct (Leaderboard.ref_author_username sug); reflexivity.
Qed.

Lemma first_snapshot_stored (data : list Leaderboard.vote_row) (uid : string) :
  first_snapshot data uid = snapshot_name data uid.
Proof.
  unfold first_snapshot, snapshot_name. do 2 f_equal.
  rewrite (list_fmap_ext Leaderboard.snapshot_of stored_username)
    by (intros _ v _; apply snapshot_of_stored).
  apply list_filter_iff. intros s. apply truthy_true.
Qed.

Lemma counted_for_fields (uid : string) (v : Leaderboard.vote_row) :
  uid ≠ "" →
  counted_for uid v = true ↔
  Leaderboard.vote v = Some 1
  ∧ ∃ sug, Leaderboard.suggestion v = Some sug ∧ Leaderboard.ref_user_id sug = Some uid.
Proof.
  intros Hne. unfold counted_for, Leaderboard.author_of.
  rewrite !andb_true_iff, Z.eqb_eq, String.eqb_eq. split.
  - intros [[Hv _] Hu]. split.
    + destruct (Leaderboard.vote v) as [n|]; cbn in Hv; [congruence|discriminate Hv].
    + destruct (Leaderboard.suggestion v) as [sug|]; [|cbn in Hu; congruence].
      exists sug. split; [reflexivity|].
      destruct (Leaderboard.ref_user_id sug); cbn in Hu; congruence.
  - intros (Hv & sug & -> & ->). rewrite Hv. cbn [default from_option id].
    split; [split; [reflexivity|apply truthy_true, Hne]|reflexivity].
Qed.

Lemma snapshot_name_cons (v : Leaderboard.vote_row) (data : list Leaderboard.vote_row)
    (uid : string) :
  snapshot_name (v :: data) uid
  = if counted_for uid v && Js.truthy (stored_username v)
    then stored_username v else snapshot_name data uid.
Proof.
  unfold snapshot_name. rewrite filter_cons.
  destruct (counted_for uid v); case_decide; try congruence; cbn [andb]; [|reflexivity].
  cbn [fmap list_fmap]. rewrite filter_cons.
  destruct (Js.truthy (stored_username v)) eqn:E; case_decide as Hd.
  - reflexivity.
  - apply truthy_true in E. contradiction.
  - apply truthy_false in E. contradiction.
  - reflexivity.
Qed.

(** The snapshot is the stored name of the first counted vote for the
    author that has one. *)
Lemma snapshot_name_first (data : list Leaderboard.vote_row) (uid : string) :
  if decide (snapshot_name data uid = "") then
    ∀ v, v ∈ data → counted_for uid v = true → stored_username v = ""
  else
    ∃ before v after,
      data = before ++ v :: after ∧ counted_for uid v = true
      ∧ stored_username v = snapshot_name data uid
      ∧ ∀ v', v' ∈ before → counted_for uid v' = true → stored_username v' = "".
Proof.
  induction data as [|v data IH].
  - rewrite decide_True by reflexivity. intros v Hv. inversion Hv.
  - rewrite snapshot_name_cons.
    destruct (counted_for uid v && Js.truthy (stored_username v)) eqn:E.
    + apply andb_true_iff in E as [Ec Et].
      rewrite decide_False by (apply truthy_true, Et).
      exists [], v, data. split; [reflexivity|]. split; [exact Ec|].
      split; [reflexivity|]. intros v' Hv'. inversion Hv'.
    + assert (Hv : counted_for uid v = true → stored_username v = "").
      { intros Ec. rewrite Ec in E. apply truthy_false, E. }
      destruct (decide (snapshot_name data uid = "")) as [Es|Es].
      * intros v' Hv' Hc. apply elem_of_cons in Hv' as [->|Hv']; [auto|].
        apply IH; assumption.
      * destruct IH as (before & v0 & after & -> & Hc & Hs & Hb).
        exists (v :: before), v0, after. split; [reflexivity|].
        split; [exact Hc|]. split; [exact Hs|].
        intros v' Hv' Hc'. apply elem_of_cons in Hv' as [->|Hv']; [auto|].
        apply Hb; assumption.
Qed.

(** C9.  The display name of a row of the leaderboard is not empty.  It
    is the trimmed user name of a profile of the author when the lookup
    of the profiles gives one that is not empty; else the snapshot: the
    user name stored on the first suggestion of the author, among those
    with a counted vote, whose stored name is not blank; else ["user:"]
    followed by the first eight characters of the author id.  When the
    lookup fails or has no such profile the name is the second or the
    third of these.  In the example the three rows take their names from
    the snapshot, from the profile and from the author id. *)
Theorem leaderboard_names (data : list Leaderboard.vote_row)
    (profiles : list string → option (list Leaderboard.profile))
    (r : Leaderboard.row) :
  r ∈ Leaderboard.loadLeaderboard (Some data) profiles →
  let id := Leaderboard.user_id r in
  let live := live_names data profiles !! id in
  let snapshot := snapshot_name data id in
  Leaderboard.username r ≠ ""
  ∧ Leaderboard.username r = display_name live snapshot id
  ∧ match live with
    | Some name =>
        name ≠ ""
        ∧ ∃ profs p,
            profiles (Leaderboard.user_id <$> Leaderboard.top_rows data) = Some profs
            ∧ p ∈ profs ∧ Leaderboard.profile_id p = Some id
            ∧ Js.trim (default "" (Leaderboard.profile_username p)) = name
    | None =>
        ∀ profs p,
          profiles (Leaderboard.user_id <$> Leaderboard.top_rows data) = Some profs →
          p ∈ profs → Leaderboard.profile_id p = Some id →
          Js.trim (default "" (Leaderboard.profile_username p)) = ""
    end
  ∧ (if decide (snapshot = "") then
       ∀ v sug, v ∈ data → Leaderboard.vote v = Some 1 →
                Leaderboard.suggestion v = Some sug →
                Leaderboard.ref_user_id sug = Some id →
                stored_username v = ""
     else
       ∃ before v after sug,
         data = before ++ v :: after
         ∧ Leaderboard.vote v = Some 1 ∧ Leaderboard.suggestion v = Some sug
         ∧ Leaderboard.ref_user_id sug = Some id
         ∧ stored_username v = snapshot
         ∧ ∀ v' sug', v' ∈ before → Leaderboard.vote v' = Some 1 →
                      Leaderboard.suggestion v' = Some sug' →
                      Leaderboard.ref_user_id sug' = Some id →
                      stored_username v' = "")
  ∧ Leaderboard.fallback_name id = "user:" +:+ String.substring 0 8 id
  ∧ Leaderboard.loadLeaderboard (Some Example_names.data) Example_names.profiles
    = [Leaderboard.mk_row "S-0123456789" 2 "sam";
       Leaderboard.mk_row "L-0123456789" 1 "lena";
       Leaderboard.mk_row "F-0123456789" 1 "user:F-012345"].
Proof.
  rewrite loadLeaderboard_rows. intros Hr id live snapshot.
  apply list_elem_of_fmap in Hr as (r0 & Er & Hr0).
  assert (Hin : r0 ∈ ranked_rows data).
  { rewrite top_rows_ranked in Hr0. apply elem_of_take in Hr0 as (i & Hi & _).
    eapply list_elem_of_lookup_2, Hi. }
  destruct (ranked_rows_ok data) as (_ & Hok & _).
  destruct (Hok r0 Hin) as (Ht & _ & _ & Hname).
  rewrite first_snapshot_stored in Hname.
  assert (Eid : id = Leaderboard.user_id r0) by (unfold id; rewrite Er; reflexivity).
  assert (Hid : id ≠ "") by (rewrite Eid; apply truthy_true, Ht).
  assert (Eu : Leaderboard.username r = display_name live snapshot id).
  { unfold live, snapshot. rewrite Eid, <- Hname, Er. reflexivity. }
  assert (Hlive : ∀ u, live = Some u → Js.truthy u = true)
    by (intros u; apply live_names_truthy).
  assert (Hids : map Leaderboard.user_id (Leaderboard.top_rows data) ≠ []).
  { intros E. apply (f_equal length) in E. rewrite length_map in E.
    destruct (Leaderboard.top_rows data); [inversion Hr0|discriminate E]. }
  split; [|split; [exact Eu|split; [|split; [|split]]]].
  - rewrite Eu. apply truthy_true. unfold display_name.
    destruct live as [u|]; [apply Hlive; reflexivity|].
    destruct (Js.truthy snapshot) eqn:E; [exact E|apply fallback_name_truthy].
  - unfold live, live_names in Hlive |- *.
    change (Leaderboard.user_id <$> Leaderboard.top_rows data)
      with (map Leaderboard.user_id (Leaderboard.top_rows data)).
    destruct (map Leaderboard.user_id (Leaderboard.top_rows data)) as [|i ids] eqn:Ei;
      [contradiction|].
    destruct (profiles (i :: ids)) as [profs|].
    + pose proof (byId_of_lookup profs id) as Hl.
      destruct (Leaderboard.byId_of profs !! id) as [u|].
      * destruct Hl as (Hu & p & Hp & Hp1 & Hp2).
        split; [apply truthy_true, Hu|]. exists profs, p.
        split; [reflexivity|]. split; [exact Hp|]. split; [|exact Hp2].
        destruct (Leaderboard.profile_id p) as [pid|]; cbn in Hp1; [congruence|].
        rewrite <- Eid, <- Hp1 in Ht. discriminate Ht.
      * intros profs' p [= <-] Hp Hp1. apply truthy_false.
        apply (Hl p Hp); [rewrite Hp1; reflexivity|rewrite Eid; exact Ht].
    + rewrite lookup_empty. intros profs' p Hnone. discriminate Hnone.
  - pose proof (snapshot_name_first data id) as Hf. fold snapshot in Hf.
    destruct (decide (snapshot = "")) as [Es|Es].
    + intros v sug Hv H1 H2 H3. apply (Hf v Hv).
      apply (counted_for_fields id v Hid). eauto.
    + destruct Hf as (before & v & after & Hd & Hc & Hs & Hb).
      apply (counted_for_fields id v Hid) in Hc as (H1 & sug & H2 & H3).
      exists before, v, after, sug. repeat (split; [assumption|]).
      intros v' sug' Hv' H1' H2' H3'. apply (Hb v' Hv').
      apply (counted_for_fields id v' Hid). eauto.
  - reflexivity.
  - vm_compute. reflexivity.
Qed.

Lemma leaderboard_names_witness :
  Leaderboard.mk_row "S-0123456789" 2 "sam"
    ∈ Leaderboard.loadLeaderboard (Some Example_names.data) Example_names.profiles
  ∧ Leaderboard.username (Leaderboard.mk_row "S-0123456789" 2 "sam") ≠ ""
  ∧ snapshot_name Example_names.data "S-0123456789" = "sam".
Proof.
  assert (H : Leaderboard.mk_row "S-0123456789" 2 "sam"
                ∈ Leaderboard.loadLeaderboard (Some Example_names.data)
                    Example_names.profiles).
  { vm_compute. apply list_elem_of_here. }
  split; [exact H|].
  pose proof (leaderboard_names Example_names.data Example_names.profiles _ H) as HH.
  cbv zeta in HH. destruct HH as (Hne & _).
  split; [exact Hne|vm_compute; reflexivity].
Defined.

(** * Further properties of the viewer and of the ingestion script *)

(** ** Line identifiers *)

Lemma string_of_N_inj (a b : N) : Js.string_of_N a = Js.string_of_N b → a = b.
Proof.
  intros H. apply (f_equal Js.parseInt10) in H.
  rewrite !parseInt10_string_of_N in H. lia.
Qed.

Lemma string_of_N_digits (n : N) :
  Forall (λ c, Js.is_digit c = true) (String.list_ascii_of_string (Js.string_of_N n)).
Proof. apply string_of_uint_digits. Qed.

Lemma list_ascii_of_string_inj (s1 s2 : string) :
  String.list_ascii_of_string s1 = String.list_ascii_of_string s2 → s1 = s2.
Proof.
  intros H. apply (f_equal String.string_of_list_ascii) in H.
  rewrite !String.string_of_list_ascii_of_string in H. exact H.
Qed.

(** The identifier of a line determines its paragraph and line index. *)
Lemma uid_of_inj (p l p' l' : nat) : uid_of p l = uid_of p' l' → p = p' ∧ l = l'.
Proof.
  unfold uid_of. intros H. apply (f_equal String.list_ascii_of_string) in H.
  rewrite !list_ascii_of_string_app in H. cbn [String.list_ascii_of_string app] in H.
  pose proof (f_equal span_digits H) as Hs.
  rewrite !span_digits_app in Hs by (apply string_of_N_digits || reflexivity).
  injection Hs as H1 H2.
  apply list_ascii_of_string_inj, string_of_N_inj in H1, H2. lia.
Qed.

(** The identifiers given to the lines of the paragraphs [pars], the
    first paragraph counted as number [k]. *)
Lemma uids_from_NoDup (k : nat) (pars : list Paragraph.t) :
  NoDup (concat (imap (λ p par, uid_of (k + p) <$> seq 0 (length (Paragraph.lines par)))
                      pars))
  ∧ ∀ u, u ∈ concat (imap (λ p par,
                              uid_of (k + p) <$> seq 0 (length (Paragraph.lines par)))
                           pars) →
         ∃ p l, u = uid_of p l ∧ (k ≤ p)%nat.
Proof.
  revert k. induction pars as [|par pars IH]; intros k.
  - split; [constructor|]. intros u Hu. inversion Hu.
  - cbn [imap concat].
    rewrite (imap_ext _ (λ p par0, uid_of (S k + p)
                                     <$> seq 0 (length (Paragraph.lines par0))));
      [|intros i x _; cbn; f_equal; f_equal; lia].
    destruct (IH (S k)) as [Hnd Hin].
    split.
    + apply NoDup_app. split; [|split; [|exact Hnd]].
      * apply (NoDup_fmap_2_strong (uid_of (k + 0))); [|apply NoDup_seq].
        intros a b _ _ Hab. apply uid_of_inj in Hab. lia.
      * intros u Hu Hu'. apply list_elem_of_fmap in Hu as (l & -> & _).
        apply Hin in Hu' as (p' & l' & Hp & Hle). apply uid_of_inj in Hp. lia.
    + intros u Hu. apply elem_of_app in Hu as [Hu|Hu].
      * apply list_elem_of_fmap in Hu as (l & -> & _). exists (k + 0)%nat, l.
        split; [reflexivity|lia].
      * apply Hin in Hu as (p' & l' & -> & Hle). exists p', l'. split; [reflexivity|lia].
Qed.

Lemma uids_from_lines (k : nat) (pars : list Paragraph.t) :
  LineWithUid.uid
    <$> concat (imap (λ p par, imap (λ l x, LineWithUid.mk x (uid_of (k + p) l))
                                 (Paragraph.lines par))
                     pars)
  = concat (imap (λ p par, uid_of (k + p) <$> seq 0 (length (Paragraph.lines par)))
                 pars).
Proof.
  revert k. induction pars as [|par pars IH]; intros k; [reflexivity|].
  cbn [imap concat]. rewrite fmap_app. f_equal.
  - rewrite fmap_imap, <- (imap_seq_0 (Paragraph.lines par) (uid_of (k + 0))).
    apply imap_ext. reflexivity.
  - rewrite (imap_ext _ (λ p par0,
                           imap (λ l x, LineWithUid.mk x (uid_of (S k + p) l))
                             (Paragraph.lines par0)));
      [|intros i x _; cbn; apply imap_ext; intros; do 2 f_equal; lia].
    rewrite IH. f_equal. apply imap_ext. intros i x _. cbn. do 2 f_equal. lia.
Qed.

Lemma getAllLinesForPage_uid (p : PageObj.t) :
  LineWithUid.uid <$> getAllLinesForPage p
  = concat (imap (λ i par, uid_of (0 + i) <$> seq 0 (length (Paragraph.lines par)))
                 (PageObj.paragraphs p)).
Proof. unfold getAllLinesForPage. apply (uids_from_lines 0). Qed.

Lemma getAllLinesForPage_NoDup (p : PageObj.t) :
  NoDup (LineWithUid.uid <$> getAllLinesForPage p).
Proof. rewrite getAllLinesForPage_uid. apply uids_from_NoDup. Qed.

Lemma lines_of_numbered (f : nat → nat → string) (pars : list Paragraph.t) :
  LineWithUid.line
    <$> concat (imap (λ p par, imap (λ l x, LineWithUid.mk x (f p l))
                                 (Paragraph.lines par))
                     pars)
  = concat (Paragraph.lines <$> pars).
Proof.
  revert f. induction pars as [|par pars IH]; intros f; [reflexivity|].
  cbn [imap concat fmap list_fmap]. rewrite fmap_app. f_equal.
  - rewrite fmap_imap. cbn. rewrite (imap_const id). apply list_fmap_id.
  - apply (IH (λ p, f (S p))).
Qed.

Lemma getAllLinesForPage_line (p : PageObj.t) :
  LineWithUid.line <$> getAllLinesForPage p
  = concat (Paragraph.lines <$> PageObj.paragraphs p).
Proof. apply (lines_of_numbered uid_of). Qed.

Lemma getAllLinesForPage_elem_of (p : PageObj.t) (l : LineWithUid.t) :
  l ∈ getAllLinesForPage p ↔
  ∃ i j par, PageObj.paragraphs p !! i = Some par
             ∧ Paragraph.lines par !! j = Some (LineWithUid.line l)
             ∧ LineWithUid.uid l = uid_of i j.
Proof.
  unfold getAllLinesForPage. rewrite list_elem_of_In, in_concat. split.
  - intros (ls & Hls & Hl). apply list_elem_of_In, elem_of_lookup_imap in Hls.
    destruct Hls as (i & par & -> & Hi).
    apply list_elem_of_In, elem_of_lookup_imap in Hl as (j & x & -> & Hj).
    exists i, j, par. auto.
  - intros (i & j & par & Hi & Hj & Hu).
    exists (imap (λ lIdx l0, LineWithUid.mk l0 (uid_of i lIdx)) (Paragraph.lines par)).
    split; apply list_elem_of_In, elem_of_lookup_imap.
    + exists i, par. auto.
    + exists j, (LineWithUid.line l). split; [|exact Hj].
      destruct l as [x u]. cbn in Hu |- *. rewrite Hu. reflexivity.
Qed.

(** X1.  [getAllLinesForPage] lists the lines of the page in document
    order, paragraph after paragraph, none dropped or repeated; the
    identifiers it gives them are pairwise distinct, and the identifier
    of a line is that of its paragraph index and its index in the
    paragraph. *)
Theorem getAllLinesForPage_distinct_uids (p : PageObj.t) :
  LineWithUid.line <$> getAllLinesForPage p
  = concat (Paragraph.lines <$> PageObj.paragraphs p)
  ∧ NoDup (LineWithUid.uid <$> getAllLinesForPage p)
  ∧ (∀ l, l ∈ getAllLinesForPage p ↔
       ∃ i j par, PageObj.paragraphs p !! i = Some par
                  ∧ Paragraph.lines par !! j = Some (LineWithUid.line l)
                  ∧ LineWithUid.uid l = uid_of i j)
  ∧ (∀ i j i' j', uid_of i j = uid_of i' j' → i = i' ∧ j = j').
Proof.
  split; [apply getAllLinesForPage_line|].
  split; [apply getAllLinesForPage_NoDup|].
  split; [apply getAllLinesForPage_elem_of|].
  apply uid_of_inj.
Qed.

(** ** The index and the table of highlight boxes *)

Lemma kept_box_uid (pageObj : PageObj.t) (l : LineWithUid.t) (b : HitBox.t) :
  kept_box pageObj l = Some b → HitBox.uid b = LineWithUid.uid l.
Proof.
  unfold kept_box.
  destruct (Geometry.classify _ _ l) as [| | | | | | | |b'] eqn:E; try discriminate.
  intros [= ->]. apply classify_Keep in E as (_ & _ & -> & _).
  unfold Geometry.normalized. destruct (LineWithUid.bbox l) as [[[x1 y1] x2] y2].
  repeat match goal with |- context [if ?c then _ else _] => destruct c end;
    reflexivity.
Qed.

Lemma loop_body_boxByUid (production : bool) (pageObj : PageObj.t)
    (a : Render.acc) (l : LineWithUid.t) :
  Render.boxByUid (Render.loop_body production pageObj a l)
  = match kept_box pageObj l with
    | Some b => <[LineWithUid.uid l := box_of b]> (Render.boxByUid a)
    | None => Render.boxByUid a
    end.
Proof.
  unfold kept_box, Render.loop_body.
  destruct (Geometry.classify _ _ l); reflexivity.
Qed.

(** The lines after the one that wrote an entry do not touch it. *)
Lemma fold_boxByUid_frame (production : bool) (pageObj : PageObj.t)
    (lines : list LineWithUid.t) (a : Render.acc) (u : string) :
  u ∉ LineWithUid.uid <$> lines →
  Render.boxByUid (foldl (Render.loop_body production pageObj) a lines) !! u
  = Render.boxByUid a !! u.
Proof.
  revert a. induction lines as [|l lines IH]; intros a Hu; [reflexivity|].
  cbn [foldl]. rewrite fmap_cons, not_elem_of_cons in Hu. destruct Hu as [Hne Hu].
  rewrite (IH _ Hu), loop_body_boxByUid.
  destruct (kept_box pageObj l); [|reflexivity].
  apply lookup_insert_ne. congruence.
Qed.

Lemma fold_boxByUid_kept (production : bool) (pageObj : PageObj.t)
    (lines : list LineWithUid.t) (a : Render.acc) (l : LineWithUid.t) :
  NoDup (LineWithUid.uid <$> lines) → l ∈ lines →
  Render.boxByUid (foldl (Render.loop_body production pageObj) a lines)
    !! LineWithUid.uid l
  = match kept_box pageObj l with
    | Some b => Some (box_of b)
    | None => Render.boxByUid a !! LineWithUid.uid l
    end.
Proof.
  revert a. induction lines as [|l0 lines IH]; intros a Hnd Hl; [inversion Hl|].
  rewrite fmap_cons in Hnd. apply NoDup_cons in Hnd as [Hl0 Hnd].
  cbn [foldl]. apply elem_of_cons in Hl as [->|Hl].
  - rewrite (fold_boxByUid_frame _ _ _ _ _ Hl0), loop_body_boxByUid.
    destruct (kept_box pageObj l0); [apply lookup_insert_eq|reflexivity].
  - rewrite (IH _ Hnd Hl). destruct (kept_box pageObj l); [reflexivity|].
    rewrite loop_body_boxByUid. destruct (kept_box pageObj l0); [|reflexivity].
    apply lookup_insert_ne. intros E. apply Hl0. rewrite E.
    apply list_elem_of_fmap. eauto.
Qed.

(** The table after the loop: the box of a line of the page that was
    kept, nothing for the other identifiers. *)
Lemma loop_boxByUid_line (production : bool) (pageObj : PageObj.t) (l : LineWithUid.t) :
  l ∈ getAllLinesForPage pageObj →
  Render.boxByUid (Render.loop production pageObj) !! LineWithUid.uid l
  = box_of <$> kept_box pageObj l.
Proof.
  intros Hl. unfold Render.loop.
  rewrite (fold_boxByUid_kept _ _ _ _ l (getAllLinesForPage_NoDup pageObj) Hl).
  destruct (kept_box pageObj l); reflexivity.
Qed.

Lemma loop_boxByUid_other (production : bool) (pageObj : PageObj.t) (u : string) :
  u ∉ LineWithUid.uid <$> getAllLinesForPage pageObj →
  Render.boxByUid (Render.loop production pageObj) !! u = None.
Proof.
  intros Hu. unfold Render.loop. rewrite (fold_boxByUid_frame _ _ _ _ _ Hu).
  apply lookup_empty.
Qed.

Lemma hitBoxes_of_elem_of (production : bool) (pageObj : PageObj.t) (b : HitBox.t) :
  b ∈ Render.hitBoxes_of production pageObj ↔
  ∃ l, l ∈ getAllLinesForPage pageObj ∧ kept_box pageObj l = Some b.
Proof.
  unfold Render.hitBoxes_of.
  rewrite sort_elem_of, loop_nextHitBoxes, list_elem_of_omap. reflexivity.
Qed.

Lemma omap_kept_uids_NoDup (pageObj : PageObj.t) (lines : list LineWithUid.t) :
  NoDup (LineWithUid.uid <$> lines) →
  NoDup (HitBox.uid <$> omap (kept_box pageObj) lines).
Proof.
  induction lines as [|l lines IH]; intros Hnd; [constructor|].
  rewrite fmap_cons in Hnd. apply NoDup_cons in Hnd as [Hl Hnd].
  cbn [omap list_omap]. destruct (kept_box pageObj l) as [b|] eqn:E; [|apply IH, Hnd].
  rewrite fmap_cons. apply NoDup_cons. split; [|apply IH, Hnd].
  intros Hin. apply list_elem_of_fmap in Hin as (b' & Hu & Hb').
  apply list_elem_of_omap in Hb' as (l' & Hl' & E').
  apply Hl. apply list_elem_of_fmap. exists l'. split; [|exact Hl'].
  rewrite <- (kept_box_uid _ _ _ E), <- (kept_box_uid _ _ _ E'). exact Hu.
Qed.

(** X2.  After the loop of the page-render effect the index and the
    table of highlight boxes agree: the boxes of the index have pairwise
    distinct identifiers, each the identifier of a line of the page; the
    table holds, under the identifier of every box of the index, the
    rectangle of that box, and it holds nothing else. *)
Theorem index_and_boxes_agree (production : bool) (pageObj : PageObj.t) :
  let hitBoxes := Render.hitBoxes_of production pageObj in
  let boxes := Render.boxByUid (Render.loop production pageObj) in
  NoDup (HitBox.uid <$> hitBoxes)
  ∧ (∀ b, b ∈ hitBoxes →
       boxes !! HitBox.uid b = Some (box_of b)
       ∧ HitBox.uid b ∈ LineWithUid.uid <$> getAllLinesForPage pageObj)
  ∧ (∀ u box, boxes !! u = Some box →
       ∃ b, b ∈ hitBoxes ∧ HitBox.uid b = u ∧ box = box_of b).
Proof.
  intros hitBoxes boxes. split; [|split].
  - unfold hitBoxes, Render.hitBoxes_of.
    eapply (NoDup_Permutation_proper _ _ (fmap_Permutation _ _ _ (sort_perm _ _))).
    rewrite loop_nextHitBoxes.
    apply omap_kept_uids_NoDup, getAllLinesForPage_NoDup.
  - intros b Hb. apply hitBoxes_of_elem_of in Hb as (l & Hl & Hk).
    rewrite (kept_box_uid _ _ _ Hk). split.
    + unfold boxes. rewrite (loop_boxByUid_line _ _ _ Hl), Hk. reflexivity.
    + apply list_elem_of_fmap. eauto.
  - intros u box Hu.
    destruct (decide (u ∈ LineWithUid.uid <$> getAllLinesForPage pageObj)) as [Hin|Hout].
    + apply list_elem_of_fmap in Hin as (l & -> & Hl).
      unfold boxes in Hu. rewrite (loop_boxByUid_line _ _ _ Hl) in Hu.
      destruct (kept_box pageObj l) as [b|] eqn:Hk; [|discriminate].
      injection Hu as <-. exists b. split; [|split; [|reflexivity]].
      * apply hitBoxes_of_elem_of. eauto.
      * apply (kept_box_uid _ _ _ Hk).
    + unfold boxes in Hu. rewrite (loop_boxByUid_other _ _ _ Hout) in Hu. discriminate.
Qed.

(** ** The state after the page-render effect *)

Lemma after_effect_indexed (production : bool) (numPages n : Z) (d : DocJson)
    (pageObj : PageObj.t) (st : Highlight.state) :
  Highlight.doc st = Some d → Highlight.pageKey st ≠ "" →
  pageKeyToNumber (Highlight.pageKey st) = Some n → 1 ≤ n ≤ numPages →
  doc_get d (Highlight.pageKey st) = Some pageObj →
  after_effect production (Some numPages) Render.Raster_done st
  = Highlight.mk_state (Highlight.doc st) (Highlight.pageKey st)
      (Render.hitBoxes_of production pageObj)
      (Render.boxByUid (Render.loop production pageObj))
      (Highlight.activeSource st) (Highlight.activeId st) None
      (Highlight.collapseSuggestions st) (Highlight.collapsedUid st)
      (Highlight.openSuggestUid st)
      (Highlight.isDragging st) (Highlight.hoverRaf st) (Highlight.hoverPt st).
Proof.
  intros Hd Hk Hn Hr Hp. unfold after_effect.
  rewrite Hd, (effect_indexed production d numPages _ n pageObj Hk Hn Hr Hp).
  unfold Highlight.no_transcription. rewrite Hd, Hp.
  destruct (String.eqb_spec (Highlight.pageKey st) ""); [contradiction|].
  reflexivity.
Qed.

(** X3.  Once the page-render effect has indexed a page with
    transcription, a click that picks a box makes the line of the box
    the active line, with the page as source, and the highlight box is
    the rectangle of the picked box, never absent; the picked line is one
    of the lines shown in the transcript pane. *)
Theorem click_highlights_picked_box (production : bool) (numPages n : Z) (d : DocJson)
    (pageObj : PageObj.t) (st : Highlight.state) (e : Highlight.mouse) (b : HitBox.t) :
  Highlight.doc st = Some d → Highlight.pageKey st ≠ "" →
  pageKeyToNumber (Highlight.pageKey st) = Some n → 1 ≤ n ≤ numPages →
  doc_get d (Highlight.pageKey st) = Some pageObj →
  let st' := after_effect production (Some numPages) Render.Raster_done st in
  click_target st' e = Some b →
  Highlight.highlight (Highlight.onHitSvgClick st' e)
  = (Some (HitBox.uid b), Some Highlight.Src_left, Some (box_of b))
  ∧ ∃ l, l ∈ Render.transcript d (Highlight.pageKey st)
         ∧ LineWithUid.uid l = HitBox.uid b.
Proof.
  intros Hd Hk Hn Hr Hp st' Ht.
  assert (Est : st' = _) by apply (after_effect_indexed production numPages n d pageObj st
                                     Hd Hk Hn Hr Hp).
  assert (Hb : b ∈ Render.hitBoxes_of production pageObj).
  { unfold click_target in Ht.
    destruct (Highlight.isDragging st'); [discriminate|].
    destruct (Highlight.no_transcription st'); [discriminate|].
    destruct (Highlight.bad_rect e); [discriminate|].
    apply pickBoxAt_Some in Ht as (before & after & Hh & _).
    rewrite Est in Hh. cbn [Highlight.hitBoxes] in Hh. rewrite Hh.
    apply elem_of_app. right. apply list_elem_of_here. }
  apply hitBoxes_of_elem_of in Hb as (l & Hl & Hkept).
  pose proof (kept_box_uid _ _ _ Hkept) as Hu. split.
  - rewrite onHitSvgClick_target, Ht. unfold Highlight.highlight.
    cbn [Highlight.activeId Highlight.activeSource Highlight.activeBox].
    rewrite Est. cbn [Highlight.boxByUid].
    rewrite Hu, (loop_boxByUid_line _ _ _ Hl), Hkept. reflexivity.
  - exists l. split; [|symmetry; exact Hu].
    unfold Render.transcript. rewrite Hp.
    destruct (String.eqb_spec (Highlight.pageKey st) ""); [contradiction|exact Hl].
Qed.

Lemma click_highlights_picked_box_witness :
  ∃ b, click_target (after_effect false (Some 1) Render.Raster_done Example_clicks.idle)
         Example_clicks.inside = Some b
       ∧ Highlight.highlight
           (Highlight.onHitSvgClick
              (after_effect false (Some 1) Render.Raster_done Example_clicks.idle)
              Example_clicks.inside)
         = (Some (HitBox.uid b), Some Highlight.Src_left, Some (box_of b)).
Proof.
  eexists. split; [vm_compute; reflexivity|].
  apply (click_highlights_picked_box false 1 1 Example.doc Example.page
           Example_clicks.idle Example_clicks.inside);
    [reflexivity|discriminate|vm_compute; reflexivity|lia
    |vm_compute; reflexivity|vm_compute; reflexivity].
Defined.

(** X4.  Once the page-render effect has indexed a page with
    transcription, the animation frame of a pointer move that picks a box
    sets the line of the box, the page as source and the rectangle of the
    box, unless that line was already active with the page as source:
    then the frame changes nothing, and the highlight box stays cleared
    as the effect left it. *)
Theorem hover_highlights_picked_box (production : bool) (numPages n : Z) (d : DocJson)
    (pageObj : PageObj.t) (st : Highlight.state) (e : Highlight.mouse) (b : HitBox.t) :
  Highlight.doc st = Some d → Highlight.pageKey st ≠ "" →
  pageKeyToNumber (Highlight.pageKey st) = Some n → 1 ≤ n ≤ numPages →
  doc_get d (Highlight.pageKey st) = Some pageObj →
  Highlight.hoverRaf st = None →
  let st' := after_effect production (Some numPages) Render.Raster_done st in
  Highlight.bad_rect e = false →
  Highlight.pickBoxAt (Highlight.hitBoxes st')
    (Geometry.clamp01 (Highlight.point_of e).1)
    (Geometry.clamp01 (Highlight.point_of e).2) = Some b →
  Highlight.highlight
    (Highlight.step (Highlight.step st' (Highlight.Move e)) Highlight.Frame)
  = if bool_decide (Highlight.activeId st = Some (HitBox.uid b))
       && bool_decide (Highlight.activeSource st = Some Highlight.Src_left)
    then (Highlight.activeId st, Highlight.activeSource st, None)
    else (Some (HitBox.uid b), Some Highlight.Src_left, Some (box_of b)).
Proof.
  intros Hd Hk Hn Hr Hp Hraf st' Hrect Hpick.
  assert (Est : st' = _) by apply (after_effect_indexed production numPages n d pageObj st
                                     Hd Hk Hn Hr Hp).
  assert (Hb : b ∈ Render.hitBoxes_of production pageObj).
  { apply pickBoxAt_Some in Hpick as (before & after & Hh & _).
    rewrite Est in Hh. cbn [Highlight.hitBoxes] in Hh. rewrite Hh.
    apply elem_of_app. right. apply list_elem_of_here. }
  apply hitBoxes_of_elem_of in Hb as (l & Hl & Hkept).
  pose proof (kept_box_uid _ _ _ Hkept) as Hu.
  cbn [Highlight.step]. unfold Highlight.onHitSvgMouseMove. rewrite Hrect.
  cbn [Highlight.hoverRaf].
  assert (Hraf' : Highlight.hoverRaf st' = None) by (rewrite Est; exact Hraf).
  rewrite Hraf'. unfold Highlight.hover_frame.
  cbn [Highlight.hoverPt Highlight.seen_hitBoxes Highlight.seen_activeId
       Highlight.seen_activeSource].
  destruct (Highlight.point_of e) as [px py]. cbn [fst snd] in Hpick. rewrite Hpick.
  assert (Ha : Highlight.activeId st' = Highlight.activeId st) by (rewrite Est; reflexivity).
  assert (Hs : Highlight.activeSource st' = Highlight.activeSource st)
    by (rewrite Est; reflexivity).
  assert (Hx : Highlight.activeBox st' = None) by (rewrite Est; reflexivity).
  rewrite Ha, Hs.
  destruct (bool_decide (Highlight.activeId st = Some (HitBox.uid b))
            && bool_decide (Highlight.activeSource st = Some Highlight.Src_left)).
  - unfold Highlight.highlight.
    cbn [Highlight.activeId Highlight.activeSource Highlight.activeBox].
    rewrite Hx. reflexivity.
  - unfold Highlight.highlight, Highlight.set_active.
    cbn [Highlight.activeId Highlight.activeSource Highlight.activeBox Highlight.boxByUid].
    rewrite Est. cbn [Highlight.boxByUid].
    rewrite Hu, (loop_boxByUid_line _ _ _ Hl), Hkept. reflexivity.
Qed.

Lemma hover_highlights_picked_box_witness :
  ∃ b, Highlight.highlight
         (Highlight.step
            (Highlight.step
               (after_effect false (Some 1) Render.Raster_done Example_clicks.idle)
               (Highlight.Move Example_clicks.inside))
            Highlight.Frame)
       = (Some (HitBox.uid b), Some Highlight.Src_left, Some (box_of b))
       ∧ HitBox.uid b = "0-0".
Proof.
  eexists. split; [|shelve].
  refine (hover_highlights_picked_box false 1 1 Example.doc Example.page
            Example_clicks.idle Example_clicks.inside _ _ _ _ _ _ _ _ _);
    [reflexivity|discriminate|vm_compute; reflexivity|lia
    |vm_compute; reflexivity|reflexivity|vm_compute; reflexivity
    |vm_compute; reflexivity].
  Unshelve. reflexivity.
Defined.

(** X5.  Once the page-render effect has indexed a page with
    transcription, the pointer entering a line of the transcript pane
    makes it the active line with the transcript as source; the highlight
    box is the rectangle of the line when the loop kept its box, and
    there is none when the loop rejected the line. *)
Theorem line_hover_box_iff_kept (production : bool) (numPages n : Z) (d : DocJson)
    (pageObj : PageObj.t) (st : Highlight.state) (l : LineWithUid.t) :
  Highlight.doc st = Some d → Highlight.pageKey st ≠ "" →
  pageKeyToNumber (Highlight.pageKey st) = Some n → 1 ≤ n ≤ numPages →
  doc_get d (Highlight.pageKey st) = Some pageObj →
  l ∈ Render.transcript d (Highlight.pageKey st) →
  let st' := after_effect production (Some numPages) Render.Raster_done st in
  Highlight.highlight (Highlight.onLineEnter st' (LineWithUid.uid l))
  = (Some (LineWithUid.uid l), Some Highlight.Src_right, box_of <$> kept_box pageObj l).
Proof.
  intros Hd Hk Hn Hr Hp Hl st'.
  assert (Est : st' = _) by apply (after_effect_indexed production numPages n d pageObj st
                                     Hd Hk Hn Hr Hp).
  unfold Render.transcript in Hl. rewrite Hp in Hl.
  destruct (String.eqb_spec (Highlight.pageKey st) ""); [contradiction|].
  unfold Highlight.highlight, Highlight.onLineEnter.
  cbn [Highlight.activeId Highlight.activeSource Highlight.activeBox].
  rewrite Est. cbn [Highlight.boxByUid].
  rewrite (loop_boxByUid_line _ _ _ Hl). reflexivity.
Qed.

Lemma line_hover_box_iff_kept_witness :
  Highlight.highlight
    (Highlight.onLineEnter
       (after_effect false (Some 1) Render.Raster_done Example_clicks.idle)
       (LineWithUid.uid Example.huge))
  = (Some (LineWithUid.uid Example.huge), Some Highlight.Src_right, None).
Proof.
  apply (line_hover_box_iff_kept false 1 1 Example.doc Example.page
           Example_clicks.idle Example.huge);
    [reflexivity|discriminate|vm_compute; reflexivity|lia
    |vm_compute; reflexivity|].
  vm_compute. apply list_elem_of_further, list_elem_of_here.
Defined.

(** ** The page list and the page that is rendered *)

Lemma doc_get_None (doc : DocJson) (k : string) :
  doc_get doc k = None ↔ k ∉ Object_keys doc.
Proof.
  unfold Object_keys. induction doc as [|[k0 p] doc IH]; cbn [doc_get map fst].
  - split; [intros _ H; inversion H|reflexivity].
  - rewrite not_elem_of_cons. destruct (String.eqb_spec k0 k) as [->|Hne].
    + split; [discriminate|intros [H _]; contradiction].
    + rewrite IH. split; [intros H; split; [congruence|exact H]|intros [_ H]; exact H].
Qed.

(** Every page number that a key of the document has is in [docKeyByNum]. *)
Lemma docKeyByNum_is_Some (doc : DocJson) (k : string) (n : Z) :
  k ∈ Object_keys doc → pageKeyToNumber k = Some n → is_Some (docKeyByNum doc !! n).
Proof.
  unfold docKeyByNum. generalize (∅ : gmap Z string).
  induction (Object_keys doc) as [|k0 keys IH]; intros m Hk Hn; [inversion Hk|].
  cbn [foldl].
  assert (Hkeep : ∀ keys (m : gmap Z string),
            is_Some (m !! n) →
            is_Some (foldl (λ m k, match pageKeyToNumber k with
                                   | Some n => <[n:=k]> m
                                   | None => m
                                   end) m keys !! n)).
  { clear. induction keys as [|k1 keys IH]; intros m Hm; [exact Hm|].
    cbn [foldl]. apply IH. destruct (pageKeyToNumber k1) as [n1|]; [|exact Hm].
    rewrite lookup_insert. case_decide; [eauto|exact Hm]. }
  apply elem_of_cons in Hk as [->|Hk].
  - apply Hkeep. rewrite Hn, lookup_insert_eq. eauto.
  - apply IH; assumption.
Qed.

Lemma pageKeys_pdf_lookup (doc : DocJson) (numPages : Z) (i : nat) (k : string) :
  numPages ≠ 0 →
  pageKeys (Some doc) (Some numPages) !! i = Some k →
  pageKeyToNumber k = Some (Z.of_nat i + 1) ∧ Z.of_nat i + 1 ≤ numPages
  ∧ k = default (pdf_only_page (Z.of_nat i + 1)) (docKeyByNum doc !! (Z.of_nat i + 1)).
Proof.
  intros Hnp. cbn [pageKeys]. destruct (Z.eqb_spec numPages 0); [contradiction|].
  rewrite list_lookup_fmap. intros Hk.
  destruct (seqZ 1 numPages !! i) as [m|] eqn:Em; [|discriminate].
  apply lookup_seqZ in Em as [-> Hi]. cbn in Hk. injection Hk as <-.
  replace (1 + Z.of_nat i) with (Z.of_nat i + 1) by lia.
  split; [|split; [lia|reflexivity]].
  destruct (docKeyByNum doc !! (Z.of_nat i + 1)) as [k|] eqn:Ek; cbn [default from_option id].
  - apply (docKeyByNum_number doc _ _ Ek).
  - apply pageKeyToNumber_pdf_only_page. lia.
Qed.

(** X6.  With a PDF of [numPages] pages loaded, the page list of the
    viewer has [numPages] keys.  The key of page [i + 1] is a key of the
    document with that page number when the document has one; when it
    has none, the key is the placeholder [pdf_only_page_] followed by the
    number, for which the document has no transcription. *)
Theorem pdf_pages_listed (doc : DocJson) (numPages : Z) :
  0 < numPages →
  length (pageKeys (Some doc) (Some numPages)) = Z.to_nat numPages
  ∧ ∀ (i : nat) (k : string),
      pageKeys (Some doc) (Some numPages) !! i = Some k →
      pageKeyToNumber k = Some (Z.of_nat i + 1)
      ∧ ((∃ k', k' ∈ Object_keys doc ∧ pageKeyToNumber k' = Some (Z.of_nat i + 1))
         → k ∈ Object_keys doc)
      ∧ ((∀ k', k' ∈ Object_keys doc → pageKeyToNumber k' ≠ Some (Z.of_nat i + 1))
         → k = pdf_only_page (Z.of_nat i + 1) ∧ doc_get doc k = None).
Proof.
  intros Hnp. split.
  - cbn [pageKeys]. destruct (Z.eqb_spec numPages 0); [lia|].
    rewrite length_map, length_seqZ. reflexivity.
  - intros i k Hk.
    destruct (pageKeys_pdf_lookup doc numPages i k ltac:(lia) Hk) as (Hn & _ & Ek).
    split; [exact Hn|]. split.
    + intros (k' & Hin & Hn'). destruct (docKeyByNum_is_Some doc k' _ Hin Hn') as [k1 E1].
      rewrite E1 in Ek. cbn in Ek. subst k1.
      apply (docKeyByNum_number doc _ _ E1).
    + intros Hnone. destruct (docKeyByNum doc !! (Z.of_nat i + 1)) as [k1|] eqn:E1.
      * exfalso. destruct (docKeyByNum_number doc _ _ E1) as [H1 H2].
        apply (Hnone k1 H2 H1).
      * cbn in Ek. split; [exact Ek|]. apply doc_get_None. intros Hin.
        apply (Hnone k Hin Hn).
Qed.

Lemma pdf_pages_listed_witness :
  length (pageKeys (Some Example.doc) (Some 2)) = 2%nat
  ∧ pageKeys (Some Example.doc) (Some 2) = ["doc_page_1"; "pdf_only_page_2"].
Proof.
  split; [|vm_compute; reflexivity].
  apply (pdf_pages_listed Example.doc 2). lia.
Defined.

Lemma select_page_elem_of (keys : list string) (pageKey : string) :
  keys ≠ [] → select_page keys pageKey ∈ keys.
Proof.
  destruct keys as [|k0 keys]; [contradiction|]. intros _. unfold select_page.
  destruct (negb (Js.truthy pageKey)); cbn [orb]; [apply list_elem_of_here|].
  case_bool_decide as Hin; cbn [negb]; [exact Hin|apply list_elem_of_here].
Qed.

(** X7.  With the document and a PDF of at least one page loaded, the
    key that the page-list effect leaves as the current page is a key of
    the page list, a current key that is in the list is kept, and the
    page-render effect of the current page never throws for its key: its
    page number is within the PDF, and when the raster completes the
    effect stores the index of the page, the empty one for a page without
    transcription. *)
Theorem selected_page_renders (production : bool) (doc : DocJson) (numPages : Z)
    (pageKey : string) :
  0 < numPages →
  let keys := pageKeys (Some doc) (Some numPages) in
  let k := select_page keys pageKey in
  k ∈ keys
  ∧ (pageKey ∈ keys → k = pageKey)
  ∧ (∃ n, pageKeyToNumber k = Some n ∧ 1 ≤ n ≤ numPages)
  ∧ Render.effect production (Some doc) (Some numPages) k Render.Raster_done
    = match doc_get doc k with
      | Some pageObj =>
          Render.Indexed (Render.hitBoxes_of production pageObj)
            (Render.boxByUid (Render.loop production pageObj))
            (Render.console (Render.loop production pageObj))
      | None => Render.Indexed [] ∅ []
      end.
Proof.
  intros Hnp keys k.
  assert (Hne : keys ≠ []).
  { intros E. apply (f_equal length) in E. unfold keys in E. cbn [pageKeys] in E.
    destruct (Z.eqb_spec numPages 0); [lia|].
    rewrite length_map, length_seqZ in E. cbn in E. lia. }
  assert (Hin : k ∈ keys) by apply (select_page_elem_of keys pageKey Hne).
  split; [exact Hin|].
  apply list_elem_of_lookup in Hin as [i Hi].
  destruct (pageKeys_pdf_lookup doc numPages i k ltac:(lia) Hi) as (Hn & Hle & _).
  assert (Hk : k ≠ "") by (intros E; rewrite E in Hn; discriminate).
  split; [|split].
  - intros Hp.
    assert (Ht : Js.truthy pageKey = true).
    { apply truthy_true. intros ->.
      apply list_elem_of_lookup in Hp as [j Hj].
      destruct (pageKeys_pdf_lookup doc numPages j "" ltac:(lia) Hj) as (Hn' & _).
      discriminate. }
    unfold k, select_page. destruct keys as [|k0 keys']; [reflexivity|].
    rewrite Ht, bool_decide_eq_true_2 by exact Hp. reflexivity.
  - exists (Z.of_nat i + 1). split; [exact Hn|lia].
  - unfold Render.effect. rewrite Hn.
    destruct (String.eqb_spec k ""); [contradiction|].
    destruct (Z.eqb_spec (Z.of_nat i + 1) 0); [lia|].
    destruct (Z.ltb_spec (Z.of_nat i + 1) 1); [lia|].
    destruct (Z.ltb_spec numPages (Z.of_nat i + 1)); [lia|]. cbn [orb].
    destruct (doc_get doc k); reflexivity.
Qed.

Lemma selected_page_renders_witness :
  select_page (pageKeys (Some Example.doc) (Some 2)) "no_such_page" = "doc_page_1"
  ∧ select_page (pageKeys (Some Example.doc) (Some 2)) "pdf_only_page_2"
    = "pdf_only_page_2"
  ∧ Render.effect true (Some Example.doc) (Some 2) "pdf_only_page_2" Render.Raster_done
    = Render.Indexed [] ∅ [].
Proof.
  split; [vm_compute; reflexivity|].
  destruct (selected_page_renders true Example.doc 2 "pdf_only_page_2" ltac:(lia))
    as (_ & Hkeep & _ & He).
  assert (Hk : select_page (pageKeys (Some Example.doc) (Some 2)) "pdf_only_page_2"
               = "pdf_only_page_2").
  { apply Hkeep. vm_compute. apply list_elem_of_further, list_elem_of_here. }
  split; [exact Hk|]. rewrite Hk in He. exact He.
Defined.

Lemma find_first_split {A : Type} (f : A → bool) (l : list A) (x : A) :
  List.find f l = Some x →
  f x = true ∧ ∃ before after, l = before ++ x :: after ∧ Forall (λ y, f y = false) before.
Proof.
  induction l as [|y l IH]; cbn [List.find]; [discriminate|].
  destruct (f y) eqn:Ey.
  - intros [= ->]. split; [exact Ey|]. exists [], l. split; [reflexivity|constructor].
  - intros H. destruct (IH H) as (Hx & before & after & -> & Hb).
    split; [exact Hx|]. exists (y :: before), after. split; [reflexivity|].
    constructor; assumption.
Qed.

Lemma find_none_all {A : Type} (f : A → bool) (l : list A) :
  List.find f l = None → Forall (λ y, f y = false) l.
Proof.
  induction l as [|y l IH]; cbn [List.find]; [constructor|].
  destruct (f y) eqn:Ey; [discriminate|]. intros H. constructor; auto.
Qed.

(** X8.  The page that the loading effect selects is a key of the
    document: the first key, in the order of the file, that has a page
    number, whatever that number is, and the first key of all when no
    key has a page number; a document without keys gives [undefined].
    Before the PDF is loaded the page-list effect keeps that key, when it
    is not the empty string, although the list itself is in the order of
    the page numbers. *)
Theorem firstValid_selected (j : DocJson) :
  match firstValid j with
  | None => Object_keys j = []
  | Some k =>
      k ∈ Object_keys j
      ∧ (∃ before after,
           Object_keys j = before ++ k :: after
           ∧ if bool_decide (pageKeyToNumber k ≠ None)
             then Forall (λ k', pageKeyToNumber k' = None) before
             else before = [] ∧ Forall (λ k', pageKeyToNumber k' = None) after)
      ∧ (k ≠ "" → select_page (pageKeys (Some j) None) k = k)
  end.
Proof.
  unfold firstValid.
  assert (Hsel : ∀ k, k ∈ Object_keys j → k ≠ "" →
                      select_page (pageKeys (Some j) None) k = k).
  { intros k Hin Hk. cbn [pageKeys]. unfold select_page.
    assert (Hin' : k ∈ Js.sort page_gt (Object_keys j)) by (apply sort_elem_of; exact Hin).
    destruct (Js.sort page_gt (Object_keys j)) as [|k0 keys]; [reflexivity|].
    rewrite (proj2 (truthy_true k) Hk), bool_decide_eq_true_2 by exact Hin'.
    reflexivity. }
  destruct (List.find _ (Object_keys j)) as [k|] eqn:E.
  - apply find_first_split in E as (Hk & before & after & Hkeys & Hb).
    assert (Hin : k ∈ Object_keys j).
    { rewrite Hkeys. apply elem_of_app. right. apply list_elem_of_here. }
    split; [exact Hin|]. split; [|apply Hsel, Hin].
    exists before, after. split; [exact Hkeys|]. rewrite Hk.
    eapply Forall_impl; [exact Hb|]. intros k' Hk'. cbv beta in Hk'.
    apply bool_decide_eq_false in Hk'. destruct (pageKeyToNumber k'); [|reflexivity].
    exfalso. apply Hk'. discriminate.
  - apply find_none_all in E. destruct (Object_keys j) as [|k keys] eqn:Hkeys;
      cbn [head]; [reflexivity|].
    split; [apply list_elem_of_here|]. split; [|apply Hsel, list_elem_of_here].
    exists [], keys. split; [reflexivity|].
    assert (Hnone : Forall (λ k', pageKeyToNumber k' = None) (k :: keys)).
    { eapply Forall_impl; [exact E|]. intros k' Hk'. cbv beta in Hk'.
      apply bool_decide_eq_false in Hk'. destruct (pageKeyToNumber k'); [|reflexivity].
      exfalso. apply Hk'. discriminate. }
    apply Forall_cons in Hnone as [Hk Hrest].
    rewrite bool_decide_eq_false_2 by (rewrite Hk; intros H; apply H; reflexivity).
    split; [reflexivity|exact Hrest].
Qed.

(** ** Pointer moves between two animation frames *)

Lemma moves_coalesce (st : Highlight.state) (es : list Highlight.mouse)
    (e : Highlight.mouse) :
  Highlight.hoverRaf st = None →
  Forall (λ e', Highlight.bad_rect e' = false) es → Highlight.bad_rect e = false →
  foldl Highlight.step st (Highlight.Move <$> es ++ [e])
  = Highlight.step st (Highlight.Move e).
Proof.
  intros Hraf Hes He.
  assert (Hmove : ∀ st0 e0, Highlight.bad_rect e0 = false →
            Highlight.hoverRaf st0 = Some (Highlight.mk_seen (Highlight.hitBoxes st)
                                            (Highlight.activeId st)
                                            (Highlight.activeSource st)) →
            Highlight.step st0 (Highlight.Move e0)
            = Highlight.mk_state (Highlight.doc st0) (Highlight.pageKey st0)
                (Highlight.hitBoxes st0) (Highlight.boxByUid st0)
                (Highlight.activeSource st0) (Highlight.activeId st0)
                (Highlight.activeBox st0) (Highlight.collapseSuggestions st0)
                (Highlight.collapsedUid st0) (Highlight.openSuggestUid st0)
                (Highlight.isDragging st0)
                (Some (Highlight.mk_seen (Highlight.hitBoxes st) (Highlight.activeId st)
                         (Highlight.activeSource st)))
                (Some (Highlight.point_of e0))).
  { intros st0 e0 H0 Hr. cbn [Highlight.step]. unfold Highlight.onHitSvgMouseMove.
    rewrite H0, Hr. reflexivity. }
  assert (Hfirst : ∀ e0, Highlight.bad_rect e0 = false →
            Highlight.step st (Highlight.Move e0)
            = Highlight.mk_state (Highlight.doc st) (Highlight.pageKey st)
                (Highlight.hitBoxes st) (Highlight.boxByUid st)
                (Highlight.activeSource st) (Highlight.activeId st)
                (Highlight.activeBox st) (Highlight.collapseSuggestions st)
                (Highlight.collapsedUid st) (Highlight.openSuggestUid st)
                (Highlight.isDragging st)
                (Some (Highlight.mk_seen (Highlight.hitBoxes st) (Highlight.activeId st)
                         (Highlight.activeSource st)))
                (Some (Highlight.point_of e0))).
  { intros e0 H0. cbn [Highlight.step]. unfold Highlight.onHitSvgMouseMove.
    rewrite H0, Hraf. reflexivity. }
  destruct es as [|e1 es]; [reflexivity|].
  apply Forall_cons in Hes as [H1 Hes].
  cbn [app fmap list_fmap foldl]. rewrite (Hfirst e1 H1), (Hfirst e He).
  revert e1 H1. induction Hes as [|e2 es H2 Hes IH]; intros e1 H1.
  - cbn [app fmap list_fmap foldl]. rewrite Hmove; [reflexivity|exact He|reflexivity].
  - cbn [app fmap list_fmap foldl]. rewrite Hmove; [|exact H2|reflexivity].
    cbn [Highlight.doc Highlight.pageKey Highlight.hitBoxes Highlight.boxByUid
         Highlight.activeSource Highlight.activeId Highlight.activeBox
         Highlight.collapseSuggestions Highlight.collapsedUid Highlight.openSuggestUid
         Highlight.isDragging].
    apply (IH e2 H2).
Qed.

(** X9.  Pointer moves are coalesced: when no callback is pending, any
    number of moves over the page before the next animation frame leave
    the state that the last of them alone would leave, with one callback
    requested, so the frame evaluates the last point only; the callback
    runs once, a further frame without a move does nothing.  When the
    pointer leaves the page before the frame, the callback is cancelled:
    the frame does nothing and the highlight stays cleared. *)
Theorem hover_moves_coalesced (st : Highlight.state) (es : list Highlight.mouse)
    (e : Highlight.mouse) :
  Highlight.hoverRaf st = None →
  Forall (λ e', Highlight.bad_rect e' = false) es → Highlight.bad_rect e = false →
  let moved := foldl Highlight.step st (Highlight.Move <$> es ++ [e]) in
  moved = Highlight.step st (Highlight.Move e)
  ∧ Highlight.hoverPt moved = Some (Highlight.point_of e)
  ∧ (let st1 := Highlight.step moved Highlight.Frame in
     Highlight.hoverRaf st1 = None ∧ Highlight.step st1 Highlight.Frame = st1)
  ∧ (let st2 := Highlight.step moved Highlight.Leave in
     Highlight.step st2 Highlight.Frame = st2
     ∧ Highlight.highlight st2 = (None, None, None)).
Proof.
  intros Hraf Hes He moved.
  assert (Em : moved = Highlight.step st (Highlight.Move e))
    by apply (moves_coalesce st es e Hraf Hes He).
  split; [exact Em|]. split; [|split].
  - rewrite Em. cbn [Highlight.step]. unfold Highlight.onHitSvgMouseMove.
    rewrite He. reflexivity.
  - assert (H1 : Highlight.hoverRaf (Highlight.step moved Highlight.Frame) = None).
    { rewrite Em. cbn [Highlight.step]. unfold Highlight.onHitSvgMouseMove.
      rewrite He, Hraf. cbn [Highlight.hoverRaf]. unfold Highlight.hover_frame.
      cbn [Highlight.hoverPt]. destruct (Highlight.point_of e) as [px py].
      destruct (Highlight.pickBoxAt _ _ _); [|reflexivity].
      destruct (_ && _); reflexivity. }
    cbv zeta. split; [exact H1|].
    cbn [Highlight.step] in H1 |- *. rewrite H1. reflexivity.
  - cbv zeta. split; reflexivity.
Qed.

Lemma hover_moves_coalesced_witness :
  foldl Highlight.step Example_clicks.idle
    (Highlight.Move <$> [Example_clicks.outside; Example_clicks.outside]
                        ++ [Example_clicks.inside])
  = Highlight.step Example_clicks.idle (Highlight.Move Example_clicks.inside).
Proof.
  apply (hover_moves_coalesced Example_clicks.idle
           [Example_clicks.outside; Example_clicks.outside] Example_clicks.inside);
    [reflexivity|repeat constructor|vm_compute; reflexivity].
Defined.

(** ** Loading and showing suggestions *)

Lemma fold_push_lookup (data : list Load.raw)
    (g : gmap string (list SuggestionRow.t)) (u : string) :
  foldl Load.pushed g data !! u
  = match Load.to_row <$> filter (λ r, Load.uid r = u) data with
    | [] => g !! u
    | rows => Some (default [] (g !! u) ++ rows)
    end.
Proof.
  revert g. induction data as [|r data IH]; intros g; [reflexivity|].
  cbn [foldl]. rewrite IH, filter_cons. unfold Load.pushed at 1 2.
  destruct (decide (Load.uid r = u)) as [->|Hne].
  - rewrite lookup_insert_eq, fmap_cons. cbn [default from_option id].
    destruct (Load.to_row <$> filter _ data) as [|x rows].
    + reflexivity.
    + rewrite <- app_assoc. reflexivity.
  - rewrite lookup_insert_ne by exact Hne. reflexivity.
Qed.

(** The loop over the rows throws exactly when the identifier of a row
    names an inherited property; otherwise every row is pushed. *)
Lemma forEach_push_spec (data : list Load.raw) (g : gmap string (list SuggestionRow.t)) :
  Load.forEach_push g data
  = if existsb (λ r, Load.inherited (Load.uid r)) data then None
    else Some (foldl Load.pushed g data).
Proof.
  revert g. induction data as [|r data IH]; intros g; [reflexivity|].
  cbn [Load.forEach_push existsb foldl]. unfold Load.push.
  destruct (Load.inherited (Load.uid r)); [reflexivity|]. apply IH.
Qed.


Lemma sort_nil_inv {A : Type} (gt : A → A → bool) (l : list A) :
  Js.sort gt l = [] → l = [].
Proof.
  intros E. apply Permutation_nil_r. rewrite <- E. symmetry. apply sort_perm.
Qed.

(** Sorting a list that is in order gives the list. *)
Lemma sort_of_sorted {A : Type} (gt : A → A → bool) (l : list A) :
  StronglySorted (λ x y, gt x y = false) l → Js.sort gt l = l.
Proof.
  induction 1 as [|a l Hs IH Ha]; [reflexivity|].
  unfold Js.sort in IH |- *. cbn [foldr]. rewrite IH.
  destruct l as [|b l]; [reflexivity|]. cbn [Js.sort_insert].
  apply Forall_cons in Ha as [-> _]. reflexivity.
Qed.

Lemma top_gt_sorted (getTime : string → option Z) (l : list SuggestionRow.t) :
  Forall (dated_by getTime) l →
  StronglySorted (λ a b, Suggestions.top_gt getTime a b = false)
    (Js.sort (Suggestions.top_gt getTime) l).
Proof.
  intros Hl. apply (sort_sorted _ (dated_by getTime)); [| |exact Hl].
  - intros a b Pa Pb.
    rewrite (top_gt_spec getTime a b Pa Pb), (top_gt_spec getTime b a Pb Pa).
    rewrite bool_decide_eq_true, bool_decide_eq_false. lia.
  - intros a b c Pa Pb Pc.
    rewrite (top_gt_spec getTime a b Pa Pb), (top_gt_spec getTime b c Pb Pc),
      (top_gt_spec getTime a c Pa Pc), !bool_decide_eq_false. lia.
Qed.

Lemma grouped_of_Some (getTime : string → option Z) (data : list Load.raw) :
  Forall (λ r, Load.inherited (Load.uid r) = false) data →
  Load.grouped_of getTime data
  = Some (Js.sort (Suggestions.top_gt getTime) <$> foldl Load.pushed ∅ data).
Proof.
  intros Hd. unfold Load.grouped_of. rewrite forEach_push_spec.
  destruct (existsb _ data) eqn:E; [|reflexivity].
  apply existsb_exists in E as (r & Hr & Hi).
  rewrite Forall_forall in Hd. rewrite (Hd r (proj2 (list_elem_of_In _ _) Hr)) in Hi.
  discriminate Hi.
Qed.

Lemma grouped_of_None (getTime : string → option Z) (data : list Load.raw) :
  Exists (λ r, Load.inherited (Load.uid r) = true) data →
  Load.grouped_of getTime data = None.
Proof.
  intros Hd. unfold Load.grouped_of. rewrite forEach_push_spec.
  destruct (existsb _ data) eqn:E; [reflexivity|].
  apply Exists_exists in Hd as (r & Hr & Hi).
  assert (H : existsb (λ r, Load.inherited (Load.uid r)) data = true).
  { apply existsb_exists. exists r. split; [apply list_elem_of_In, Hr|exact Hi]. }
  congruence.
Qed.

Lemma grouped_of_lookup (getTime : string → option Z) (data : list Load.raw) (u : string) :
  default ∅ (Load.grouped_of getTime data) !! u
  = match Load.grouped_of getTime data with
    | Some _ =>
        match Load.to_row <$> filter (λ r, Load.uid r = u) data with
        | [] => None
        | rows => Some (Js.sort (Suggestions.top_gt getTime) rows)
        end
    | None => None
    end.
Proof.
  unfold Load.grouped_of. rewrite forEach_push_spec.
  destruct (existsb _ data); cbn [default from_option id]; [apply lookup_empty|].
  rewrite lookup_fmap, fold_push_lookup, lookup_empty.
  destruct (Load.to_row <$> filter (λ r, Load.uid r = u) data); reflexivity.
Qed.

(** X10.  [loadSuggestionsForPage] groups the rows of the answer by
    line.  When no row has a line identifier that names a property
    inherited from [Object.prototype], the list stored for a line holds
    exactly the rows of the answer with the identifier of the line, each
    once, each with a vote count; a line without rows has no entry,
    never an empty list; and when the time stamps of the rows of the
    line are dates, the list is in the order of the ["top"] ranking,
    votes descending and newer first among equal votes, rows that rank
    alike in the order of the answer.  When a row has such an
    identifier, as ["constructor"], the loop throws and the whole table
    is emptied, as it is by an error of the query.  A call without
    document id or page key leaves the table as it was. *)
Theorem loadSuggestionsForPage_groups (getTime : string → option Z)
    (docId pk : string) (data : list Load.raw)
    (prev : gmap string (list SuggestionRow.t)) (u : string) :
  docId ≠ "" → pk ≠ "" →
  let rows := Load.to_row <$> filter (λ r, Load.uid r = u) data in
  let loaded := Load.loadSuggestionsForPage getTime docId pk (Some data) prev in
  (Forall (λ r, Load.inherited (Load.uid r) = false) data →
   (rows = [] → loaded !! u = None)
   ∧ (rows ≠ [] →
      ∃ l, loaded !! u = Some l ∧ l ≠ [] ∧ l ≡ₚ rows
           ∧ Forall (λ s, SuggestionRow.uid s = u ∧ is_Some (SuggestionRow.vote_count s)) l
           ∧ (Forall (dated_by getTime) rows →
              l = Js.sort (Suggestions.top_gt getTime) rows
              ∧ StronglySorted
                  (λ a b, votes b < votes a
                          ∨ (votes b = votes a ∧ time_of getTime b ≤ time_of getTime a))
                  l)))
  ∧ (Exists (λ r, Load.inherited (Load.uid r) = true) data → loaded = ∅)
  ∧ Load.loadSuggestionsForPage getTime docId pk None prev = ∅
  ∧ Load.loadSuggestionsForPage getTime "" pk (Some data) prev = prev
  ∧ Load.loadSuggestionsForPage getTime docId "" (Some data) prev = prev.
Proof.
  intros Hd Hp rows loaded.
  assert (E : loaded = default ∅ (Load.grouped_of getTime data)).
  { unfold loaded, Load.loadSuggestionsForPage.
    rewrite (proj2 (truthy_true docId) Hd), (proj2 (truthy_true pk) Hp). reflexivity. }
  split; [|split; [|split; [|split]]].
  - intros Hown.
    assert (Hl : loaded !! u
                 = match rows with
                   | [] => None
                   | _ => Some (Js.sort (Suggestions.top_gt getTime) rows)
                   end).
    { rewrite E, grouped_of_lookup, (grouped_of_Some getTime data Hown). fold rows.
      destruct rows; reflexivity. }
    split; [intros Er; rewrite Hl, Er; reflexivity|].
    intros Hne. exists (Js.sort (Suggestions.top_gt getTime) rows).
    split; [rewrite Hl; destruct rows; [contradiction|reflexivity]|].
    split; [intros E0; apply Hne, (sort_nil_inv _ _ E0)|].
    split; [apply sort_perm|]. split.
    + rewrite sort_perm. unfold rows. apply Forall_fmap, Forall_forall.
      intros r Hr. apply list_elem_of_filter in Hr as [Hu _]. cbn. split; [exact Hu|eauto].
    + intros Hdated. split; [reflexivity|apply top_sorted, Hdated].
  - intros Hinh. rewrite E, (grouped_of_None getTime data Hinh). reflexivity.
  - unfold Load.loadSuggestionsForPage.
    rewrite (proj2 (truthy_true docId) Hd), (proj2 (truthy_true pk) Hp). reflexivity.
  - reflexivity.
  - unfold Load.loadSuggestionsForPage. rewrite orb_true_r. reflexivity.
Qed.

Lemma loadSuggestionsForPage_groups_witness :
  Example_load.loaded !! "2-5"
  = Some [Example_suggestions.B; Example_suggestions.A; Example_suggestions.C]
  ∧ Load.loadSuggestionsForPage Example_suggestions.getTime "doc" "doc_page_2"
      (Some Example_load.data_inherited) Example_load.loaded = ∅.
Proof.
  pose proof (loadSuggestionsForPage_groups Example_suggestions.getTime
                "doc" "doc_page_2" Example_load.data ∅ "2-5"
                ltac:(discriminate) ltac:(discriminate)) as (H & _).
  pose proof (loadSuggestionsForPage_groups Example_suggestions.getTime
                "doc" "doc_page_2" Example_load.data_inherited Example_load.loaded "2-5"
                ltac:(discriminate) ltac:(discriminate)) as (_ & H' & _).
  cbv zeta in H, H'. split.
  - destruct H as (_ & H); [repeat constructor|].
    destruct H as (l & Hl & _ & _ & _ & Hs); [vm_compute; discriminate|].
    destruct Hs as [-> _]; [repeat constructor; vm_compute; eauto|].
    unfold Example_load.loaded. rewrite Hl. vm_compute. reflexivity.
  - apply H'. unfold Example_load.data_inherited.
    apply Exists_app. right. constructor. reflexivity.
Defined.

(** X11.  For suggestions whose time stamps are dates, the ["top"]
    ranking of a line of a loaded page, which is also the ranking of a
    line without a chosen mode, is the list as [loadSuggestionsForPage]
    stored it: sorting it again moves nothing. *)
Theorem top_ranking_is_stored_order (getTime : string → option Z)
    (docId pk : string) (data : list Load.raw)
    (prev : gmap string (list SuggestionRow.t))
    (sortModeByUid : gmap string Suggestions.sort_mode) (u : string) :
  docId ≠ "" → pk ≠ "" →
  Forall (λ r, is_Some (getTime (Load.created_at r))) data →
  sortModeByUid !! u = None ∨ sortModeByUid !! u = Some Suggestions.Top →
  let loaded := Load.loadSuggestionsForPage getTime docId pk (Some data) prev in
  Suggestions.getSortedSuggestions getTime loaded sortModeByUid u
  = default [] (loaded !! u).
Proof.
  intros Hd Hp Hdated Hmode loaded.
  assert (E : loaded = default ∅ (Load.grouped_of getTime data)).
  { unfold loaded, Load.loadSuggestionsForPage.
    rewrite (proj2 (truthy_true docId) Hd), (proj2 (truthy_true pk) Hp). reflexivity. }
  unfold Suggestions.getSortedSuggestions.
  assert (Hm : default Suggestions.Top (sortModeByUid !! u) = Suggestions.Top)
    by (destruct Hmode as [-> | ->]; reflexivity).
  rewrite Hm, E, grouped_of_lookup.
  destruct (Load.grouped_of getTime data); [|reflexivity].
  destruct (Load.to_row <$> filter (λ r, Load.uid r = u) data) as [|x rows] eqn:Er;
    [reflexivity|].
  cbn [default from_option id]. apply sort_of_sorted, top_gt_sorted.
  rewrite <- Er. apply Forall_fmap, Forall_forall. intros r Hr.
  apply list_elem_of_filter in Hr as [_ Hr]. rewrite Forall_forall in Hdated.
  apply (Hdated r Hr).
Qed.

Lemma top_ranking_is_stored_order_witness :
  Suggestions.getSortedSuggestions Example_suggestions.getTime Example_load.loaded ∅ "2-5"
  = default [] (Example_load.loaded !! "2-5").
Proof.
  apply (top_ranking_is_stored_order Example_suggestions.getTime "doc" "doc_page_2"
           Example_load.data ∅ ∅ "2-5");
    [discriminate|discriminate| |left; reflexivity].
  repeat constructor; vm_compute; eauto.
Defined.


Lemma StronglySorted_take_drop {A : Type} (R : A → A → Prop) (n : nat) (l : list A) :
  StronglySorted R l → ∀ a b, a ∈ take n l → b ∈ drop n l → R a b.
Proof.
  intros Hs a b Ha Hb. rewrite <- (take_drop n l) in Hs.
  apply StronglySorted_app in Hs as (Hcross & _ & _). apply Hcross; assumption.
Qed.

(** X12.  Under a line the viewer lists at most five suggestions: the
    first five of the ranking of the line, so that, for suggestions whose
    time stamps are dates, every suggestion left out ranks no higher in
    the chosen mode than every suggestion listed, and with five or fewer
    suggestions all are listed.  Nothing is listed while the block of the
    line is collapsed, and the block is absent while suggestions are
    hidden or the line has none. *)
Theorem shown_suggestions_top_five (getTime : string → option Z)
    (collapseSuggestions : bool) (collapsedUid : gmap string bool)
    (suggestionsByUid : gmap string (list SuggestionRow.t))
    (sortModeByUid : gmap string Suggestions.sort_mode) (uid : string) :
  let stored := default [] (suggestionsByUid !! uid) in
  let ranked :=
    Suggestions.getSortedSuggestions getTime suggestionsByUid sortModeByUid uid in
  Forall (dated_by getTime) stored →
  match shown_suggestions getTime collapseSuggestions collapsedUid suggestionsByUid
          sortModeByUid uid with
  | None => collapseSuggestions = true ∨ stored = []
  | Some shown =>
      collapseSuggestions = false ∧ stored ≠ []
      ∧ if default false (collapsedUid !! uid) then shown = []
        else
          shown = take 5 ranked
          ∧ length shown = (length stored `min` 5)%nat
          ∧ ((length stored ≤ 5)%nat → shown ≡ₚ stored)
          ∧ ∀ s s', s ∈ shown → s' ∈ drop 5 ranked →
              match default Suggestions.Top (sortModeByUid !! uid) with
              | Suggestions.Top =>
                  votes s' < votes s
                  ∨ (votes s' = votes s ∧ time_of getTime s' ≤ time_of getTime s)
              | Suggestions.Newest => time_of getTime s' ≤ time_of getTime s
              end
  end.
Proof.
  intros stored ranked Hd. unfold shown_suggestions. fold stored. fold ranked.
  destruct collapseSuggestions; cbn [negb andb]; [left; reflexivity|].
  case_bool_decide as Hlen; cbn [negb].
  { right. destruct stored; [reflexivity|discriminate]. }
  split; [reflexivity|]. split; [intros E; rewrite E in Hlen; apply Hlen; reflexivity|].
  destruct (default false (collapsedUid !! uid)); cbn [negb]; [reflexivity|].
  assert (Hperm : ranked ≡ₚ stored).
  { unfold ranked, Suggestions.getSortedSuggestions. fold stored.
    destruct (default Suggestions.Top (sortModeByUid !! uid)); apply sort_perm. }
  unfold Js.slice0. split; [reflexivity|]. split; [|split].
  - rewrite length_take, (Permutation_length Hperm). lia.
  - intros Hle. rewrite take_ge; [exact Hperm|]. rewrite (Permutation_length Hperm). exact Hle.
  - intros s s' Hs Hs'. unfold ranked, Suggestions.getSortedSuggestions in Hs, Hs'.
    fold stored in Hs, Hs'.
    destruct (default Suggestions.Top (sortModeByUid !! uid)).
    + apply (StronglySorted_take_drop _ 5 _ (top_sorted getTime stored Hd) s s' Hs Hs').
    + apply (StronglySorted_take_drop _ 5 _ (newest_sorted getTime stored Hd) s s' Hs Hs').
Qed.

Lemma shown_suggestions_top_five_witness :
  shown_suggestions Example_suggestions.getTime false ∅ Example_load.loaded ∅ "2-5"
  = Some [Example_suggestions.B; Example_suggestions.A; Example_suggestions.C].
Proof.
  pose proof (shown_suggestions_top_five Example_suggestions.getTime false ∅
                Example_load.loaded ∅ "2-5") as H.
  cbv zeta in H.
  assert (Hd : Forall (dated_by Example_suggestions.getTime)
                 (default [] (Example_load.loaded !! "2-5"))).
  { vm_compute. repeat constructor; eauto. }
  specialize (H Hd).
  destruct (shown_suggestions _ _ _ _ _ _) as [shown|] eqn:E;
    [|vm_compute in E; discriminate E].
  destruct H as (_ & _ & H). rewrite lookup_empty in H. cbn in H.
  destruct H as (-> & _). vm_compute. reflexivity.
Defined.

(** X13.  A click on the page that picks the box of a line that was not
    the active line opens the suggestions of the line: whatever was
    hidden or collapsed before, the first five of its ranking are listed
    after the click when the line has suggestions. *)
Theorem click_shows_suggestions (getTime : string → option Z)
    (st : Highlight.state) (e : Highlight.mouse) (b : HitBox.t)
    (suggestionsByUid : gmap string (list SuggestionRow.t))
    (sortModeByUid : gmap string Suggestions.sort_mode) :
  click_target st e = Some b →
  Highlight.activeId st ≠ Some (HitBox.uid b) →
  default [] (suggestionsByUid !! HitBox.uid b) ≠ [] →
  let st1 := Highlight.onHitSvgClick st e in
  shown_suggestions getTime (Highlight.collapseSuggestions st1)
    (Highlight.collapsedUid st1) suggestionsByUid sortModeByUid (HitBox.uid b)
  = Some (take 5 (Suggestions.getSortedSuggestions getTime suggestionsByUid
                    sortModeByUid (HitBox.uid b)))
  ∧ take 5 (Suggestions.getSortedSuggestions getTime suggestionsByUid
              sortModeByUid (HitBox.uid b)) ≠ []
  ∧ Highlight.openSuggestUid st1 = None.
Proof.
  intros Ht Hna Hne st1. unfold st1. rewrite onHitSvgClick_target, Ht. cbv zeta.
  cbn [Highlight.collapseSuggestions Highlight.collapsedUid Highlight.openSuggestUid].
  unfold shown_suggestions. rewrite toggle_lookup.
  rewrite (bool_decide_eq_false_2 _ Hna). cbn [negb andb default from_option id].
  rewrite bool_decide_eq_false_2
    by (intros E; apply Hne; destruct (default [] _); [reflexivity|discriminate E]).
  cbn [negb]. split; [reflexivity|]. split; [|reflexivity].
  intros E. apply Hne.
  assert (Hperm : Suggestions.getSortedSuggestions getTime suggestionsByUid
                    sortModeByUid (HitBox.uid b)
                  ≡ₚ default [] (suggestionsByUid !! HitBox.uid b)).
  { unfold Suggestions.getSortedSuggestions.
    destruct (default Suggestions.Top (sortModeByUid !! HitBox.uid b)); apply sort_perm. }
  destruct (Suggestions.getSortedSuggestions _ _ _ _) as [|s l];
    [apply Permutation_nil_l in Hperm; symmetry; exact Hperm|discriminate E].
Qed.

Lemma click_shows_suggestions_witness :
  ∃ b, click_target Example_clicks.idle Example_clicks.inside = Some b
       ∧ shown_suggestions Example_suggestions.getTime
           (Highlight.collapseSuggestions
              (Highlight.onHitSvgClick Example_clicks.idle Example_clicks.inside))
           (Highlight.collapsedUid
              (Highlight.onHitSvgClick Example_clicks.idle Example_clicks.inside))
           {["0-0" := [Example_suggestions.A]]} ∅ (HitBox.uid b)
         = Some (take 5 (Suggestions.getSortedSuggestions Example_suggestions.getTime
                           {["0-0" := [Example_suggestions.A]]} ∅ (HitBox.uid b))).
Proof.
  eexists. split; [vm_compute; reflexivity|].
  apply (click_shows_suggestions Example_suggestions.getTime Example_clicks.idle
           Example_clicks.inside);
    [vm_compute; reflexivity|discriminate|vm_compute; discriminate].
Defined.

(** ** Normalised text *)

Lemma replace_runs_spaced (b : bool) (l : list ascii) :
  single_spaced (Submit.replace_runs b l) = true
  ∧ (b = true → ∀ c, head (Submit.replace_runs b l) = Some c → Js.is_space c = false).
Proof.
  revert b. induction l as [|c l IH]; intros b; cbn [Submit.replace_runs].
  - split; [reflexivity|intros _ c Hc; discriminate Hc].
  - destruct (Js.is_space c) eqn:Ec.
    + destruct (IH true) as [Hs Hh]. destruct b.
      * split; [exact Hs|intros _; apply Hh; reflexivity].
      * split; [|discriminate]. cbn [single_spaced]. rewrite Hs.
        change (Js.is_space " ") with true. cbn [Ascii.eqb Bool.eqb andb].
        destruct (Submit.replace_runs true l) as [|d r] eqn:Er; [reflexivity|].
        rewrite (Hh eq_refl d eq_refl). reflexivity.
    + destruct (IH false) as [Hs _]. split.
      * cbn [single_spaced]. rewrite Ec, Hs. reflexivity.
      * intros _ c' [= <-]. exact Ec.
Qed.

Lemma replace_runs_fixed (b : bool) (l : list ascii) :
  single_spaced l = true →
  (b = true → ∀ c, head l = Some c → Js.is_space c = false) →
  Submit.replace_runs b l = l.
Proof.
  revert b. induction l as [|c l IH]; intros b Hs Hh; [reflexivity|].
  cbn [Submit.replace_runs single_spaced] in Hs |- *.
  apply andb_true_iff in Hs as [Hc Hs].
  destruct (Js.is_space c) eqn:Ec.
  - destruct b; [rewrite (Hh eq_refl c eq_refl) in Ec; discriminate Ec|].
    apply andb_true_iff in Hc as [Hsp Hnext].
    apply Ascii.eqb_eq in Hsp. subst c. f_equal. apply IH; [exact Hs|].
    intros _ d Hd. destruct l as [|d' l]; [discriminate Hd|].
    injection Hd as ->. apply negb_true_iff in Hnext. exact Hnext.
  - f_equal. apply IH; [exact Hs|discriminate].
Qed.

Lemma replace_runs_ink (b : bool) (l : list ascii) :
  filter (λ c, Js.is_space c = false) (Submit.replace_runs b l)
  = filter (λ c, Js.is_space c = false) l.
Proof.
  revert b. induction l as [|c l IH]; intros b; [reflexivity|].
  cbn [Submit.replace_runs]. destruct (Js.is_space c) eqn:Ec.
  - rewrite (filter_cons_False _ c l) by (rewrite Ec; discriminate).
    destruct b; [apply IH|].
    rewrite filter_cons_False by (vm_compute; discriminate). apply IH.
  - rewrite !filter_cons_True by exact Ec. f_equal. apply IH.
Qed.

Lemma single_spaced_app (l1 l2 : list ascii) :
  single_spaced (l1 ++ l2) = true → single_spaced l1 = true ∧ single_spaced l2 = true.
Proof.
  induction l1 as [|c l1 IH]; cbn [app single_spaced]; [auto|].
  intros H. apply andb_true_iff in H as [Hc H]. destruct (IH H) as [H1 H2].
  split; [|exact H2]. rewrite H1, andb_true_r.
  destruct (Js.is_space c); [|reflexivity].
  apply andb_true_iff in Hc as [-> Hn]. destruct l1; [reflexivity|exact Hn].
Qed.

Lemma drop_space_split (l : list ascii) :
  (∃ sp, l = sp ++ Js.drop_space l ∧ Forall (λ c, Js.is_space c = true) sp)
  ∧ ∀ c, head (Js.drop_space l) = Some c → Js.is_space c = false.
Proof.
  induction l as [|c l [(sp & E & Hsp) Hh]]; cbn [Js.drop_space].
  - split; [exists []; split; [reflexivity|constructor]|discriminate].
  - destruct (Js.is_space c) eqn:Ec.
    + split; [|exact Hh]. exists (c :: sp). split; [cbn; f_equal; exact E|].
      constructor; assumption.
    + split; [exists []; split; [reflexivity|constructor]|].
      intros c' [= <-]. exact Ec.
Qed.

Lemma drop_space_fixed (l : list ascii) :
  (∀ c, head l = Some c → Js.is_space c = false) → Js.drop_space l = l.
Proof.
  destruct l as [|c l]; [reflexivity|]. intros H. cbn [Js.drop_space].
  rewrite (H c eq_refl). reflexivity.
Qed.

Lemma head_rev_last {A : Type} (l : list A) : head (rev l) = last l.
Proof.
  destruct l as [|x l _] using rev_ind; [reflexivity|].
  rewrite rev_unit, last_snoc. reflexivity.
Qed.

(** What [trim] leaves of a list of characters. *)
Lemma trim_split (l : list ascii) :
  let t := rev (Js.drop_space (rev (Js.drop_space l))) in
  (∃ sp1 sp2, l = sp1 ++ t ++ sp2
              ∧ Forall (λ c, Js.is_space c = true) sp1
              ∧ Forall (λ c, Js.is_space c = true) sp2)
  ∧ (∀ c, head t = Some c → Js.is_space c = false)
  ∧ (∀ c, last t = Some c → Js.is_space c = false).
Proof.
  intros t.
  destruct (drop_space_split l) as [(sp1 & E1 & H1) Hh1].
  destruct (drop_space_split (rev (Js.drop_space l))) as [(sp & E2 & H2) Hh2].
  assert (Ev : Js.drop_space l = t ++ rev sp).
  { rewrite <- (rev_involutive (Js.drop_space l)), E2 at 1. apply rev_app_distr. }
  split; [|split].
  - exists sp1, (rev sp). split; [rewrite <- Ev; exact E1|].
    split; [exact H1|apply Forall_rev; exact H2].
  - intros c Hc. apply Hh1. rewrite Ev. destruct t; [discriminate Hc|exact Hc].
  - intros c Hc. apply Hh2. unfold t in Hc. rewrite <- head_rev_last, rev_involutive in Hc.
    exact Hc.
Qed.

Lemma trim_fixed (l : list ascii) :
  (∀ c, head l = Some c → Js.is_space c = false) →
  (∀ c, last l = Some c → Js.is_space c = false) →
  rev (Js.drop_space (rev (Js.drop_space l))) = l.
Proof.
  intros Hh Hl. rewrite (drop_space_fixed l Hh), drop_space_fixed, rev_involutive;
    [reflexivity|].
  intros c. rewrite head_rev_last. apply Hl.
Qed.

Lemma normalizeText_chars (s : string) :
  String.list_ascii_of_string (Submit.normalizeText s)
  = rev (Js.drop_space
           (rev (Js.drop_space
                   (Submit.replace_runs false (String.list_ascii_of_string s))))).
Proof.
  unfold Submit.normalizeText, Js.trim.
  rewrite !String.list_ascii_of_string_of_list_ascii. reflexivity.
Qed.

Lemma filter_spaces_nil (sp : list ascii) :
  Forall (λ c, Js.is_space c = true) sp → filter (λ c, Js.is_space c = false) sp = [].
Proof.
  induction 1 as [|c sp Hc _ IH]; [reflexivity|].
  rewrite filter_cons_False by (rewrite Hc; discriminate). exact IH.
Qed.

Lemma normalizeText_tidy (s : string) : tidy (Submit.normalizeText s).
Proof.
  unfold tidy. cbv zeta. rewrite normalizeText_chars.
  set (u := Submit.replace_runs false (String.list_ascii_of_string s)).
  destruct (trim_split u) as [(sp1 & sp2 & E & _ & _) [Hh Hl]]. cbv zeta in *.
  split; [|split; assumption].
  pose proof (proj1 (replace_runs_spaced false (String.list_ascii_of_string s))) as Hs.
  fold u in Hs. rewrite E in Hs.
  apply single_spaced_app in Hs as [_ Hs]. apply single_spaced_app in Hs as [Hs _].
  exact Hs.
Qed.

Lemma normalizeText_fixed (s : string) : tidy s → Submit.normalizeText s = s.
Proof.
  intros (Hs & Hh & Hl). apply list_ascii_of_string_inj.
  rewrite normalizeText_chars, (replace_runs_fixed false _ Hs) by discriminate.
  apply trim_fixed; assumption.
Qed.

Lemma normalizeText_ink (s : string) : ink (Submit.normalizeText s) = ink s.
Proof.
  unfold ink. rewrite normalizeText_chars.
  set (u := Submit.replace_runs false (String.list_ascii_of_string s)).
  destruct (trim_split u) as [(sp1 & sp2 & E & H1 & H2) _]. cbv zeta in *.
  rewrite <- (replace_runs_ink false (String.list_ascii_of_string s)). fold u.
  set (t := rev (Js.drop_space (rev (Js.drop_space u)))) in *.
  rewrite E, !filter_app, (filter_spaces_nil sp1 H1), (filter_spaces_nil sp2 H2), app_nil_r.
  reflexivity.
Qed.

(** X14.  The text that [normalizeText] returns neither starts nor ends
    with white space and has white space only as single spaces between
    other characters; its other characters are those of the argument, in
    order.  A text of that form is returned as it is, so normalising
    twice is normalising once; the result is empty exactly when the
    argument is empty or all white space. *)
Theorem normalizeText_normal (s : string) :
  tidy (Submit.normalizeText s)
  ∧ ink (Submit.normalizeText s) = ink s
  ∧ (tidy s → Submit.normalizeText s = s)
  ∧ Submit.normalizeText (Submit.normalizeText s) = Submit.normalizeText s
  ∧ (Submit.normalizeText s = ""
     ↔ Forall (λ c, Js.is_space c = true) (String.list_ascii_of_string s)).
Proof.
  split; [apply normalizeText_tidy|]. split; [apply normalizeText_ink|].
  split; [apply normalizeText_fixed|].
  split; [apply normalizeText_fixed, normalizeText_tidy|].
  split.
  - intros E. pose proof (normalizeText_ink s) as Hi. rewrite E in Hi.
    unfold ink in Hi. cbn in Hi. apply Forall_forall. intros c Hc.
    destruct (Js.is_space c) eqn:Ec; [reflexivity|]. exfalso.
    assert (Hin : c ∈ filter (λ c, Js.is_space c = false) (String.list_ascii_of_string s))
      by (apply list_elem_of_filter; auto).
    rewrite <- Hi in Hin. inversion Hin.
  - intros Hall. apply list_ascii_of_string_inj. cbn.
    destruct (String.list_ascii_of_string (Submit.normalizeText s)) as [|c l] eqn:El;
      [reflexivity|]. exfalso.
    destruct (normalizeText_tidy s) as (_ & Hh & _). cbv zeta in Hh. rewrite El in Hh.
    pose proof (Hh c eq_refl) as Hc.
    assert (Hin : c ∈ ink (Submit.normalizeText s)).
    { unfold ink. rewrite El. apply list_elem_of_filter. split; [exact Hc|].
      apply list_elem_of_here. }
    rewrite normalizeText_ink in Hin. unfold ink in Hin.
    apply list_elem_of_filter in Hin as [_ Hin]. rewrite Forall_forall in Hall.
    rewrite (Hall c Hin) in Hc. discriminate Hc.
Qed.

(** ** Submitting a suggestion *)

Lemma unameSnapshot_truthy (en : Submit.env) (u : Submit.user) :
  Js.truthy (Submit.unameSnapshot en u) = true.
Proof. unfold Submit.unameSnapshot. apply or_else_truthy. reflexivity. Qed.

(** X15.  Whenever [submitSuggestion] sends a row to the store, a user
    is signed in, the document id and the page key are not empty, and the
    row carries the identifier of the line, the id of the user and the
    normalised text of the form; that text is not empty, is tidy, and
    differs from the normalised transcription of the line.  The comment
    of the row is the trimmed comment of the form, or null when that is
    empty, and the author name of the row is never empty.  The call ends
    with the row stored or with the error of the store, as the store
    answers. *)
Theorem submitSuggestion_sends_valid_row (en : Submit.env) (uid originalText : string)
    (insert : Submit.request → option string) (req : Submit.request) :
  sent_row (Submit.submitSuggestion en uid originalText insert) = Some req →
  (∃ u, Submit.current_user en = Some u ∧ Submit.req_user_id req = Submit.user_id u)
  ∧ Submit.document_id req = Submit.DOCUMENT_ID en ∧ Submit.DOCUMENT_ID en ≠ ""
  ∧ Submit.page_key req = Submit.pageKey en ∧ Submit.pageKey en ≠ ""
  ∧ Submit.uid req = uid
  ∧ Submit.suggested_text req = Submit.normalizeText (Submit.suggestText en)
  ∧ Submit.suggested_text req ≠ "" ∧ tidy (Submit.suggested_text req)
  ∧ Submit.suggested_text req ≠ Submit.normalizeText originalText
  ∧ Submit.comment req
    = (if decide (Js.trim (Submit.suggestComment en) = "") then None
       else Some (Js.trim (Submit.suggestComment en)))
  ∧ Submit.author_username req ≠ ""
  ∧ Submit.submitSuggestion en uid originalText insert
    = match insert req with
      | Some msg => Submit.Rejected req msg
      | None => Submit.Stored req
      end.
Proof.
  unfold Submit.submitSuggestion. rewrite or_else_empty.
  destruct (Submit.current_user en) as [u|]; [|discriminate].
  destruct (Js.truthy (Submit.DOCUMENT_ID en)) eqn:Hd; cbn [negb]; [|discriminate].
  destruct (Js.truthy (Submit.pageKey en)) eqn:Hp; cbn [negb]; [|discriminate].
  destruct (Js.truthy (Submit.normalizeText (Submit.suggestText en))) eqn:Ht;
    cbn [negb]; [|discriminate].
  destruct (String.eqb_spec (Submit.normalizeText (Submit.suggestText en))
              (Submit.normalizeText originalText)) as [|Hne]; [discriminate|].
  set (r := Submit.mk_request _ _ _ _ _ _ _).
  intros Hsent.
  assert (Er : req = r) by (destruct (insert r); cbn in Hsent; congruence).
  subst req. unfold r at 1 2 3 4 5 6 7 8 9 10 11 12.
  cbn [Submit.document_id Submit.page_key Submit.uid Submit.suggested_text
       Submit.comment Submit.req_user_id Submit.author_username].
  apply truthy_true in Hd, Hp, Ht.
  split_and!; try reflexivity; try assumption.
  - eauto.
  - apply normalizeText_tidy.
  - destruct (decide (Js.trim (Submit.suggestComment en) = "")) as [E|E].
    + rewrite E. reflexivity.
    + rewrite (proj2 (truthy_true _) E). reflexivity.
  - apply truthy_true, unameSnapshot_truthy.
Qed.

Lemma submitSuggestion_sends_valid_row_witness :
  Submit.submitSuggestion Example_submit.en "0-0" "Fort Albny" Example_submit.accepts
  = Submit.Stored
      (Submit.mk_request "doc" "doc_page_1" "0-0" "Fort Albany" None "ann-0123456789" "ann").
Proof.
  pose proof (submitSuggestion_sends_valid_row Example_submit.en "0-0" "Fort Albny"
                Example_submit.accepts
                (Submit.mk_request "doc" "doc_page_1" "0-0" "Fort Albany" None
                   "ann-0123456789" "ann")
                ltac:(vm_compute; reflexivity)) as H.
  apply H.
Defined.

(** ** The rows of the ingestion script *)

Lemma flat_of_numbered (f : nat → nat → string) (pars : list Paragraph.t) :
  concat (imap (λ p par, imap (λ l x, Ingest.mk_flat (f p l) (Some (Line.line_id x))
                                        (Line.transcription x) (Line.bbox x))
                              (Paragraph.lines par))
               pars)
  = flat_of <$> concat (imap (λ p par, imap (λ l x, LineWithUid.mk x (f p l))
                                            (Paragraph.lines par))
                             pars).
Proof.
  revert f. induction pars as [|par pars IH]; intros f; [reflexivity|].
  cbn [imap concat]. rewrite fmap_app. f_equal.
  - rewrite fmap_imap. apply imap_ext. reflexivity.
  - apply (IH (λ p, f (S p))).
Qed.

(** The script and the viewer number the lines of a page alike. *)
Lemma flattenLines_getAllLinesForPage (p : PageObj.t) :
  Ingest.flattenLines (Some p) = flat_of <$> getAllLinesForPage p.
Proof. apply (flat_of_numbered uid_of). Qed.

Lemma rows_of_elem_of (document_id : string) (docJson : DocJson) (r : Ingest.row) :
  r ∈ Ingest.rows_of document_id docJson ↔
  ∃ pk pageObj l,
    doc_get docJson pk = Some pageObj ∧ l ∈ getAllLinesForPage pageObj
    ∧ Ingest.row_of document_id pk (flat_of l) = Some r.
Proof.
  unfold Ingest.rows_of. rewrite list_elem_of_In, in_flat_map. split.
  - intros (pk & Hpk & Hr). apply list_elem_of_In, list_elem_of_omap in Hr.
    destruct Hr as (fl & Hfl & Hrow).
    destruct (doc_get docJson pk) as [pageObj|] eqn:Hd; [|inversion Hfl].
    rewrite flattenLines_getAllLinesForPage in Hfl.
    apply list_elem_of_fmap in Hfl as (l & -> & Hl). eauto 6.
  - intros (pk & pageObj & l & Hd & Hl & Hrow). exists pk. split.
    + apply list_elem_of_In. unfold ingest_pageKeys. apply sort_elem_of.
      destruct (decide (pk ∈ Object_keys docJson)) as [|Hn]; [assumption|].
      apply doc_get_None in Hn. congruence.
    + apply list_elem_of_In, list_elem_of_omap. exists (flat_of l). split; [|exact Hrow].
      rewrite Hd, flattenLines_getAllLinesForPage. apply list_elem_of_fmap. eauto.
Qed.

Lemma row_of_Some (document_id pk : string) (l : Ingest.flat) (r : Ingest.row) :
  Ingest.row_of document_id pk l = Some r →
  Ingest.allFinite (Ingest.bbox l) = true
  ∧ Ingest.document_id r = document_id ∧ Ingest.page_key r = pk
  ∧ Ingest.row_uid r = Ingest.uid l ∧ Ingest.original_text r = Ingest.transcription l.
Proof.
  unfold Ingest.row_of. destruct (Ingest.bbox l) as [[[x1 y1] x2] y2].
  destruct (Ingest.allFinite _); cbn [negb]; [|discriminate].
  intros [= <-]. auto.
Qed.

Lemma row_of_is_Some (document_id pk : string) (l : Ingest.flat) :
  Ingest.allFinite (Ingest.bbox l) = true → is_Some (Ingest.row_of document_id pk l).
Proof.
  unfold Ingest.row_of. destruct (Ingest.bbox l) as [[[x1 y1] x2] y2].
  intros ->. cbn [negb]. eauto.
Qed.





(** X17.  Every box of the index that the viewer builds for a page of
    the document has its row among the rows of the ingestion script: a
    row with the key of the page and the identifier of the box, holding
    the transcription of the line of the box. *)
Theorem ingest_rows_cover_index (production : bool) (document_id : string)
    (docJson : DocJson) (pk : string) (pageObj : PageObj.t) (b : HitBox.t) :
  doc_get docJson pk = Some pageObj →
  b ∈ Render.hitBoxes_of production pageObj →
  ∃ r l, r ∈ Ingest.rows_of document_id docJson
         ∧ l ∈ getAllLinesForPage pageObj ∧ kept_box pageObj l = Some b
         ∧ Ingest.page_key r = pk ∧ Ingest.row_uid r = HitBox.uid b
         ∧ Ingest.original_text r = LineWithUid.transcription l.
Proof.
  intros Hd Hb. apply hitBoxes_of_elem_of in Hb as (l & Hl & Hk).
  assert (Hf : Ingest.allFinite (LineWithUid.bbox l) = true).
  { unfold kept_box in Hk.
    destruct (Geometry.classify _ _ l) as [| | | | | | | |b'] eqn:E; try discriminate.
    apply classify_Keep in E as (Hfin & _).
    unfold Geometry.all_finite in Hfin. unfold Ingest.allFinite.
    destruct (LineWithUid.bbox l) as [[[x1 y1] x2] y2].
    cbn [forallb] in Hfin |- *. rewrite !andb_true_iff in Hfin |- *. tauto. }
  destruct (row_of_is_Some document_id pk (flat_of l) Hf) as [r Hr].
  exists r, l. split; [apply rows_of_elem_of; eauto 6|].
  destruct (row_of_Some _ _ _ _ Hr) as (_ & _ & Hpk & Hu & Ht).
  rewrite (kept_box_uid _ _ _ Hk). auto.
Qed.

Lemma ingest_rows_cover_index_witness :
  ∃ r, r ∈ Ingest.rows_of "id" Example_ingest.docJson
       ∧ Ingest.page_key r = "doc_page_1" ∧ Ingest.row_uid r = "0-0".
Proof.
  assert (Hb : ∃ b, b ∈ Render.hitBoxes_of true Example.page ∧ HitBox.uid b = "0-0").
  { eexists. split; [vm_compute; apply list_elem_of_here|reflexivity]. }
  destruct Hb as (b & Hb & Hu).
  destruct (ingest_rows_cover_index true "id" Example_ingest.docJson "doc_page_1"
              Example.page b ltac:(vm_compute; reflexivity) Hb)
    as (r & l & Hr & _ & _ & Hpk & Hru & _).
  exists r. rewrite Hru, Hu. auto.
Defined.

(** ** The run of the ingestion script *)

Lemma chunks_sent_app (evs evs' : list Ingest.event) :
  chunks_sent (evs ++ evs') = chunks_sent evs ++ chunks_sent evs'.
Proof. apply omap_app. Qed.

Lemma documents_deleted_app (evs evs' : list Ingest.event) :
  documents_deleted (evs ++ evs') = documents_deleted evs ++ documents_deleted evs'.
Proof. apply omap_app. Qed.

(** The loop over the chunks, with fuel enough for the rows left: it
    ends without error exactly when the store accepts every chunk, and
    else at the first chunk that the store refuses. *)
Lemma insert_from_spec (lines_answer : nat → option string) (rows : list Ingest.row)
    (fuel i : nat) :
  (length rows ≤ fuel + i)%nat →
  let '(evs, res) := Ingest.insert_from lines_answer fuel i rows in
  documents_deleted evs = []
  ∧ Forall (λ c, (1 ≤ length c ≤ Ingest.CHUNK)%nat) (chunks_sent evs)
  ∧ (∃ rest, drop i rows = concat (chunks_sent evs) ++ rest)
  ∧ match res with
    | None =>
        concat (chunks_sent evs) = drop i rows
        ∧ ∀ k, (i + k * Ingest.CHUNK < length rows)%nat →
               lines_answer (i + k * Ingest.CHUNK)%nat = None
    | Some err =>
        ∃ n, (i + n * Ingest.CHUNK < length rows)%nat
             ∧ lines_answer (i + n * Ingest.CHUNK)%nat = Some err
             ∧ (∀ k, (k < n)%nat → lines_answer (i + k * Ingest.CHUNK)%nat = None)
             ∧ chunks_sent evs
               = (λ k, take Ingest.CHUNK (drop (i + k * Ingest.CHUNK) rows)) <$> seq 0 (S n)
             ∧ last evs
               = Some (Ingest.Insert_lines
                         (take Ingest.CHUNK (drop (i + n * Ingest.CHUNK) rows)))
    end.
Proof.
  revert i. induction fuel as [|fuel IH]; intros i Hf; cbn [Ingest.insert_from].
  - split; [reflexivity|]. split; [constructor|].
    rewrite drop_ge by lia. split; [exists []; reflexivity|].
    split; [reflexivity|]. intros k Hk. lia.
  - destruct (Nat.ltb_spec i (length rows)) as [Hlt|Hge].
    2: { split; [reflexivity|]. split; [constructor|].
         rewrite drop_ge by lia. split; [exists []; reflexivity|].
         split; [reflexivity|]. intros k Hk. lia. }
    assert (Hlen : (1 ≤ length (take Ingest.CHUNK (drop i rows)) ≤ Ingest.CHUNK)%nat).
    { rewrite length_take, length_drop. unfold Ingest.CHUNK. lia. }
    assert (Hi0 : (i + 0 * Ingest.CHUNK = i)%nat) by lia.
    destruct (lines_answer i) as [err|] eqn:Ea.
    + split; [reflexivity|]. split; [constructor; [exact Hlen|constructor]|].
      split.
      * exists (drop Ingest.CHUNK (drop i rows)).
        change (chunks_sent [Ingest.Insert_lines ?c]) with [c].
        cbn [concat]. rewrite app_nil_r. symmetry. apply take_drop.
      * exists 0%nat. rewrite Hi0. split; [exact Hlt|]. split; [exact Ea|].
        split; [intros k Hk; lia|].
        change (chunks_sent [Ingest.Insert_lines ?c]) with [c].
        cbn [seq fmap list_fmap]. rewrite Hi0. split; reflexivity.
    + specialize (IH (i + Ingest.CHUNK)%nat ltac:(unfold Ingest.CHUNK; lia)).
      destruct (Ingest.insert_from lines_answer fuel (i + Ingest.CHUNK) rows)
        as [evs res].
      destruct IH as (Hdel & Hch & (rest & Hrest) & Hres).
      assert (Hsplit : drop i rows
                       = take Ingest.CHUNK (drop i rows) ++ drop (i + Ingest.CHUNK) rows).
      { rewrite <- drop_drop. symmetry. apply take_drop. }
      assert (Hstep : ∀ k, (i + Ingest.CHUNK + k * Ingest.CHUNK
                            = i + S k * Ingest.CHUNK)%nat) by (intros k; lia).
      split; [exact Hdel|]. split; [constructor; [exact Hlen|exact Hch]|]. split.
      * exists rest. cbn [chunks_sent omap list_omap concat].
        fold (chunks_sent evs). rewrite <- app_assoc, <- Hrest. exact Hsplit.
      * destruct res as [err|].
        -- destruct Hres as (n & Hn & Hj & Hbefore & Hsent & Hlast).
           exists (S n). rewrite <- Hstep. split; [exact Hn|]. split; [exact Hj|].
           split; [|split].
           ++ intros [|k] Hk; [rewrite Hi0; exact Ea|].
              rewrite <- Hstep. apply Hbefore. lia.
           ++ cbn [chunks_sent omap list_omap]. fold (chunks_sent evs). rewrite Hsent.
              change (seq 0 (S (S n))) with (0%nat :: seq 1 (S n)).
              rewrite <- (fmap_S_seq 0 (S n)), fmap_cons. cbv beta. rewrite Hi0.
              f_equal. rewrite <- list_fmap_compose. apply list_fmap_ext.
              intros _ k _. unfold compose. rewrite Hstep. reflexivity.
           ++ destruct evs as [|e evs]; [discriminate Hlast|]. exact Hlast.
        -- destruct Hres as [Hall Hacc]. split.
           ++ cbn [chunks_sent omap list_omap concat]. fold (chunks_sent evs).
              rewrite Hall. symmetry. exact Hsplit.
           ++ intros [|k] Hk; [rewrite Hi0; exact Ea|].
              rewrite <- Hstep. apply Hacc. rewrite Hstep. exact Hk.
Qed.


Lemma last_chunk_sent (evs : list Ingest.event) (chunk : list Ingest.row) :
  last evs = Some (Ingest.Insert_lines chunk) → last (chunks_sent evs) = Some chunk.
Proof.
  destruct evs as [|e evs _] using rev_ind; [cbn; discriminate|].
  rewrite last_snoc. intros [= ->]. rewrite chunks_sent_app. apply last_snoc.
Qed.

Lemma main_after_document (basename stem : string → string)
    (read : string → DocJson + string) (lines_answer : nat → option string)
    (jf pdf docid : string) (docJson : DocJson) :
  jf ≠ "" → pdf ≠ "" → read jf = inl docJson →
  Ingest.main basename stem read (inl docid) lines_answer (Some jf) (Some pdf)
  = let ask := Ingest.Insert_document (stem pdf) pdf (basename jf) in
    let rows := Ingest.rows_of docid docJson in
    if (length rows =? 0)%nat then ([ask], Ingest.Threw "No lines found to insert.")
    else
      match Ingest.insert_from lines_answer (length rows) 0 rows with
      | (evs, None) =>
          (ask :: evs ++ [Ingest.Log "Done."; Ingest.Log ("document_id: " +:+ docid)],
           Ingest.Done)
      | (evs, Some err) => (ask :: evs ++ [Ingest.Delete_document docid], Ingest.Threw err)
      end.
Proof.
  intros Hj Hp Hr. unfold Ingest.main. cbn [default from_option]; unfold id.
  rewrite (proj2 (truthy_true jf) Hj), (proj2 (truthy_true pdf) Hp), Hr. reflexivity.
Qed.

(** X18.  Once the script has inserted the row of the document and has
    rows to insert, it sends the rows in chunks of at most 1000, none
    empty, in order.  It ends normally exactly when the store accepts
    every chunk: the chunks sent then make up all the rows, each once,
    and no deletion is asked.  When the store refuses a chunk, the
    chunks sent are those up to the first refused one and no further
    chunk is sent; the script asks the store to delete the row of the
    document, as its last request, and ends with the error that the
    store gave for that chunk. *)
Theorem ingest_all_rows_or_rollback (basename stem : string → string)
    (read : string → DocJson + string) (lines_answer : nat → option string)
    (jf pdf docid : string) (docJson : DocJson) :
  jf ≠ "" → pdf ≠ "" → read jf = inl docJson →
  Ingest.rows_of docid docJson ≠ [] →
  let rows := Ingest.rows_of docid docJson in
  let '(evs, ex) :=
    Ingest.main basename stem read (inl docid) lines_answer (Some jf) (Some pdf) in
  head evs = Some (Ingest.Insert_document (stem pdf) pdf (basename jf))
  ∧ Forall (λ c, (1 ≤ length c ≤ 1000)%nat) (chunks_sent evs)
  ∧ (∃ rest, rows = concat (chunks_sent evs) ++ rest)
  ∧ (ex = Ingest.Done ↔
     ∀ k, (k * 1000 < length rows)%nat → lines_answer (k * 1000)%nat = None)
  ∧ match ex with
    | Ingest.Done => concat (chunks_sent evs) = rows ∧ documents_deleted evs = []
    | Ingest.Threw err =>
        (∃ n, (n * 1000 < length rows)%nat
              ∧ lines_answer (n * 1000)%nat = Some err
              ∧ (∀ k, (k < n)%nat → lines_answer (k * 1000)%nat = None)
              ∧ chunks_sent evs
                = (λ k, take 1000 (drop (k * 1000) rows)) <$> seq 0 (S n))
        ∧ documents_deleted evs = [docid]
        ∧ last evs = Some (Ingest.Delete_document docid)
    | Ingest.Usage => False
    end.
Proof.
  intros Hj Hp Hr Hne rows.
  rewrite (main_after_document basename stem read lines_answer jf pdf docid docJson Hj Hp Hr).
  cbv zeta. fold rows.
  destruct (Nat.eqb_spec (length rows) 0) as [E|_].
  { exfalso. apply Hne, nil_length_inv, E. }
  pose proof (insert_from_spec lines_answer rows (length rows) 0 ltac:(lia)) as H.
  destruct (Ingest.insert_from lines_answer (length rows) 0 rows) as [evs res].
  destruct H as (Hdel & Hch & (rest & Hrest) & Hres). rewrite drop_0 in Hrest.
  change Ingest.CHUNK with 1000%nat in Hres.
  destruct res as [err|].
  - destruct Hres as (n & Hn & Hrefused & Hbefore & Hsent & Hlast).
    change (0 + ?x)%nat with x in Hn, Hrefused, Hbefore, Hsent.
    split; [reflexivity|].
    assert (Hc : chunks_sent (Ingest.Insert_document (stem pdf) pdf (basename jf)
                                :: evs ++ [Ingest.Delete_document docid])
                 = chunks_sent evs).
    { change (chunks_sent (?e :: ?l)) with (chunks_sent l).
      rewrite chunks_sent_app. apply app_nil_r. }
    rewrite Hc. split; [exact Hch|]. split; [eauto|]. split; [|split; [|split]].
    + split; [discriminate|]. intros Hall. rewrite (Hall n Hn) in Hrefused.
      discriminate Hrefused.
    + exists n. split; [exact Hn|]. split; [exact Hrefused|].
      split; [exact Hbefore|exact Hsent].
    + change (documents_deleted (?e :: ?l)) with (documents_deleted l).
      rewrite documents_deleted_app, Hdel. reflexivity.
    + change (last (?e :: ?l ++ [?d])) with (last (e :: l ++ [d])).
      rewrite app_comm_cons. apply last_snoc.
  - destruct Hres as [Hall Hacc].
    change (0 + ?x)%nat with x in Hacc.
    split; [reflexivity|].
    assert (Hc : chunks_sent (Ingest.Insert_document (stem pdf) pdf (basename jf)
                                :: evs ++ [Ingest.Log "Done.";
                                           Ingest.Log ("document_id: " +:+ docid)])
                 = chunks_sent evs).
    { change (chunks_sent (?e :: ?l)) with (chunks_sent l).
      rewrite chunks_sent_app. apply app_nil_r. }
    rewrite Hc. split; [exact Hch|]. split; [eauto|]. split; [|split].
    + split; [intros _; exact Hacc|reflexivity].
    + rewrite Hall. apply drop_0.
    + change (documents_deleted (?e :: ?l)) with (documents_deleted l).
      rewrite documents_deleted_app, Hdel. reflexivity.
Qed.

Lemma ingest_all_rows_or_rollback_witness :
  (∃ evs, Ingest.main Example_run.basename Example_run.stem Example_run.read
            (inl "id-1") Example_run.refuses (Some "./data/doc.json") (Some "doc.pdf")
          = (evs, Ingest.Threw "insert failed")
          ∧ documents_deleted evs = ["id-1"]
          ∧ length (chunks_sent evs) = 1%nat)
  ∧ (∃ evs, Ingest.main Example_run.basename Example_run.stem Example_run.read
              (inl "id-1") Example_run.accepts (Some "./data/doc.json") (Some "doc.pdf")
            = (evs, Ingest.Done)
            ∧ concat (chunks_sent evs) = Ingest.rows_of "id-1" Example_ingest.docJson).
Proof.
  split.
  - pose proof (ingest_all_rows_or_rollback Example_run.basename Example_run.stem
                  Example_run.read Example_run.refuses "./data/doc.json" "doc.pdf" "id-1"
                  Example_ingest.docJson ltac:(discriminate) ltac:(discriminate) eq_refl
                  ltac:(vm_compute; discriminate)) as H.
    cbv zeta in H.
    destruct (Ingest.main _ _ _ _ _ _ _) as [evs ex] eqn:E.
    assert (Hex : ex = Ingest.Threw "insert failed") by (vm_compute in E; congruence).
    subst ex. exists evs. split; [reflexivity|].
    destruct H as (_ & _ & _ & _ & _ & Hdel & _). split; [exact Hdel|].
    vm_compute in E. injection E as <-. reflexivity.
  - pose proof (ingest_all_rows_or_rollback Example_run.basename Example_run.stem
                  Example_run.read Example_run.accepts "./data/doc.json" "doc.pdf" "id-1"
                  Example_ingest.docJson ltac:(discriminate) ltac:(discriminate) eq_refl
                  ltac:(vm_compute; discriminate)) as H.
    cbv zeta in H.
    destruct (Ingest.main _ _ _ _ _ _ _) as [evs ex] eqn:E.
    destruct H as (_ & _ & _ & [_ Hdone] & Hm).
    rewrite (Hdone (λ _ _, eq_refl)) in Hm |- *.
    exists evs. split; [reflexivity|apply Hm].
Defined.


Lemma rows_of_nil (document_id : string) (docJson : DocJson) :
  (∀ pk pageObj l, doc_get docJson pk = Some pageObj → l ∈ getAllLinesForPage pageObj →
                   Ingest.allFinite (LineWithUid.bbox l) = false) →
  Ingest.rows_of document_id docJson = [].
Proof.
  intros Hall. destruct (Ingest.rows_of document_id docJson) as [|r rows] eqn:E;
    [reflexivity|]. exfalso.
  assert (Hr : r ∈ Ingest.rows_of document_id docJson) by (rewrite E; apply list_elem_of_here).
  apply rows_of_elem_of in Hr as (pk & pageObj & l & Hd & Hl & Hrow).
  apply row_of_Some in Hrow as (Hf & _). cbn in Hf.
  rewrite (Hall pk pageObj l Hd Hl) in Hf. discriminate Hf.
Qed.

(** X19.  When no line of the document has a box of four finite numbers,
    a document without pages or without lines included, the script has
    already inserted the row of the document when it finds that it has no
    rows: it ends with the error ["No lines found to insert."] and never
    asks the store to delete that row.  Without one of its two arguments
    the script asks nothing of the store, and neither does it when the
    file cannot be read. *)
Theorem ingest_no_lines_keeps_document (basename stem : string → string)
    (read : string → DocJson + string) (lines_answer : nat → option string)
    (jf pdf docid : string) (docJson : DocJson) :
  jf ≠ "" → pdf ≠ "" → read jf = inl docJson →
  (∀ pk pageObj l, doc_get docJson pk = Some pageObj → l ∈ getAllLinesForPage pageObj →
                   Ingest.allFinite (LineWithUid.bbox l) = false) →
  Ingest.main basename stem read (inl docid) lines_answer (Some jf) (Some pdf)
  = ([Ingest.Insert_document (stem pdf) pdf (basename jf)],
     Ingest.Threw "No lines found to insert.")
  ∧ (∀ answer, Ingest.main basename stem read answer lines_answer None (Some pdf)
               = ([], Ingest.Usage)
               ∧ Ingest.main basename stem read answer lines_answer (Some jf) None
                 = ([], Ingest.Usage))
  ∧ (∀ answer err read', read' jf = inr err →
       Ingest.main basename stem read' answer lines_answer (Some jf) (Some pdf)
       = ([], Ingest.Threw err)).
Proof.
  intros Hj Hp Hr Hall. split; [|split].
  - rewrite (main_after_document basename stem read lines_answer jf pdf docid docJson
               Hj Hp Hr).
    cbv zeta. rewrite (rows_of_nil docid docJson Hall). reflexivity.
  - intros answer. split; [reflexivity|].
    unfold Ingest.main. cbn [default from_option]. unfold id.
    rewrite orb_true_r. reflexivity.
  - intros answer err read' Hr'. unfold Ingest.main. cbn [default from_option]. unfold id.
    rewrite (proj2 (truthy_true jf) Hj), (proj2 (truthy_true pdf) Hp), Hr'. reflexivity.
Qed.

Lemma ingest_no_lines_keeps_document_witness :
  Ingest.main Example_run.basename Example_run.stem
    (λ _, inl [("doc_page_2", Example_ingest.page2)])
    (inl "id-1") Example_run.accepts (Some "./data/doc.json") (Some "doc.pdf")
  = ([Ingest.Insert_document "doc" "doc.pdf" "doc.json"],
     Ingest.Threw "No lines found to insert.").
Proof.
  apply (ingest_no_lines_keeps_document Example_run.basename Example_run.stem
           (λ _, inl [("doc_page_2", Example_ingest.page2)]) Example_run.accepts
           "./data/doc.json" "doc.pdf" "id-1" [("doc_page_2", Example_ingest.page2)]);
    [discriminate|discriminate|reflexivity|].
  intros pk pageObj l Hd Hl. cbn [doc_get] in Hd.
  destruct (String.eqb "doc_page_2" pk); [|discriminate Hd].
  injection Hd as <-. vm_compute in Hl.
  apply list_elem_of_singleton in Hl. subst l. vm_compute. reflexivity.
Defined.

(** ** Votes that the leaderboard does not count *)

Lemma totals_of_counted (data : list Leaderboard.vote_row)
    (totals : list (string * Leaderboard.total)) :
  foldl Leaderboard.count_row totals (filter (λ v, counted v = true) data)
  = foldl Leaderboard.count_row totals data.
Proof.
  revert totals. induction data as [|v data IH]; intros totals; [reflexivity|].
  rewrite filter_cons. cbn [foldl]. destruct (decide (counted v = true)) as [Hc|Hc].
  - cbn [foldl]. apply IH.
  - apply not_true_is_false in Hc.
    rewrite (proj1 (count_row_skip totals v Hc)). apply IH.
Qed.

(** X20.  Votes whose value is not 1 and votes on a suggestion without
    an author have no influence on the leaderboard: its rows, with their
    counts, names and order, are those of the counted votes alone.  With
    no counted vote the leaderboard is empty, as it is when the query of
    the votes fails. *)
Theorem leaderboard_ignores_uncounted (data : list Leaderboard.vote_row)
    (profiles : list string → option (list Leaderboard.profile)) :
  Leaderboard.loadLeaderboard (Some (filter (λ v, counted v = true) data)) profiles
  = Leaderboard.loadLeaderboard (Some data) profiles
  ∧ (Forall (λ v, counted v = false) data →
     Leaderboard.loadLeaderboard (Some data) profiles = [])
  ∧ Leaderboard.loadLeaderboard None profiles = [].
Proof.
  assert (Ht : Leaderboard.totals_of (filter (λ v, counted v = true) data)
               = Leaderboard.totals_of data) by apply totals_of_counted.
  assert (Hr : Leaderboard.top_rows (filter (λ v, counted v = true) data)
               = Leaderboard.top_rows data).
  { unfold Leaderboard.top_rows. rewrite Ht. reflexivity. }
  split; [|split; [|reflexivity]].
  - unfold Leaderboard.loadLeaderboard. rewrite Hr. reflexivity.
  - intros Hall. unfold Leaderboard.loadLeaderboard.
    assert (Hnil : filter (λ v, counted v = true) data = []).
    { clear -Hall. induction Hall as [|v data Hv _ IH]; [reflexivity|].
      rewrite filter_cons_False by (rewrite Hv; discriminate). exact IH. }
    rewrite <- Hr, Hnil. reflexivity.
Qed.

(** ** Boxes with corners in any order *)

Lemma in_unit_sval_inj (a b : spec_float) :
  in_unit a → in_unit b → sval a = sval b → a = b.
Proof.
  intros [->|(ma & ea & -> & Ba & _)] [->|(mb & eb & -> & Bb & _)] Hv.
  - reflexivity.
  - pose proof (sval_pos false mb eb (proj1 (proj1 (bounded_facts _ _ Bb)))) as Hp.
    cbn [sval] in Hv, Hp. lia.
  - pose proof (sval_pos false ma ea (proj1 (proj1 (bounded_facts _ _ Ba)))) as Hp.
    cbn [sval] in Hv, Hp. lia.
  - cbn [sval] in Hv.
    destruct (bounded_facts _ _ Ba) as ([La Ua] & _).
    destruct (bounded_facts _ _ Bb) as ([Lb Ub] & _).
    destruct (bounded_range _ _ Ba) as [Ma Na].
    destruct (bounded_range _ _ Bb) as [Mb Nb].
    assert (He : ea = eb).
    { destruct (Z.lt_trichotomy ea eb) as [Hlt|[->|Hgt]]; [|reflexivity|]; exfalso.
      - replace (eb + 1074) with ((ea + 1074) + (eb - ea)) in Hv by lia.
        rewrite (Z.pow_add_r 2 (ea + 1074) (eb - ea)) in Hv by lia.
        pose proof (cmp_scaled (Z.pos ma) (Z.pos mb) (2 ^ (ea + 1074)) (2 ^ (eb - ea))
                      Ma (pow2_pos (ea + 1074) ltac:(lia))) as Hc.
        assert (H2 : 2 ≤ 2 ^ (eb - ea)).
        { change 2 with (2 ^ 1) at 1. apply Z.pow_le_mono_r; lia. }
        specialize (Hc H2 (Nb ltac:(lia))). lia.
      - replace (ea + 1074) with ((eb + 1074) + (ea - eb)) in Hv by lia.
        rewrite (Z.pow_add_r 2 (eb + 1074) (ea - eb)) in Hv by lia.
        pose proof (cmp_scaled (Z.pos mb) (Z.pos ma) (2 ^ (eb + 1074)) (2 ^ (ea - eb))
                      Mb (pow2_pos (eb + 1074) ltac:(lia))) as Hc.
        assert (H2 : 2 ≤ 2 ^ (ea - eb)).
        { change 2 with (2 ^ 1) at 1. apply Z.pow_le_mono_r; lia. }
        specialize (Hc H2 (Na ltac:(lia))). lia. }
    subst eb. pose proof (pow2_pos (ea + 1074) ltac:(lia)) as Hp.
    assert (Hm : Z.pos ma = Z.pos mb) by nia.
    injection Hm as ->. reflexivity.
Qed.

(** Ordering two clamped coordinates gives the same pair whichever comes
    first. *)
Lemma ordered_pair_sym (a b : float) :
  in_unit (Prim2SF a) → in_unit (Prim2SF b) →
  (if (b <? a)%float then (b, a) else (a, b))
  = (if (a <? b)%float then (a, b) else (b, a)).
Proof.
  intros Ha Hb. rewrite !ltb_spec, (in_unit_ltb _ _ Ha Hb), (in_unit_ltb _ _ Hb Ha).
  destruct (Z.ltb_spec (sval (Prim2SF b)) (sval (Prim2SF a))) as [H1|H1];
    destruct (Z.ltb_spec (sval (Prim2SF a)) (sval (Prim2SF b))) as [H2|H2];
    try reflexivity; [lia|].
  assert (E : a = b).
  { apply Prim2SF_inj, (in_unit_sval_inj _ _ Ha Hb). lia. }
  rewrite E. reflexivity.
Qed.

Lemma clamped_quotient_in_unit (x p : float) :
  is_finite x = true → is_finite p = true → (p <=? 0)%float = false →
  in_unit (Prim2SF (Geometry.clamp01 (x / p))).
Proof. intros Hx Hp Hpos. apply clamp01_in_unit, div_not_nan; assumption. Qed.

Lemma normalized_swap (pageW pageH : float) (u : string)
    (bb : float * float * float * float) :
  Geometry.all_finite pageW pageH bb = true →
  Geometry.bad_page_size pageW pageH = false →
  Geometry.normalized pageW pageH u (swap_x bb) = Geometry.normalized pageW pageH u bb
  ∧ Geometry.normalized pageW pageH u (swap_y bb) = Geometry.normalized pageW pageH u bb.
Proof.
  destruct bb as [[[x1 y1] x2] y2]. intros Hf Hs.
  apply all_finite_inv in Hf as (F1 & F2 & F3 & F4 & FW & FH).
  unfold Geometry.bad_page_size in Hs. apply orb_false_iff in Hs as [HW HH].
  pose proof (clamped_quotient_in_unit x1 pageW F1 FW HW) as U1.
  pose proof (clamped_quotient_in_unit x2 pageW F3 FW HW) as U2.
  pose proof (clamped_quotient_in_unit y1 pageH F2 FH HH) as V1.
  pose proof (clamped_quotient_in_unit y2 pageH F4 FH HH) as V2.
  unfold Geometry.normalized, swap_x, swap_y. split.
  - rewrite <- (ordered_pair_sym _ _ U1 U2). reflexivity.
  - rewrite <- (ordered_pair_sym _ _ V1 V2). reflexivity.
Qed.

Lemma all_finite_swap (pageW pageH : float) (bb : float * float * float * float) :
  Geometry.all_finite pageW pageH (swap_x bb) = Geometry.all_finite pageW pageH bb
  ∧ Geometry.all_finite pageW pageH (swap_y bb) = Geometry.all_finite pageW pageH bb.
Proof.
  destruct bb as [[[x1 y1] x2] y2]. unfold Geometry.all_finite, swap_x, swap_y.
  cbn [forallb]. unfold Js.Number_isFinite.
  destruct (is_finite x1), (is_finite y1), (is_finite x2), (is_finite y2);
    split; reflexivity.
Qed.

(** X21.  The loop of the page-render effect treats a line alike in
    whichever order the file gives the corners of its box: with the two
    horizontal coordinates exchanged, the two vertical ones, or both, the
    line is skipped for the same reason or kept with the same box. *)
Theorem classify_corner_order (pageW pageH : float) (l : LineWithUid.t) :
  let bb := LineWithUid.bbox l in
  Geometry.classify pageW pageH (with_bbox l (swap_x bb)) = Geometry.classify pageW pageH l
  ∧ Geometry.classify pageW pageH (with_bbox l (swap_y bb))
    = Geometry.classify pageW pageH l
  ∧ Geometry.classify pageW pageH (with_bbox l (swap_x (swap_y bb)))
    = Geometry.classify pageW pageH l.
Proof.
  intros bb.
  assert (H : ∀ bb', Geometry.all_finite pageW pageH bb'
                     = Geometry.all_finite pageW pageH bb →
                     (Geometry.all_finite pageW pageH bb = true →
                      Geometry.bad_page_size pageW pageH = false →
                      Geometry.normalized pageW pageH (LineWithUid.uid l) bb'
                      = Geometry.normalized pageW pageH (LineWithUid.uid l) bb) →
                     Geometry.classify pageW pageH (with_bbox l bb')
                     = Geometry.classify pageW pageH l).
  { intros bb' Hf Hn. unfold Geometry.classify, with_bbox.
    cbn [LineWithUid.bbox LineWithUid.line LineWithUid.uid Line.bbox].
    fold (LineWithUid.bbox l). fold bb. rewrite Hf.
    destruct (Geometry.all_finite pageW pageH bb) eqn:Ef; cbn [negb]; [|reflexivity].
    destruct (Geometry.bad_page_size pageW pageH) eqn:Es; [reflexivity|].
    rewrite (Hn eq_refl eq_refl). reflexivity. }
  split; [|split].
  - apply H; [apply all_finite_swap|]. intros Hf Hs. apply normalized_swap; assumption.
  - apply H; [apply all_finite_swap|]. intros Hf Hs. apply normalized_swap; assumption.
  - apply H.
    + rewrite (proj1 (all_finite_swap _ _ _)). apply all_finite_swap.
    + intros Hf Hs.
      rewrite (proj1 (normalized_swap pageW pageH _ (swap_y bb)
                        ltac:(rewrite (proj2 (all_finite_swap _ _ _)); exact Hf) Hs)).
      apply normalized_swap; assumption.
Qed.

(** ** Drag-to-pan *)

Lemma set_dragging_same (st : Highlight.state) :
  Pan.set_dragging st (Highlight.isDragging st) = st.
Proof. destruct st. reflexivity. Qed.

(** X22.  While the zoom is at most 1 and no drag is under way, no mouse
    event of the scroll container starts a drag: after any sequence of
    presses, moves, releases and leaves the highlight state, its drag
    flag included, the zoom and the scroll offsets are what they were, so
    that no click on the page is ignored as part of a drag. *)
Theorem no_drag_unless_zoomed (settle_left settle_top : float → float)
    (st : Pan.state) (evs : list Pan.event) :
  (Pan.zoom st <=? 1)%float = true →
  Highlight.isDragging (Pan.hl st) = false →
  let st' := foldl (Pan.step settle_left settle_top) st evs in
  Pan.hl st' = Pan.hl st ∧ Pan.zoom st' = Pan.zoom st ∧ offsets st' = offsets st
  ∧ ∀ e, click_target (Pan.hl st') e = click_target (Pan.hl st) e.
Proof.
  intros Hz Hd. cbv zeta.
  assert (H : Pan.hl (foldl (Pan.step settle_left settle_top) st evs) = Pan.hl st
              ∧ Pan.zoom (foldl (Pan.step settle_left settle_top) st evs) = Pan.zoom st
              ∧ offsets (foldl (Pan.step settle_left settle_top) st evs) = offsets st).
  { revert st Hz Hd. induction evs as [|ev evs IH]; intros st Hz Hd; [auto|].
    cbn [foldl].
    assert (Hs : Pan.hl (Pan.step settle_left settle_top st ev) = Pan.hl st
                 ∧ Pan.zoom (Pan.step settle_left settle_top st ev) = Pan.zoom st
                 ∧ offsets (Pan.step settle_left settle_top st ev) = offsets st).
    { destruct ev as [x y|x y| |]; cbn [Pan.step].
      - unfold Pan.onPdfMouseDown. rewrite Hz. auto.
      - unfold Pan.onPdfMouseMove. rewrite Hd. auto.
      - unfold Pan.endDrag, offsets. cbn [Pan.hl Pan.zoom Pan.el].
        rewrite <- Hd, set_dragging_same. destruct (Pan.el st); auto.
      - unfold Pan.endDrag, offsets. cbn [Pan.hl Pan.zoom Pan.el].
        rewrite <- Hd, set_dragging_same. destruct (Pan.el st); auto. }
    destruct Hs as (Hh & Hzm & Ho).
    destruct (IH (Pan.step settle_left settle_top st ev)) as (Hh' & Hz' & Ho').
    - rewrite Hzm. exact Hz.
    - rewrite Hh. exact Hd.
    - rewrite Hh', Hz', Ho'. auto. }
  destruct H as (Hh & Hzm & Ho). rewrite Hh. auto.
Qed.

Lemma no_drag_unless_zoomed_witness :
  Pan.hl (foldl (Pan.step Example_pan.settle Example_pan.settle) Example_pan.unzoomed
            [Pan.Down 10 10; Pan.Move 50 60; Pan.Up])
  = Example_clicks.idle.
Proof.
  apply (no_drag_unless_zoomed Example_pan.settle Example_pan.settle Example_pan.unzoomed
           [Pan.Down 10 10; Pan.Move 50 60; Pan.Up]);
    [vm_compute; reflexivity|reflexivity].
Defined.

Lemma drag_moves (settle_left settle_top : float → float) (st : Pan.state)
    (moves : list (float * float)) (x y : float) (s : Pan.scroller) :
  Highlight.isDragging (Pan.hl st) = true → Pan.el st = Some s →
  foldl (Pan.step settle_left settle_top) st
    ((λ p, Pan.Move p.1 p.2) <$> moves ++ [(x, y)])
  = Pan.mk_state (Pan.hl st) (Pan.zoom st) (Pan.dragStart st)
      (Some (Pan.mk_scroller
               (settle_left (Pan.start_scrollLeft (Pan.dragStart st)
                             - (x - Pan.start_x (Pan.dragStart st)))%float)
               (settle_top (Pan.start_scrollTop (Pan.dragStart st)
                            - (y - Pan.start_y (Pan.dragStart st)))%float)
               (Pan.cursor s) (Pan.userSelect s))).
Proof.
  revert st s. induction moves as [|[x1 y1] moves IH]; intros st s Hd He;
    cbn [app fmap list_fmap foldl Pan.step fst snd].
  - unfold Pan.onPdfMouseMove. rewrite Hd, He. reflexivity.
  - assert (E1 : Pan.onPdfMouseMove settle_left settle_top st x1 y1
                 = Pan.mk_state (Pan.hl st) (Pan.zoom st) (Pan.dragStart st)
                     (Some (Pan.mk_scroller
                              (settle_left (Pan.start_scrollLeft (Pan.dragStart st)
                                            - (x1 - Pan.start_x (Pan.dragStart st)))%float)
                              (settle_top (Pan.start_scrollTop (Pan.dragStart st)
                                           - (y1 - Pan.start_y (Pan.dragStart st)))%float)
                              (Pan.cursor s) (Pan.userSelect s)))).
    { unfold Pan.onPdfMouseMove. rewrite Hd, He. reflexivity. }
    rewrite E1.
    match goal with |- foldl _ ?st1 _ = _ => rewrite (IH st1 _ Hd eq_refl) end.
    reflexivity.
Qed.

(** X23.  With the zoom above 1, a press on the scroll container starts
    a drag, and during the drag the scroll offsets follow the pointer
    from where the press found them: after any number of moves they are
    what the browser keeps of the offsets at the press minus the way of
    the pointer since the press, whatever path it took.  A release ends
    the drag: the offsets stay, further moves do not scroll, and the drag
    flag is down again, so a click that follows the release is not
    ignored. *)
Theorem pan_follows_pointer (settle_left settle_top : float → float)
    (st : Pan.state) (s : Pan.scroller) (x0 y0 x y : float)
    (moves : list (float * float)) :
  (Pan.zoom st <=? 1)%float = false → Pan.el st = Some s →
  let dragged :=
    foldl (Pan.step settle_left settle_top) st
      (Pan.Down x0 y0 :: ((λ p, Pan.Move p.1 p.2) <$> moves ++ [(x, y)])) in
  let released := Pan.step settle_left settle_top dragged Pan.Up in
  Highlight.isDragging (Pan.hl dragged) = true
  ∧ offsets dragged
    = Some (settle_left (Pan.scrollLeft s - (x - x0))%float,
            settle_top (Pan.scrollTop s - (y - y0))%float)
  ∧ Pan.hl released = Pan.set_dragging (Pan.hl st) false
  ∧ offsets released = offsets dragged
  ∧ (∀ x' y', Pan.step settle_left settle_top released (Pan.Move x' y') = released)
  ∧ ∀ e, click_target (Pan.hl released) e
         = click_target (Pan.set_dragging (Pan.hl st) false) e.
Proof.
  intros Hz He dragged released.
  assert (Ed : dragged
               = Pan.mk_state (Pan.set_dragging (Pan.hl st) true) (Pan.zoom st)
                   (Pan.mk_start x0 y0 (Pan.scrollLeft s) (Pan.scrollTop s))
                   (Some (Pan.mk_scroller
                            (settle_left (Pan.scrollLeft s - (x - x0))%float)
                            (settle_top (Pan.scrollTop s - (y - y0))%float)
                            "grabbing" "none"))).
  { unfold dragged. cbn [foldl Pan.step]. unfold Pan.onPdfMouseDown. rewrite Hz, He.
    match goal with
    | |- foldl _ ?st1 _ = _ =>
        rewrite (drag_moves settle_left settle_top st1 moves x y
                   (Pan.mk_scroller (Pan.scrollLeft s) (Pan.scrollTop s)
                      "grabbing" "none")
                   eq_refl eq_refl)
    end.
    reflexivity. }
  unfold released. rewrite Ed. repeat split.
Qed.

Lemma pan_follows_pointer_witness :
  offsets (foldl (Pan.step Example_pan.settle Example_pan.settle) Example_pan.zoomed
             (Pan.Down 500 500
                :: ((λ p, Pan.Move p.1 p.2) <$> [(900, 100)%float] ++ [(450, 520)%float])))
  = Some (350, 380)%float.
Proof.
  pose proof (pan_follows_pointer Example_pan.settle Example_pan.settle
                Example_pan.zoomed (Pan.mk_scroller 300 400 "grab" "auto")
                500 500 450 520 [(900, 100)%float] ltac:(vm_compute; reflexivity)
                eq_refl) as (_ & H & _).
  rewrite H. vm_compute. reflexivity.
Defined.

(** ** The zoom *)

Lemma ltb_leb (a b : float) : (a <? b)%float = true → (a <=? b)%float = true.
Proof.
  rewrite ltb_spec, leb_spec. unfold SFltb, SFleb.
  destruct (SFcompare (Prim2SF a) (Prim2SF b)) as [[]|]; (reflexivity || discriminate).
Qed.

Lemma leb_not_nan (a b : float) : (a <=? b)%float = true → is_nan b = false.
Proof.
  rewrite leb_spec, is_nan_spec. unfold SFleb.
  destruct (Prim2SF a) as [| | |? ? ?], (Prim2SF b) as [| | |? ? ?];
    cbn; (reflexivity || discriminate).
Qed.

Lemma clampZoom_range (y : float) : is_nan y = false → zoom_in_range (Zoom.clampZoom y).
Proof.
  intros Hy. unfold Zoom.clampZoom.
  assert (Em : Js.Math_min 5 y = if (y <? 5)%float then y else 5%float).
  { unfold Js.Math_min. rewrite Hy. change (is_nan 5) with false. cbn [orb].
    destruct (y <? 5)%float; [reflexivity|].
    change (Js.is_pos_zero 5) with false. rewrite andb_false_r. reflexivity. }
  set (m := Js.Math_min 5 y) in *.
  assert (Hm : is_nan m = false ∧ (m <=? 5)%float = true).
  { rewrite Em. destruct (y <? 5)%float eqn:E; [|split; reflexivity].
    split; [exact Hy|apply ltb_leb, E]. }
  destruct Hm as [Hn Hle].
  assert (Er : Js.Math_max 0.5 m = if (0.5 <? m)%float then m else 0.5%float).
  { unfold Js.Math_max. rewrite Hn. change (is_nan 0.5) with false. cbn [orb].
    destruct (0.5 <? m)%float; [reflexivity|].
    change (Js.is_neg_zero 0.5) with false. rewrite andb_false_r. reflexivity. }
  rewrite Er. destruct (0.5 <? m)%float eqn:E; [|split; reflexivity].
  split; [apply ltb_leb, E|exact Hle].
Qed.

Lemma mul_not_nan (z c : float) (m : positive) (e : Z) :
  is_nan z = false → Prim2SF c = S754_finite false m e → is_nan (z * c) = false.
Proof.
  intros Hz Hc. rewrite is_nan_spec in Hz |- *. rewrite mul_spec, Hc.
  unfold SF64mul, SFmul. destruct (Prim2SF z) as [s|s| |s mz ez]; try reflexivity;
    [discriminate Hz|].
  change prec with 53. change emax with 1024.
  pose proof (binary_round_aux_sign (xorb s false) (Z.pos (mz * m)) (ez + e) loc_Exact
                ltac:(lia)) as Hs.
  destruct (binary_round_aux 53 1024 (xorb s false) (Z.pos (mz * m)) (ez + e) loc_Exact);
    [reflexivity..|destruct Hs|reflexivity].
Qed.

Lemma quotient_not_nan (z c : float) (m : positive) (e : Z) :
  is_nan z = false → Prim2SF c = S754_finite false m e → is_nan (z / c) = false.
Proof.
  intros Hz Hc. rewrite is_nan_spec in Hz |- *. rewrite div_spec, Hc.
  unfold SF64div, SFdiv. destruct (Prim2SF z) as [s|s| |s mz ez]; try reflexivity;
    [discriminate Hz|].
  pose proof (SFdiv_core_nonneg mz ez m e) as Hq.
  change prec with 53. change emax with 1024.
  destruct (SFdiv_core_binary 53 1024 (Z.pos mz) ez (Z.pos m) e) as [[q eq] lq].
  cbn [fst] in Hq.
  pose proof (binary_round_aux_sign (xorb s false) q eq lq Hq) as Hs.
  destruct (binary_round_aux 53 1024 (xorb s false) q eq lq);
    [reflexivity..|destruct Hs|reflexivity].
Qed.

Lemma of_uint63_not_nan (n : PrimInt63.int) : is_nan (of_uint63 n) = false.
Proof.
  rewrite is_nan_spec, of_uint63_spec. unfold binary_normalize.
  change prec with 53. change emax with 1024.
  destruct (Uint63Axioms.to_Z n) as [|p|p]; [reflexivity| |].
  - destruct (binary_round_shape false p 0 ltac:(lia)) as [(m' & e' & ->)| ->]; reflexivity.
  - destruct (binary_round_shape true p 0 ltac:(lia)) as [(m' & e' & ->)| ->]; reflexivity.
Qed.

Lemma opp_not_nan (q : float) : is_nan q = false → is_nan (- q) = false.
Proof.
  rewrite !is_nan_spec, opp_spec. destruct (Prim2SF q); (reflexivity || discriminate).
Qed.

Lemma fixed4_not_nan (x : float) : is_nan x = false → is_nan (Zoom.fixed4 x) = false.
Proof.
  intros Hx. unfold Zoom.fixed4.
  destruct (Prim2SF x) as [s|s| |s m e] eqn:E; try exact Hx; [reflexivity|].
  destruct (549755813888 <=? abs x)%float; [exact Hx|].
  assert (Hq : is_nan (of_uint63 (Uint63Axioms.of_Z (Zoom.fixed4_digits m e)) / 10000)
               = false).
  { apply (quotient_not_nan _ 10000 5497558138880000 (-39));
      [apply of_uint63_not_nan|reflexivity]. }
  destruct s; [apply opp_not_nan|]; exact Hq.
Qed.

Lemma zoom_in_range_not_nan (z : float) : zoom_in_range z → is_nan z = false.
Proof. intros [H _]. apply (leb_not_nan _ _ H). Qed.

(** X24.  The zoom never leaves the range from one half to five: from a
    zoom that is a number, zooming in and zooming out give a zoom in the
    range, the reset gives 1, and so every sequence of zoom buttons and
    wheel events keeps a zoom that is in the range in the range.  A wheel
    event without the Control or the Command key, and one that does not
    scroll vertically, leaves the zoom as it is. *)
Theorem zoom_stays_in_range (z : float) (evs : list Zoom.event) :
  (is_nan z = false →
   zoom_in_range (Zoom.zoomIn z) ∧ zoom_in_range (Zoom.zoomOut z))
  ∧ zoom_in_range Zoom.zoomReset
  ∧ (zoom_in_range z → zoom_in_range (foldl Zoom.step z evs))
  ∧ (∀ e, Zoom.ctrlKey e = false → Zoom.metaKey e = false → Zoom.onPdfWheel z e = z)
  ∧ (∀ c m, Zoom.onPdfWheel z (Zoom.mk_wheel c m 0) = z).
Proof.
  assert (Hio : ∀ z0, is_nan z0 = false →
                      zoom_in_range (Zoom.zoomIn z0) ∧ zoom_in_range (Zoom.zoomOut z0)).
  { intros z0 Hz. split; apply clampZoom_range, fixed4_not_nan.
    - apply (mul_not_nan z0 1.15 5179139571476070 (-52) Hz). reflexivity.
    - apply (quotient_not_nan z0 1.15 5179139571476070 (-52) Hz). reflexivity. }
  split; [apply Hio|]. split; [split; reflexivity|]. split; [|split].
  - revert z. induction evs as [|ev evs IH]; intros z Hz; [exact Hz|].
    cbn [foldl]. apply IH.
    pose proof (Hio z (zoom_in_range_not_nan z Hz)) as [Hi Ho].
    destruct ev as [| | |e]; cbn [Zoom.step]; [exact Hi|exact Ho|split; reflexivity|].
    unfold Zoom.onPdfWheel. destruct (negb _); [exact Hz|].
    destruct (0 <? Zoom.deltaY e)%float; [exact Ho|].
    destruct (Zoom.deltaY e <? 0)%float; [exact Hi|exact Hz].
  - intros e Hc Hm. unfold Zoom.onPdfWheel. rewrite Hc, Hm. reflexivity.
  - intros c m. unfold Zoom.onPdfWheel. cbn [Zoom.ctrlKey Zoom.metaKey Zoom.deltaY].
    destruct (negb (c || m)); reflexivity.
Qed.

(** ** Rounded box numbers *)

(** X25.  The integer that the ingestion script stores for a finite box
    number is the integer nearest to it, the larger one of two that are
    equally near: a number with a non-negative exponent is an integer and
    is stored as it is, and the double of any other number lies from the
    double of the stored integer minus one, included, to the double of
    the stored integer plus one, excluded. *)
Theorem Math_round_nearest (x : float) (s : bool) (m : positive) (e : Z) :
  Prim2SF x = S754_finite s m e →
  let n := if s then Z.neg m else Z.pos m in
  let r := Ingest.Math_round x in
  if 0 <=? e then r = n * 2 ^ e
  else (2 * r - 1) * 2 ^ (- e) ≤ 2 * n < (2 * r + 1) * 2 ^ (- e).
Proof.
  intros Hx n r. unfold r, Ingest.Math_round. rewrite Hx. fold n.
  destruct (Z.leb_spec 0 e) as [He|He]; [reflexivity|].
  assert (Hp : 0 < 2 ^ (- e - 1)) by (apply Z.pow_pos_nonneg; lia).
  assert (E2 : 2 ^ (- e) = 2 * 2 ^ (- e - 1)).
  { replace (- e) with (1 + (- e - 1)) at 1 by lia.
    rewrite Z.pow_add_r by lia. reflexivity. }
  rewrite E2.
  pose proof (Z.div_mod (n + 2 ^ (- e - 1)) (2 * 2 ^ (- e - 1)) ltac:(lia)) as Hd.
  pose proof (Z.mod_pos_bound (n + 2 ^ (- e - 1)) (2 * 2 ^ (- e - 1)) ltac:(lia)) as Hb.
  nia.
Qed.

Lemma Math_round_nearest_witness : Ingest.Math_round 2.5 = 3.
Proof.
  pose proof (Math_round_nearest 2.5 false 5629499534213120 (-51) eq_refl) as H.
  cbv zeta in H. cbn [Z.leb Z.compare] in H.
  change (2 ^ (- -51)) with 2251799813685248 in H. lia.
Defined.

(** ** The cache of user names *)





(** ** Signing up *)

Lemma trim_trim (s : string) : Js.trim (Js.trim s) = Js.trim s.
Proof.
  apply list_ascii_of_string_inj. unfold Js.trim at 1.
  rewrite String.list_ascii_of_string_of_list_ascii.
  unfold Js.trim. rewrite String.list_ascii_of_string_of_list_ascii.
  destruct (trim_split (String.list_ascii_of_string s)) as (_ & Hh & Hl).
  apply trim_fixed; assumption.
Qed.

(** X27.  [signUp] sends a request exactly when the trimmed e-mail field
    of the sign-up form contains an [@], the trimmed user name is not
    empty and the password is not empty, and the request carries these
    three.  With a blank e-mail field and an e-mail address in the
    sign-in field, the call copies the trimmed address into the e-mail
    field but still refuses with the alert about the missing e-mail; a
    second call then sends the request with the copied address. *)
Theorem signUp_validates (f : Signup.form)
    (answer : Signup.request → string + option string) :
  let email := Js.trim (Signup.signupEmail f) in
  let uname := Js.trim (Signup.signupUsername f) in
  let r := Signup.signUp f answer in
  (Signup.sent r
   = if Signup.includes_at email && Js.truthy uname && Js.truthy (Signup.signupPw f)
     then Some (Signup.mk_request email (Signup.signupPw f) uname)
     else None)
  ∧ (email = "" → Signup.includes_at (Js.trim (Signup.signinId f)) = true →
     Signup.sent r = None
     ∧ Signup.alert r = "Please enter an email to sign up."
     ∧ Signup.signupEmail (Signup.form_after r) = Js.trim (Signup.signinId f)
     ∧ (uname ≠ "" → Signup.signupPw f ≠ "" →
        Signup.sent (Signup.signUp (Signup.form_after r) answer)
        = Some (Signup.mk_request (Js.trim (Signup.signinId f)) (Signup.signupPw f)
                  uname))).
Proof.
  intros email uname r. split.
  - unfold r, Signup.signUp. fold email. fold uname.
    destruct (Signup.includes_at email); cbn [negb andb]; [|reflexivity].
    destruct (Js.truthy uname); cbn [negb andb]; [|reflexivity].
    destruct (Js.truthy (Signup.signupPw f)); cbn [negb]; [|reflexivity].
    destruct (answer _); reflexivity.
  - intros He Hat.
    assert (Er : r = Signup.mk_result
                       (Signup.mk_form (Js.trim (Signup.signinId f)) (Signup.signinId f)
                          (Signup.signupUsername f) (Signup.signupPw f)
                          (Signup.showSignup f))
                       None "Please enter an email to sign up." None None).
    { unfold r, Signup.signUp. fold email. rewrite He, Hat. reflexivity. }
    rewrite Er. cbn [Signup.sent Signup.alert Signup.form_after Signup.signupEmail].
    split; [reflexivity|]. split; [reflexivity|]. split; [reflexivity|].
    intros Hu Hp. unfold Signup.signUp.
    cbn [Signup.signupEmail Signup.signinId Signup.signupUsername Signup.signupPw].
    fold uname. rewrite trim_trim, Hat.
    rewrite (proj2 (truthy_true uname) Hu), (proj2 (truthy_true _) Hp).
    cbn [negb andb]. destruct (answer _); reflexivity.
Qed.

Lemma signUp_validates_witness :
  Signup.alert (Signup.signUp Example_signup.form Example_signup.answer)
  = "Please enter an email to sign up."
  ∧ Signup.sent (Signup.signUp
                   (Signup.form_after
                      (Signup.signUp Example_signup.form Example_signup.answer))
                   Example_signup.answer)
    = Some (Signup.mk_request "ann@example.org" "secret" "ann").
Proof.
  destruct (signUp_validates Example_signup.form Example_signup.answer) as [_ H].
  destruct (H eq_refl ltac:(vm_compute; reflexivity)) as (_ & Ha & _ & H2).
  split; [exact Ha|].
  apply (H2 ltac:(vm_compute; discriminate) ltac:(discriminate)).
Defined.

(** ** Pages without transcription *)

(** X28.  On a page of the PDF for which the document has no
    transcription, the page-render effect leaves an empty index and no
    active line or highlight box, and the page is inert: a click on it
    changes nothing, and, when no callback of an earlier pointer move is
    still pending, the animation frame of a pointer move changes no part
    of the highlight. *)
Theorem page_without_transcription_inert (production : bool) (numPages n : Z)
    (d : DocJson) (st : Highlight.state) :
  Highlight.doc st = Some d → Highlight.pageKey st ≠ "" →
  pageKeyToNumber (Highlight.pageKey st) = Some n → 1 ≤ n ≤ numPages →
  doc_get d (Highlight.pageKey st) = None →
  let st' := after_effect production (Some numPages) Render.Raster_done st in
  Highlight.hitBoxes st' = [] ∧ Highlight.boxByUid st' = ∅
  ∧ Highlight.activeId st' = None ∧ Highlight.activeBox st' = None
  ∧ (∀ e, Highlight.onHitSvgClick st' e = st')
  ∧ (Highlight.hoverRaf st = None →
     ∀ e, Highlight.highlight
            (Highlight.step (Highlight.step st' (Highlight.Move e)) Highlight.Frame)
          = Highlight.highlight st').
Proof.
  intros Hd Hk Hn Hr Hp st'.
  assert (Est : st' = Highlight.mk_state (Highlight.doc st) (Highlight.pageKey st) [] ∅
                        (Highlight.activeSource st) None None
                        (Highlight.collapseSuggestions st) (Highlight.collapsedUid st)
                        (Highlight.openSuggestUid st) (Highlight.isDragging st)
                        (Highlight.hoverRaf st) (Highlight.hoverPt st)).
  { unfold st', after_effect, Render.effect. rewrite Hd, Hn, Hp.
    destruct (String.eqb_spec (Highlight.pageKey st) ""); [contradiction|].
    destruct (Z.eqb_spec n 0); [lia|].
    destruct (Z.ltb_spec n 1); [lia|].
    destruct (Z.ltb_spec numPages n); [lia|]. cbn [orb].
    unfold Highlight.no_transcription. rewrite Hd, Hp, orb_true_r. reflexivity. }
  assert (Hno : Highlight.no_transcription st' = true).
  { rewrite Est. unfold Highlight.no_transcription.
    cbn [Highlight.doc Highlight.pageKey]. rewrite Hd, Hp, orb_true_r. reflexivity. }
  split; [rewrite Est; reflexivity|]. split; [rewrite Est; reflexivity|].
  split; [rewrite Est; reflexivity|]. split; [rewrite Est; reflexivity|]. split.
  - intros e. unfold Highlight.onHitSvgClick. rewrite Hno.
    destruct (Highlight.isDragging st'); reflexivity.
  - intros Hraf e.
    assert (Hraf' : Highlight.hoverRaf st' = None) by (rewrite Est; exact Hraf).
    assert (Hhit : Highlight.hitBoxes st' = []) by (rewrite Est; reflexivity).
    cbn [Highlight.step]. unfold Highlight.onHitSvgMouseMove.
    destruct (Highlight.bad_rect e); [rewrite Hraf'; reflexivity|].
    cbn [Highlight.hoverRaf]. rewrite Hraf'. unfold Highlight.hover_frame.
    cbn [Highlight.hoverPt Highlight.seen_hitBoxes].
    destruct (Highlight.point_of e) as [px py]. rewrite Hhit. reflexivity.
Qed.

Lemma page_without_transcription_inert_witness :
  Highlight.onHitSvgClick
    (after_effect true (Some 2) Render.Raster_done
       (Highlight.mk_state (Some Example.doc) "pdf_only_page_2" [] ∅ None None None
          false ∅ None false None None))
    Example_clicks.inside
  = after_effect true (Some 2) Render.Raster_done
      (Highlight.mk_state (Some Example.doc) "pdf_only_page_2" [] ∅ None None None
         false ∅ None false None None).
Proof.
  apply (page_without_transcription_inert true 2 2 Example.doc
           (Highlight.mk_state (Some Example.doc) "pdf_only_page_2" [] ∅ None None None
              false ∅ None false None None));
    [reflexivity|discriminate|vm_compute; reflexivity|lia|vm_compute; reflexivity].
Defined.
